(** * tg-dash: the portfolio-message parser and the reconciliation engine

    A shallow embedding of [src/parser.ts] (the response parser),
    [src/index.ts] with [src/db.ts] (the Express server's reconciliation
    code, its backfill and its SQLite storage) and of the Next.js refresh
    and backfill routes with their Prisma storage, followed by the
    properties of the specification stated over these definitions and by
    further properties of the same code. *)

From Stdlib Require Import List NArith ZArith QArith Qreduction String Ascii Bool Lia.
Import ListNotations.

Set Implicit Arguments.
Close Scope Q_scope.

(* ================================================================== *)
(** * JavaScript strings *)
(* ================================================================== *)

(** A JavaScript string is a sequence of UTF-16 code units; [length],
    [includes], [startsWith] and regular expressions without the [u] flag
    all work on code units. *)
Module JS.
Local Open Scope N_scope.

Definition char := N.
Definition str := list char.

(** An ASCII literal of the source as a code-unit string. *)
Definition lit (s : string) : str :=
  map N_of_ascii (list_ascii_of_string s).

Definition LF : char := 10.
Definition bullet : char := 8226.        (* U+2022 '•' *)
Definition leftArrow : char := 8592.     (* U+2190 '←' *)
Definition checkMark : char := 10003.    (* U+2713 '✓' *)
Definition heavyCheckMark : char := 10004. (* U+2714 '✔' *)
Definition whiteHeavyCheckMark : char := 9989. (* U+2705 '✅' *)

Fixpoint eqb (a b : str) : bool :=
  match a, b with
  | [], [] => true
  | x :: a', y :: b' => N.eqb x y && eqb a' b'
  | _, _ => false
  end.

(** [s.startsWith(p)] *)
Fixpoint startsWith (s p : str) : bool :=
  match p, s with
  | [], _ => true
  | c :: p', d :: s' => N.eqb c d && startsWith s' p'
  | _ :: _, [] => false
  end.

(** [s.includes(p)] *)
Fixpoint includes (s p : str) : bool :=
  startsWith s p ||
  match s with
  | [] => false
  | _ :: s' => includes s' p
  end.

(** WhiteSpace and LineTerminator code units of ECMAScript: what [trim]
    strips and what the class [\s] matches. *)
Definition isWhiteSpace (c : char) : bool :=
  existsb (N.eqb c)
    [9; 10; 11; 12; 13; 32; 160; 5760; 8232; 8233; 8239; 8287; 12288; 65279]
  || ((8192 <=? c) && (c <=? 8202)).

Definition isLineTerminator (c : char) : bool :=
  existsb (N.eqb c) [10; 13; 8232; 8233].

Definition isDigit (c : char) : bool := (48 <=? c) && (c <=? 57).

Fixpoint trimStart (s : str) : str :=
  match s with
  | c :: s' => if isWhiteSpace c then trimStart s' else s
  | [] => []
  end.

Definition trimEnd (s : str) : str := rev (trimStart (rev s)).

(** [s.trim()] *)
Definition trim (s : str) : str := trimEnd (trimStart s).

(** [s.toLowerCase()].  ASCII letters are mapped to their lower case; the
    two other code units whose lower-case form contains an ASCII letter are
    U+0130 (to 'i' followed by U+0307) and U+212A (the Kelvin sign, to 'k').
    Every other code unit is kept: its lower-case form has no code unit
    below 128 and is neither '•' nor '←', and the parser only asks whether
    the lowered line contains or starts with keywords made of those. *)
Definition lowerChar (c : char) : str :=
  if (65 <=? c) && (c <=? 90) then [c + 32]
  else if c =? 304 then [105; 775]
  else if c =? 8490 then [107]
  else [c].

Definition toLowerCase (s : str) : str := flat_map lowerChar s.

(** [s.split('\n')] *)
Fixpoint split_go (sep : char) (cur : str) (s : str) : list str :=
  match s with
  | [] => [rev cur]
  | c :: s' => if c =? sep then rev cur :: split_go sep [] s'
               else split_go sep (c :: cur) s'
  end.

Definition split (sep : char) (s : str) : list str := split_go sep [] s.

(** [l.join(sep)] *)
Fixpoint join (sep : str) (l : list str) : str :=
  match l with
  | [] => []
  | [x] => x
  | x :: l' => x ++ sep ++ join sep l'
  end.

End JS.

Abbreviation str := JS.str.
Notation "` s" := (JS.lit s) (at level 5, format "` s").

(* ================================================================== *)
(** * Regular expressions *)
(* ================================================================== *)

(** The backtracking matcher of ECMAScript, for the constructs the parser's
    patterns use: literals (compared case-insensitively under the [i] flag),
    character classes, sequence, ordered alternation, greedy repetition,
    capture groups and the anchors [^] and [$] (no [m] flag is ever set). *)
Module Regex.
Local Open Scope N_scope.

Inductive re : Type :=
| Eps
| Chr (c : JS.char)
| Cls (p : JS.char -> bool)
| Seq (a b : re)
| Alt (a b : re)
| Star (a : re)
| Grp (n : nat) (a : re)
| Bol
| Eol.

Definition Opt (a : re) : re := Alt a Eps.
Definition Plus (a : re) : re := Seq a (Star a).

(** A literal word, and a class given by its member code units. *)
Fixpoint Lit (s : str) : re :=
  match s with
  | [] => Eps
  | [c] => Chr c
  | c :: s' => Seq (Chr c) (Lit s')
  end.

Definition oneOf (cs : list JS.char) : JS.char -> bool :=
  fun c => existsb (N.eqb c) cs.

Definition digit : re := Cls JS.isDigit.                 (* \d *)
Definition space : re := Cls JS.isWhiteSpace.            (* \s *)
Definition digitOrComma : re :=                          (* [\d,] *)
  Cls (fun c => JS.isDigit c || (c =? 44)).
Definition sign : re := Cls (oneOf [43; 45]).            (* [+-] *)
Definition anyChar : re :=                               (* . *)
  Cls (fun c => negb (JS.isLineTerminator c)).

(** Captures: the text of each group that took part in the match, the
    latest binding first.  A group that did not take part has no binding
    ([undefined] in the match array). *)
Definition caps := list (nat * str).

Fixpoint group (n : nat) (cs : caps) : option str :=
  match cs with
  | [] => None
  | (m, s) :: cs' => if Nat.eqb n m then Some s else group n cs'
  end.

(** Canonicalize of the [i] flag without [u]: a pattern letter matches the
    same ASCII letter in either case, and no code unit from 128 on is ever
    folded onto one below 128. *)
Definition upperAscii (c : JS.char) : JS.char :=
  if (97 <=? c) && (c <=? 122) then c - 32 else c.

Definition chrMatches (ci : bool) (p c : JS.char) : bool :=
  if ci then upperAscii p =? upperAscii c else p =? c.

Section Matcher.
Variable A : Type.
Variable ci : bool.           (* the [i] flag *)

Definition cont : Type := nat -> str -> caps -> option A.

(** Greedy repetition of [step]: one more round if it succeeds and
    consumes input, else the continuation.  At most one round per code unit
    of the input can consume, so [fuel], the length of the input, never
    runs out before the rounds do. *)
Fixpoint starLoop (step : nat -> str -> caps -> cont -> option A) (k : cont)
                  (fuel : nat) (pos : nat) (s : str) (cs : caps) : option A :=
  match fuel with
  | O => k pos s cs
  | S fuel' =>
      match step pos s cs
              (fun pos' s' cs' =>
                 if (List.length s' <? List.length s)%nat
                 then starLoop step k fuel' pos' s' cs' else None) with
      | Some x => Some x
      | None => k pos s cs
      end
  end.

(** [m r pos s cs k]: match [r] at offset [pos] of the input, whose
    remaining text is [s], then continue with [k]; [None] is failure and
    makes the caller try its next choice. *)
Fixpoint m (r : re) (pos : nat) (s : str) (cs : caps) (k : cont) {struct r}
  : option A :=
  match r with
  | Eps => k pos s cs
  | Chr c =>
      match s with
      | d :: s' => if chrMatches ci c d then k (S pos) s' cs else None
      | [] => None
      end
  | Cls p =>
      match s with
      | d :: s' => if p d then k (S pos) s' cs else None
      | [] => None
      end
  | Seq a b => m a pos s cs (fun pos' s' cs' => m b pos' s' cs' k)
  | Alt a b =>
      match m a pos s cs k with
      | Some x => Some x
      | None => m b pos s cs k
      end
  | Star a => starLoop (m a) k (List.length s) pos s cs
  | Grp n a =>
      m a pos s cs
        (fun pos' s' cs' =>
           k pos' s' ((n, firstn (List.length s - List.length s')%nat s) :: cs'))
  | Bol => if Nat.eqb pos 0 then k pos s cs else None
  | Eol => match s with [] => k pos s cs | _ :: _ => None end
  end.
End Matcher.

(** The result of [s.match(r)] for a pattern without the [g] flag. *)
Record matchResult := {
  index : nat;          (* where the match starts *)
  whole : str;          (* match[0] *)
  groups : caps;        (* match[1], match[2], ... *)
  after : str           (* the input that follows the match *)
}.

Definition matchAt (ci : bool) (r : re) (pos : nat) (s : str) : option matchResult :=
  m ci r pos s []
    (fun _ s' cs =>
       Some {| index := pos; whole := firstn (List.length s - List.length s')%nat s;
               groups := cs; after := s' |}).

Fixpoint searchFrom (ci : bool) (r : re) (pos : nat) (s : str) : option matchResult :=
  match matchAt ci r pos s with
  | Some x => Some x
  | None =>
      match s with
      | [] => None
      | _ :: s' => searchFrom ci r (S pos) s'
      end
  end.

(** [s.match(r)]: the leftmost match. *)
Definition exec (ci : bool) (r : re) (s : str) : option matchResult :=
  searchFrom ci r 0 s.

(** [r.test(s)], also the truth value of [s.match(r)] in a condition. *)
Definition test (ci : bool) (r : re) (s : str) : bool :=
  match exec ci r s with Some _ => true | None => false end.

(** [s.replace(r, '')] for a pattern without the [g] flag. *)
Definition remove (ci : bool) (r : re) (s : str) : str :=
  match exec ci r s with
  | Some x => firstn (index x) s ++ after x
  | None => s
  end.

End Regex.
Import Regex.
Open Scope N_scope.

(* ================================================================== *)
(** * Numbers, dates, errors *)
(* ================================================================== *)

(** A JavaScript number as the parser sees it.  The parser makes numbers
    only with [parseFloat] and [parseInt] on decimal text, multiplies them
    by 1 or -1 and tests them against zero.  [Num q] stands for the double
    that the program gets from the decimal [q] (kept in lowest terms, so
    that equal values are equal terms): the double nearest to [q], or an
    infinity when [q] is beyond the doubles.  A decimal that rounds to zero
    is kept as zero ([Number.decimal]), so that the value and the double it
    stands for agree on sign and on being zero for every decimal; the sign
    of a zero is not kept. *)
Inductive number : Type :=
| NaN
| Num (q : Q).

Module Number.

Definition zero : number := Num 0%Q.

(** The decimal [z * 10^-k]. *)
Fixpoint pow10 (k : nat) : positive :=
  match k with O => 1%positive | S k' => (10 * pow10 k')%positive end.

Definition dec (z : Z) (k : nat) : number := Num (Qred (z # pow10 k)).

(** The inverse of 2^-1075, half of the least positive double. *)
Definition underflow : Z := 2 ^ 1075.

(** The number that the text of the decimal [z * 10^-k] is read as.  A
    decimal at most 2^-1075 away from zero is nearer to zero than to any
    other double (at the tie, zero has the even significand): it is read
    as zero. *)
Definition decimal (z : Z) (k : nat) : number :=
  if (Z.abs z * underflow <=? Zpos (pow10 k))%Z then zero else dec z k.

(** ToBoolean: [NaN] and zero are falsy. *)
Definition truthy (x : number) : bool :=
  match x with NaN => false | Num q => negb (Qeq_bool q 0%Q) end.

(** [x >= 0], [x > 0], [x < 0]; every comparison with [NaN] is false. *)
Definition geZero (x : number) : bool :=
  match x with NaN => false | Num q => Qle_bool 0%Q q end.

Definition gtZero (x : number) : bool :=
  match x with NaN => false | Num q => negb (Qle_bool q 0%Q) end.

Definition ltZero (x : number) : bool :=
  match x with NaN => false | Num q => negb (Qle_bool 0%Q q) end.

(** [sign * x] for [sign] in {1, -1}. *)
Definition neg (x : number) : number :=
  match x with NaN => NaN | Num q => Num (Qred (Qopp q)) end.

(** [x || 0] *)
Definition orZero (x : option number) : number :=
  match x with
  | Some v => if truthy v then v else zero
  | None => zero
  end.

Fixpoint span (p : JS.char -> bool) (s : str) : str * str :=
  match s with
  | c :: s' => if p c then let (a, b) := span p s' in (c :: a, b) else ([], s)
  | [] => ([], [])
  end.

Definition digitsToN (s : str) : N :=
  fold_left (fun acc c => 10 * acc + (c - 48)) s 0.

(** [parseFloat(s)]: leading white space, an optional sign, digits, an
    optional point and digits; the longest such prefix is the value, and
    there is none ([NaN]) unless it holds a digit.  The parser calls it only
    on text matched by [[+-]?[\d,]+\.?\d*] with the commas removed (or on
    ['0']), so exponents and ['Infinity'] never occur and are left out. *)
Definition parseFloat (s : str) : number :=
  let s0 := JS.trimStart s in
  let '(negative, s1) :=
    match s0 with
    | c :: t => if c =? 43 then (false, t)
                else if c =? 45 then (true, t)
                else (false, s0)
    | [] => (false, s0)
    end in
  let (ip, s2) := span JS.isDigit s1 in
  let fp := match s2 with
            | c :: t => if c =? 46 then fst (span JS.isDigit t) else []
            | [] => []
            end in
  match ip ++ fp with
  | [] => NaN
  | ds =>
      let v := Z.of_N (digitsToN ds) in
      decimal (if negative then (- v)%Z else v) (List.length fp)
  end.

(** [parseInt(s, 10)] on text matched by [\d+]. *)
Definition parseInt (s : str) : number :=
  match fst (span JS.isDigit (JS.trimStart s)) with
  | [] => NaN
  | ds => dec (Z.of_N (digitsToN ds)) 0
  end.

End Number.

(** A [Date] object: a time value in milliseconds since the epoch, or the
    invalid date. *)
Inductive Date : Type :=
| ValidDate (ms : Z)
| InvalidDate.

(** The text [d.toISOString()] of a valid date, kept as the time value it
    renders ([toISOString] is one-to-one on valid dates). *)
Inductive isoString : Type :=
| ISO (ms : Z).

Definition isoMs (t : isoString) : Z := match t with ISO ms => ms end.

Inductive exn : Type :=
| TypeError          (* reading a property of undefined *)
| RangeError         (* Invalid time value *)
| StorageError (op : string).  (* a rejected database call *)

Inductive result (A : Type) : Type :=
| Ok (a : A)
| Throw (e : exn).
Arguments Ok {A} a.
Arguments Throw {A} e.

Definition toISOString (d : Date) : result isoString :=
  match d with
  | ValidDate ms => Ok (ISO ms)
  | InvalidDate => Throw RangeError
  end.

(* ================================================================== *)
(** * Data model ([src/types.ts]) *)
(* ================================================================== *)

Module PortfolioSnapshot.
Record t : Type := {
  id : option N;
  total_balance : number;
  available_balance : number;
  invested : number;
  value : number;
  total_pnl_usd : number;
  total_pnl_pct : number;
  timestamp : isoString;
  total_positions : number
}.

Definition set_id v (s : t) := {|
  id := v; total_balance := total_balance s;
  available_balance := available_balance s; invested := invested s;
  value := value s; total_pnl_usd := total_pnl_usd s;
  total_pnl_pct := total_pnl_pct s; timestamp := timestamp s;
  total_positions := total_positions s |}.
Definition set_total_balance v (s : t) := {|
  id := id s; total_balance := v;
  available_balance := available_balance s; invested := invested s;
  value := value s; total_pnl_usd := total_pnl_usd s;
  total_pnl_pct := total_pnl_pct s; timestamp := timestamp s;
  total_positions := total_positions s |}.
Definition set_available_balance v (s : t) := {|
  id := id s; total_balance := total_balance s;
  available_balance := v; invested := invested s;
  value := value s; total_pnl_usd := total_pnl_usd s;
  total_pnl_pct := total_pnl_pct s; timestamp := timestamp s;
  total_positions := total_positions s |}.
Definition set_invested v (s : t) := {|
  id := id s; total_balance := total_balance s;
  available_balance := available_balance s; invested := v;
  value := value s; total_pnl_usd := total_pnl_usd s;
  total_pnl_pct := total_pnl_pct s; timestamp := timestamp s;
  total_positions := total_positions s |}.
Definition set_value v (s : t) := {|
  id := id s; total_balance := total_balance s;
  available_balance := available_balance s; invested := invested s;
  value := v; total_pnl_usd := total_pnl_usd s;
  total_pnl_pct := total_pnl_pct s; timestamp := timestamp s;
  total_positions := total_positions s |}.
Definition set_total_pnl_usd v (s : t) := {|
  id := id s; total_balance := total_balance s;
  available_balance := available_balance s; invested := invested s;
  value := value s; total_pnl_usd := v;
  total_pnl_pct := total_pnl_pct s; timestamp := timestamp s;
  total_positions := total_positions s |}.
Definition set_total_pnl_pct v (s : t) := {|
  id := id s; total_balance := total_balance s;
  available_balance := available_balance s; invested := invested s;
  value := value s; total_pnl_usd := total_pnl_usd s;
  total_pnl_pct := v; timestamp := timestamp s;
  total_positions := total_positions s |}.
Definition set_total_positions v (s : t) := {|
  id := id s; total_balance := total_balance s;
  available_balance := available_balance s; invested := invested s;
  value := value s; total_pnl_usd := total_pnl_usd s;
  total_pnl_pct := total_pnl_pct s; timestamp := timestamp s;
  total_positions := v |}.
End PortfolioSnapshot.

Inductive Side : Type := Yes | No.

Module Position.
Record t : Type := {
  market_question : str;
  side : Side;
  entry_price : number;
  invested : number;
  shares : number;
  value : number;
  pnl_usd : number;
  pnl_pct : number;
  expiry_timestamp : option str;
  copied_from : option str
}.

Definition set_side v (p : t) := {|
  market_question := market_question p; side := v;
  entry_price := entry_price p; invested := invested p; shares := shares p;
  value := value p; pnl_usd := pnl_usd p; pnl_pct := pnl_pct p;
  expiry_timestamp := expiry_timestamp p; copied_from := copied_from p |}.
Definition set_entry_price v (p : t) := {|
  market_question := market_question p; side := side p;
  entry_price := v; invested := invested p; shares := shares p;
  value := value p; pnl_usd := pnl_usd p; pnl_pct := pnl_pct p;
  expiry_timestamp := expiry_timestamp p; copied_from := copied_from p |}.
Definition set_invested v (p : t) := {|
  market_question := market_question p; side := side p;
  entry_price := entry_price p; invested := v; shares := shares p;
  value := value p; pnl_usd := pnl_usd p; pnl_pct := pnl_pct p;
  expiry_timestamp := expiry_timestamp p; copied_from := copied_from p |}.
Definition set_shares v (p : t) := {|
  market_question := market_question p; side := side p;
  entry_price := entry_price p; invested := invested p; shares := v;
  value := value p; pnl_usd := pnl_usd p; pnl_pct := pnl_pct p;
  expiry_timestamp := expiry_timestamp p; copied_from := copied_from p |}.
Definition set_value v (p : t) := {|
  market_question := market_question p; side := side p;
  entry_price := entry_price p; invested := invested p; shares := shares p;
  value := v; pnl_usd := pnl_usd p; pnl_pct := pnl_pct p;
  expiry_timestamp := expiry_timestamp p; copied_from := copied_from p |}.
Definition set_pnl_usd v (p : t) := {|
  market_question := market_question p; side := side p;
  entry_price := entry_price p; invested := invested p; shares := shares p;
  value := value p; pnl_usd := v; pnl_pct := pnl_pct p;
  expiry_timestamp := expiry_timestamp p; copied_from := copied_from p |}.
Definition set_pnl_pct v (p : t) := {|
  market_question := market_question p; side := side p;
  entry_price := entry_price p; invested := invested p; shares := shares p;
  value := value p; pnl_usd := pnl_usd p; pnl_pct := v;
  expiry_timestamp := expiry_timestamp p; copied_from := copied_from p |}.
Definition set_expiry_timestamp v (p : t) := {|
  market_question := market_question p; side := side p;
  entry_price := entry_price p; invested := invested p; shares := shares p;
  value := value p; pnl_usd := pnl_usd p; pnl_pct := pnl_pct p;
  expiry_timestamp := v; copied_from := copied_from p |}.
Definition set_copied_from v (p : t) := {|
  market_question := market_question p; side := side p;
  entry_price := entry_price p; invested := invested p; shares := shares p;
  value := value p; pnl_usd := pnl_usd p; pnl_pct := pnl_pct p;
  expiry_timestamp := expiry_timestamp p; copied_from := v |}.
End Position.

Record ParsedPortfolio : Type := {
  snapshot : PortfolioSnapshot.t;
  positions : list Position.t
}.

Inductive EventType : Type := copier_added | copier_removed | settings_changed.

Module CopyTradingEvent.
Record t : Type := {
  timestamp : isoString;
  event_type : EventType;
  description : str;
  trader_name : option str
}.
End CopyTradingEvent.

(* ================================================================== *)
(** * The response parser ([src/parser.ts]) *)
(* ================================================================== *)

(** Exceptions: [x <- e ;; k] runs [k] unless [e] throws. *)
Definition bind {A B : Type} (e : result A) (k : A -> result B) : result B :=
  match e with
  | Ok a => k a
  | Throw err => Throw err
  end.

Notation "x <- e ;; k" := (bind e (fun x => k))
  (at level 61, e at next level, right associativity).

Definition ch (a : ascii) : JS.char := N_of_ascii a.
Arguments ch a%_char.

(** The patterns of the source, one definition per regular expression. *)
Module Patterns.

Fixpoint seq (l : list re) : re :=
  match l with
  | [] => Eps
  | [a] => a
  | a :: l' => Seq a (seq l')
  end.

Fixpoint rep (n : nat) (a : re) : re :=
  match n with
  | O => Eps
  | 1%nat => a
  | S n' => Seq a (rep n' a)
  end.

(** AMOUNT, the pattern text "[\d,]+\.?\d*" *)
Definition amount : re := seq [Plus digitOrComma; Opt (Chr (ch ".")); Star digit].

(** "/^#?\d+\./" *)
Definition headerPrefix : re :=
  seq [Bol; Opt (Chr (ch "#")); Plus digit; Chr (ch ".")].

(** "/^#?\d+\.\s*/" *)
Definition headerPrefixSpaces : re :=
  seq [Bol; Opt (Chr (ch "#")); Plus digit; Chr (ch "."); Star space].

(** "/^#\s*\d+$/" *)
Definition paginationButton : re :=
  seq [Bol; Chr (ch "#"); Star space; Plus digit; Eol].

(** "/Positions\s*\((\d+)\)/i" *)
Definition positionsHeader : re :=
  seq [Lit `"Positions"; Star space; Chr (ch "("); Grp 1 (Plus digit); Chr (ch ")")].

(** "/([+-]?)\$?(AMOUNT)\s*\(([+-]?)(AMOUNT)%\)/" (parser.ts, line 64) *)
Definition totalPnl : re :=
  seq [Grp 1 (Opt sign); Opt (Chr (ch "$")); Grp 2 amount; Star space;
       Chr (ch "("); Grp 3 (Opt sign); Grp 4 amount; Chr (ch "%"); Chr (ch ")")].

(** "/([+-]?AMOUNT)\s*\$?\s*\(([+-]?AMOUNT)%\)/" (parser.ts, line 172) *)
Definition positionPnl : re :=
  seq [Grp 1 (Seq (Opt sign) amount); Star space; Opt (Chr (ch "$")); Star space;
       Chr (ch "("); Grp 2 (Seq (Opt sign) amount); Chr (ch "%"); Chr (ch ")")].

(** "/([+-]?AMOUNT)/" (parser.ts, line 198) *)
Definition signedAmount : re := Grp 1 (Seq (Opt sign) amount).

(** "/^[✓✔✅]\s*/" *)
Definition checkmarks : re :=
  seq [Bol;
       Cls (oneOf [JS.checkMark; JS.heavyCheckMark; JS.whiteHeavyCheckMark]);
       Star space].

(** "/^•\s*(Invested|invested)/" *)
Definition bulletInvested : re :=
  seq [Bol; Chr JS.bullet; Star space;
       Grp 1 (Alt (Lit `"Invested") (Lit `"invested"))].

(** "/\d{4}-\d{2}-\d{2}/" *)
Definition isoDate : re :=
  seq [rep 4 digit; Chr (ch "-"); rep 2 digit; Chr (ch "-"); rep 2 digit].

(** "/(\d{1,2}\/\d{1,2}\/\d{4})|(\d{4}-\d{2}-\d{2})/" *)
Definition anyDate : re :=
  Alt (Grp 1 (seq [digit; Opt digit; Chr (ch "/"); digit; Opt digit;
                   Chr (ch "/"); rep 4 digit]))
      (Grp 2 isoDate).

(** The pattern that [extractTextAfter] builds from the source text of
    "/copied|from|copy trade by/i" and the tail "\s*:?\s*(.+)": the text
    "copied|from|copy trade by\s*:?\s*(.+)" under the [i] flag, in which
    the added tail, and with it group 1, belongs to the third alternative
    only. *)
Definition textAfterKeyword : re :=
  Alt (Lit `"copied")
      (Alt (Lit `"from")
           (seq [Lit `"copy trade by"; Star space; Opt (Chr (ch ":"));
                 Star space; Grp 1 (Plus anyChar)])).

End Patterns.

(** [match[n]] followed by a method call: a group that did not take part
    is [undefined], and calling a method on it throws. *)
Definition getGroup (n : nat) (r : matchResult) : result str :=
  match group n (groups r) with
  | Some g => Ok g
  | None => Throw TypeError
  end.

(** [match[n] === s]: false for a group that did not take part. *)
Definition groupIs (n : nat) (r : matchResult) (s : str) : bool :=
  match group n (groups r) with
  | Some g => JS.eqb g s
  | None => false
  end.

(** [s.replace(/,/g, '')] *)
Definition removeCommas (s : str) : str :=
  filter (fun c => negb (c =? ch ",")) s.

(** [s || '0'] *)
Definition orZeroText (s : str) : str :=
  match s with [] => `"0" | _ => s end.

(** [line.match(/^#?\d+\./)] as a condition *)
Definition hasHeaderPrefix (line : str) : bool := test false Patterns.headerPrefix line.

(** [line.match(/^#\s*\d+$/)] as a condition *)
Definition isPaginationButton (line : str) : bool := test false Patterns.paginationButton line.

Definition extractNumber (text : str) : result (option number) :=
  match exec false Patterns.signedAmount text with
  | Some r =>
      g <- getGroup 1 r ;;
      let v := Number.parseFloat (removeCommas g) in
      Ok (if Number.truthy v then Some v else None)
  | None => Ok None
  end.

Definition extractDate (text : str) : option str :=
  match exec false Patterns.isoDate text with
  | Some r => Some (whole r)
  | None =>
      match exec false Patterns.anyDate text with
      | Some r => Some (whole r)
      | None => None
      end
  end.

(** [extractTextAfter(text, /copied|from|copy trade by/i)] *)
Definition extractTextAfter (text : str) : result (option str) :=
  match exec true Patterns.textAfterKeyword text with
  | Some r => g <- getGroup 1 r ;; Ok (Some (JS.trim g))
  | None => Ok None
  end.

(** [x || null] on a string or null *)
Definition orNull (x : option str) : option str :=
  match x with
  | Some [] => None
  | _ => x
  end.

Module Snap := PortfolioSnapshot.

(** The text of the message as the two passes see it:
    [text.split('\n').map(l => l.trim()).filter(l => l.length > 0)]. *)
Definition linesOf (text : str) : list str :=
  filter (fun l => (0 <? List.length l)%nat) (map JS.trim (JS.split JS.LF text)).

(** The first line of the positions section: [line.match(/^#?\d+\./) &&
    line.includes('?')]. *)
Definition isFirstPositionLine (line : str) : bool :=
  hasHeaderPrefix line && JS.includes line `"?".

(** The body of the first loop for one line that is not the first position
    line: at most one summary field is assigned. *)
Definition summaryLine (line : str) (snapshot : Snap.t) : result Snap.t :=
  let lowerLine := JS.toLowerCase line in
  if JS.includes lowerLine `"total balance" then
    balance <- extractNumber line ;;
    match balance with
    | Some b => Ok (if Number.geZero b then Snap.set_total_balance b snapshot else snapshot)
    | None => Ok snapshot
    end
  else if JS.includes lowerLine `"available balance"
          || (JS.includes lowerLine `"available" && JS.includes lowerLine `"balance") then
    available <- extractNumber line ;;
    match available with
    | Some a => Ok (if Number.geZero a then Snap.set_available_balance a snapshot else snapshot)
    | None => Ok snapshot
    end
  else if JS.includes lowerLine `"invested" && negb (JS.includes lowerLine `"shares")
          && negb (hasHeaderPrefix line) && negb (JS.startsWith line [JS.bullet])
          && negb (isPaginationButton line) then
    invested <- extractNumber line ;;
    match invested with
    | Some v => Ok (if Number.geZero v then Snap.set_invested v snapshot else snapshot)
    | None => Ok snapshot
    end
  else if JS.includes lowerLine `"value" && negb (JS.includes lowerLine `"pnl")
          && negb (hasHeaderPrefix line) && negb (JS.startsWith line [JS.bullet])
          && negb (isPaginationButton line) then
    value <- extractNumber line ;;
    match value with
    | Some v => Ok (if Number.geZero v then Snap.set_value v snapshot else snapshot)
    | None => Ok snapshot
    end
  else if (JS.includes lowerLine `"total pnl" || JS.includes lowerLine `"total profit")
          && negb (hasHeaderPrefix line) && negb (isPaginationButton line) then
    match exec false Patterns.totalPnl line with
    | Some pnlMatch =>
        g2 <- getGroup 2 pnlMatch ;;
        let usd := Number.parseFloat (orZeroText (removeCommas g2)) in
        let snapshot1 :=
          Snap.set_total_pnl_usd
            (if groupIs 1 pnlMatch `"-" then Number.neg usd else usd) snapshot in
        g4 <- getGroup 4 pnlMatch ;;
        let pct := Number.parseFloat (orZeroText (removeCommas g4)) in
        Ok (Snap.set_total_pnl_pct
              (if groupIs 3 pnlMatch `"-" then Number.neg pct else pct) snapshot1)
    | None =>
        pnl <- extractNumber line ;;
        match pnl with
        | Some v => Ok (Snap.set_total_pnl_usd v snapshot)
        | None => Ok snapshot
        end
    end
  else Ok snapshot.

(** The first loop: summary fields, up to the first position line. *)
Fixpoint firstPass (lines : list str) (snapshot : Snap.t) : result Snap.t :=
  match lines with
  | [] => Ok snapshot
  | line :: rest =>
      if isFirstPositionLine line then Ok snapshot
      else
        snapshot' <- summaryLine line snapshot ;;
        firstPass rest snapshot'
  end.

(** The state of the second loop. *)
Record PassState : Type := {
  collected : list Position.t;            (* [positions] *)
  currentPosition : option Position.t;
  inPositionsSection : bool
}.

Inductive outcome : Type :=
| Break
| Continue (st : PassState).

(** Pagination controls and bottom buttons, the condition of the [break]. *)
Definition isControlLine (line : str) : bool :=
  let lowerLine := JS.toLowerCase line in
  JS.includes lowerLine (JS.leftArrow :: `" back")
  || JS.includes lowerLine `"refresh"
  || JS.includes lowerLine `"last page"
  || JS.includes lowerLine `"next"
  || JS.includes lowerLine `"auto redeem"
  || (JS.includes lowerLine `"sell" && negb (JS.includes lowerLine `"shares"))
  || JS.includes lowerLine `"limit"
  || isPaginationButton line.

(** Rows inside the positions section that are not markets. *)
Definition isSkippedLine (line : str) : bool :=
  let lowerLine := JS.toLowerCase line in
  JS.includes lowerLine `"total balance"
  || JS.includes lowerLine `"view profile"
  || JS.includes lowerLine `"polygonscan"
  || JS.startsWith lowerLine (JS.bullet :: `" invested:")
  || (JS.startsWith lowerLine `"invested:" && negb (JS.includes line `"?"))
  || JS.includes lowerLine `"polymarket may have"
  || JS.includes lowerLine `"delayed price data"
  || JS.includes lowerLine `"manual trades"
  || JS.includes lowerLine `"copy trades"
  || test false Patterns.bulletInvested line
  || JS.eqb (JS.trim line) []
  || ((List.length line <? 10)%nat && negb (JS.includes line `"?")
      && negb (hasHeaderPrefix line)).

(** [isNumberedMarket || isMarketQuestion] *)
Definition startsPosition (line : str) : bool :=
  (hasHeaderPrefix line && (JS.includes line `"?" || (20 <? List.length line)%nat))
  || (JS.includes line `"?" && (15 <? List.length line)%nat && hasHeaderPrefix line).

Definition mentionsNo (lowerLine : str) : bool :=
  JS.includes lowerLine `"no" || JS.includes lowerLine `"short".

(** The position opened by a market line. *)
Definition newPosition (line : str) : Position.t :=
  let marketText := JS.trim (remove false Patterns.headerPrefixSpaces line) in
  let marketText := JS.trim (remove false Patterns.checkmarks marketText) in
  {| Position.market_question := marketText;
     Position.side := if mentionsNo (JS.toLowerCase line) then No else Yes;
     Position.entry_price := Number.zero;
     Position.invested := Number.zero;
     Position.shares := Number.zero;
     Position.value := Number.zero;
     Position.pnl_usd := Number.zero;
     Position.pnl_pct := Number.zero;
     Position.expiry_timestamp := None;
     Position.copied_from := None |}.

(** A detail line of the open position: the first keyword that the lowered
    line contains decides the field. *)
Definition detailLine (line : str) (p : Position.t) : result Position.t :=
  let lowerLine := JS.toLowerCase line in
  if JS.includes lowerLine `"side:" || JS.includes lowerLine `"position:" then
    Ok (Position.set_side (if mentionsNo lowerLine then No else Yes) p)
  else if JS.includes lowerLine `"entry" || JS.includes lowerLine `"entry price" then
    v <- extractNumber line ;; Ok (Position.set_entry_price (Number.orZero v) p)
  else if JS.includes lowerLine `"invested" && negb (JS.includes lowerLine `"shares") then
    v <- extractNumber line ;; Ok (Position.set_invested (Number.orZero v) p)
  else if JS.includes lowerLine `"shares" then
    v <- extractNumber line ;; Ok (Position.set_shares (Number.orZero v) p)
  else if JS.includes lowerLine `"value" && negb (JS.includes lowerLine `"pnl") then
    v <- extractNumber line ;; Ok (Position.set_value (Number.orZero v) p)
  else if JS.includes lowerLine `"pnl" || JS.includes lowerLine `"profit" then
    match exec false Patterns.positionPnl line with
    | Some pnlMatch =>
        g1 <- getGroup 1 pnlMatch ;;
        let p1 := Position.set_pnl_usd
                    (Number.parseFloat (orZeroText (removeCommas g1))) p in
        g2 <- getGroup 2 pnlMatch ;;
        Ok (Position.set_pnl_pct
              (Number.parseFloat (orZeroText (removeCommas g2))) p1)
    | None =>
        v <- extractNumber line ;; Ok (Position.set_pnl_usd (Number.orZero v) p)
    end
  else if JS.includes lowerLine `"expiry" || JS.includes lowerLine `"expires" then
    Ok (Position.set_expiry_timestamp (orNull (extractDate line)) p)
  else if JS.includes lowerLine `"copied" || JS.includes lowerLine `"from"
          || JS.includes lowerLine `"copy trade by" then
    t <- extractTextAfter line ;; Ok (Position.set_copied_from (orNull t) p)
  else Ok p.

(** [currentPosition && currentPosition.market_question]: push the open
    position if it has a market question. *)
Definition pushOpen (st : PassState) : list Position.t :=
  match currentPosition st with
  | Some p =>
      match Position.market_question p with
      | [] => collected st
      | _ :: _ => collected st ++ [p]
      end
  | None => collected st
  end.

(** The body of the second loop for one line. *)
Definition positionLine (line : str) (st : PassState) : result outcome :=
  if inPositionsSection st && isControlLine line then Ok Break
  else
    let inSection := inPositionsSection st || isFirstPositionLine line in
    let st1 := {| collected := collected st;
                  currentPosition := currentPosition st;
                  inPositionsSection := inSection |} in
    if negb inSection then Ok (Continue st1)
    else if isSkippedLine line then Ok (Continue st1)
    else if startsPosition line then
      Ok (Continue {| collected := pushOpen st1;
                      currentPosition := Some (newPosition line);
                      inPositionsSection := inSection |})
    else
      match currentPosition st1 with
      | Some p =>
          p' <- detailLine line p ;;
          Ok (Continue {| collected := collected st1;
                          currentPosition := Some p';
                          inPositionsSection := inSection |})
      | None => Ok (Continue st1)
      end.

(** The second loop, and the push of the last position after it. *)
Fixpoint secondPassFrom (lines : list str) (st : PassState) : result (list Position.t) :=
  match lines with
  | [] => Ok (pushOpen st)
  | line :: rest =>
      o <- positionLine line st ;;
      match o with
      | Break => Ok (pushOpen st)
      | Continue st' => secondPassFrom rest st'
      end
  end.

Definition initialPass : PassState :=
  {| collected := []; currentPosition := None; inPositionsSection := false |}.

Definition secondPass (lines : list str) : result (list Position.t) :=
  secondPassFrom lines initialPass.

(** The snapshot before any line is read. *)
Definition emptySnapshot (timestamp : isoString) : Snap.t :=
  {| Snap.id := None;
     Snap.total_balance := Number.zero;
     Snap.available_balance := Number.zero;
     Snap.invested := Number.zero;
     Snap.value := Number.zero;
     Snap.total_pnl_usd := Number.zero;
     Snap.total_pnl_pct := Number.zero;
     Snap.timestamp := timestamp;
     Snap.total_positions := Number.zero |}.

(** [parsePortfolioResponse(text, timestamp?)].  [now] is the wall clock
    that [new Date()] reads when no timestamp is passed. *)
Definition parsePortfolioResponse (now : Z) (text : str) (timestamp : option Date)
  : result ParsedPortfolio :=
  let lines := linesOf text in
  ts <- match timestamp with
        | Some d => toISOString d
        | None => toISOString (ValidDate now)
        end ;;
  let snapshot0 := emptySnapshot ts in
  snapshot1 <- match exec true Patterns.positionsHeader text with
               | Some headerMatch =>
                   g <- getGroup 1 headerMatch ;;
                   Ok (Snap.set_total_positions (Number.parseInt g) snapshot0)
               | None => Ok snapshot0
               end ;;
  snapshot2 <- firstPass lines snapshot1 ;;
  ps <- secondPass lines ;;
  Ok {| snapshot := snapshot2; positions := ps |}.

(** The thirteen-line message of the specification's round-trip example. *)
Definition roundTripLines : list str :=
  [ `"Total Balance: $90.20";
    `"Available Balance: $12.50";
    `"Invested: $77.70";
    `"Value: $80.00";
    `"Total PNL: -$15.19 (-0.02%)";
    `"#1. Will X happen?";
    `"Side: Yes";
    `"Entry: 0.45";
    `"Invested: $50.00";
    `"Shares: 111";
    `"Value: $55.00";
    `"PNL: $5.00 (10.00%)";
    `"Copied from: trader_a" ].

Definition roundTripText : str := JS.join [JS.LF] roundTripLines.

(* ================================================================== *)
(** * Storage and process state *)
(* ================================================================== *)

(** The tables: snapshot rows with their position rows, in insertion
    order and as they were passed to the inserts, and the append-only
    event log.  Row ids are 1, 2, ... in insertion order (no row is ever
    deleted). *)
Record Row : Type := {
  row_snapshot : Snap.t;
  row_positions : list Position.t
}.

Record Db : Type := {
  snapshots : list Row;
  events : list CopyTradingEvent.t
}.

Inductive LogEntry : Type :=
| LogInfo (text : string) (detail : str)   (* console.log *)
| LogError (text : string) (e : exn).      (* console.error *)

(** What a pass can read and change: the database, the module-level
    variables [lastKnownTraders] and [tradersInitialized], the console, and
    the number of wall-clock readings made so far. *)
Record World : Type := {
  db : Db;
  lastKnownTraders : list str;    (* a Set<string>, in insertion order *)
  tradersInitialized : bool;
  console : list LogEntry;
  ticks : nat
}.

(** What the process does not control: which inserts and reads the
    database rejects, what its floating-point comparison of two timestamps
    answers where the rounding decides, and what the wall clock shows at
    each reading. *)
Record Env : Type := {
  snapshotInsertFails : Snap.t -> bool;
  positionInsertFails : Position.t -> bool;
  saveEventFails : CopyTradingEvent.t -> bool;
  readFails : bool;
  nearAtTolerance : Z -> Z -> bool;
  wallClock : nat -> Z
}.

(** An asynchronous computation: it changes the world and then resolves
    with a value or rejects with an error; what it did before rejecting
    stays done. *)
Definition M (A : Type) : Type := World -> World * result A.

Definition ret {A : Type} (a : A) : M A := fun w => (w, Ok a).

Definition throw {A : Type} (e : exn) : M A := fun w => (w, Throw e).

Definition bindM {A B : Type} (c : M A) (k : A -> M B) : M B :=
  fun w =>
    match c w with
    | (w', Ok a) => k a w'
    | (w', Throw e) => (w', Throw e)
    end.

Notation "x <~ c ;; k" := (bindM c (fun x => k))
  (at level 61, c at next level, right associativity).
Notation "c ;;; k" := (bindM c (fun _ => k))
  (at level 61, right associativity).

(** [try { body } catch (error) { handler }] *)
Definition tryCatch {A : Type} (body : M A) (handler : exn -> M A) : M A :=
  fun w =>
    match body w with
    | (w', Ok a) => (w', Ok a)
    | (w', Throw e) => handler e w'
    end.

Definition liftResult {A : Type} (r : result A) : M A := fun w => (w, r).

(** [for (const x of l) { await f(x) }] *)
Fixpoint forEach {A : Type} (l : list A) (f : A -> M unit) : M unit :=
  match l with
  | [] => ret tt
  | x :: l' => f x ;;; forEach l' f
  end.

Definition setDb (d : Db) (w : World) : World :=
  {| db := d; lastKnownTraders := lastKnownTraders w;
     tradersInitialized := tradersInitialized w;
     console := console w; ticks := ticks w |}.

Definition setLastKnownTraders (s : list str) : M unit :=
  fun w =>
    ({| db := db w; lastKnownTraders := s;
        tradersInitialized := tradersInitialized w;
        console := console w; ticks := ticks w |}, Ok tt).

Definition setTradersInitialized (b : bool) : M unit :=
  fun w =>
    ({| db := db w; lastKnownTraders := lastKnownTraders w;
        tradersInitialized := b;
        console := console w; ticks := ticks w |}, Ok tt).

Definition logEntry (e : LogEntry) : M unit :=
  fun w =>
    ({| db := db w; lastKnownTraders := lastKnownTraders w;
        tradersInitialized := tradersInitialized w;
        console := console w ++ [e]; ticks := ticks w |}, Ok tt).

Definition getWorld : M World := fun w => (w, Ok w).

(** Sets of strings as JavaScript keeps them: without duplicates, in
    insertion order. *)
Module StrSet.
Definition has (s : list str) (x : str) : bool := existsb (JS.eqb x) s.
Definition add (x : str) (s : list str) : list str :=
  if has s x then s else s ++ [x].
Definition ofList (l : list str) : list str :=
  fold_left (fun s x => add x s) l [].
End StrSet.

(** [new Date().toISOString()] *)
Definition newDateISO (env : Env) : M isoString :=
  fun w =>
    ({| db := db w; lastKnownTraders := lastKnownTraders w;
        tradersInitialized := tradersInitialized w;
        console := console w; ticks := S (ticks w) |},
     Ok (ISO (wallClock env (ticks w)))).

(** The row with the greatest timestamp ([ORDER BY timestamp DESC LIMIT
    1]); among equal timestamps the later row.  Timestamps are compared as
    time values, which is the order of their ISO texts for the years 0000
    to 9999. *)
Fixpoint latestRow (rows : list Row) (best : option Row) : option Row :=
  match rows with
  | [] => best
  | r :: rows' =>
      latestRow rows'
        (match best with
         | Some b =>
             if (isoMs (Snap.timestamp (row_snapshot b))
                 <=? isoMs (Snap.timestamp (row_snapshot r)))%Z
             then Some r else Some b
         | None => Some r
         end)
  end.

Fixpoint findRow (snapshotId : N) (rows : list Row) : option Row :=
  match rows with
  | [] => None
  | r :: rows' =>
      match Snap.id (row_snapshot r) with
      | Some i => if i =? snapshotId then Some r else findRow snapshotId rows'
      | None => findRow snapshotId rows'
      end
  end.

(** [SELECT DISTINCT copied_from ... WHERE copied_from IS NOT NULL AND
    copied_from != ''], in the order of first occurrence. *)
Definition distinctCopiedFrom (ps : list Position.t) : list str :=
  StrSet.ofList
    (flat_map (fun p => match Position.copied_from p with
                        | Some (c :: t) => [c :: t]
                        | _ => []
                        end) ps).

(** [ABS(julianday(timestamp) - julianday(?)) * 24 * 60 < ?]: is the
    distance in minutes below the tolerance?  SQLite computes the left
    side in floating-point days.  The timestamps are whole milliseconds,
    and for the years 0000 to 9999 the rounding error of the left side
    stays below a tenth of a millisecond: the answer is that of exact
    arithmetic unless the two timestamps are exactly the tolerance apart.
    There the rounding decides (for 1970-01-01T00:00:00.000Z and
    1970-01-01T00:05:00.000Z the left side is 4.9999997 and the answer is
    "near"), and the answer is the environment's. *)
Definition withinTolerance (env : Env) (a b : isoString) (toleranceMinutes : Z) : bool :=
  let distance := Z.abs (isoMs a - isoMs b) in
  (distance <? toleranceMinutes * 60000)%Z
  || ((distance =? toleranceMinutes * 60000)%Z && nearAtTolerance env (isoMs a) (isoMs b)).

(** A [NaN] is bound as [NULL]. *)
Definition isNull (x : number) : bool :=
  match x with NaN => true | Num _ => false end.

(** Is the INSERT of the snapshot row rejected?  By the database, or by
    one of the [REAL NOT NULL] columns of [portfolio_snapshots]. *)
Definition snapshotRejected (env : Env) (s : Snap.t) : bool :=
  snapshotInsertFails env s
  || existsb isNull [Snap.total_balance s; Snap.available_balance s; Snap.invested s;
                     Snap.value s; Snap.total_pnl_usd s; Snap.total_pnl_pct s].

(** Is the INSERT of a position row rejected?  By the database, or by one
    of the [REAL NOT NULL] columns of [positions]. *)
Definition positionRejected (env : Env) (p : Position.t) : bool :=
  positionInsertFails env p
  || existsb isNull [Position.entry_price p; Position.invested p; Position.shares p;
                     Position.value p; Position.pnl_usd p; Position.pnl_pct p].

(** The position rows that are written: those whose INSERT is accepted. *)
Definition acceptedPositions (env : Env) (ps : list Position.t) : list Position.t :=
  filter (fun p => negb (positionRejected env p)) ps.

(** Is [savePortfolio(snapshot, positions)] rejected? *)
Definition savePortfolioFails (env : Env) (s : Snap.t) (ps : list Position.t) : bool :=
  snapshotRejected env s || existsb (positionRejected env) ps.

(** What the callers read of the answer of [getLatestSnapshot]: the id and
    the timestamp of the row.  (The answer also holds the other columns
    as they are stored, [total_positions] as [null] where 0 was passed,
    and the position rows ordered by market question; nothing modelled
    here reads them.) *)
Record LatestSnapshot : Type := {
  latest_id : option N;
  latest_timestamp : isoString
}.

Definition latestOf (r : Row) : LatestSnapshot :=
  {| latest_id := Snap.id (row_snapshot r);
     latest_timestamp := Snap.timestamp (row_snapshot r) |}.

Definition insertSnapshot (s : Snap.t) (ps : list Position.t) (d : Db) : N * Db :=
  let newId := N.of_nat (S (List.length (snapshots d))) in
  (newId,
   {| snapshots := snapshots d ++
        [{| row_snapshot := Snap.set_id (Some newId) s; row_positions := ps |}];
      events := events d |}).

Definition insertEvent (e : CopyTradingEvent.t) (d : Db) : N * Db :=
  (N.of_nat (S (List.length (events d))),
   {| snapshots := snapshots d; events := events d ++ [e] |}).

(** ** SQLite storage ([src/db.ts]) *)
Module Sqlite.
Section Storage.
Variable env : Env.

(** [savePortfolio(snapshot, positions)]: the snapshot row is inserted,
    then one row per position, each by a statement of its own and without
    a transaction.  A rejected snapshot row rejects the call with nothing
    written.  A rejected position row rejects the call as well, but the
    snapshot row and the position rows that were accepted stay. *)
Definition savePortfolio (s : Snap.t) (ps : list Position.t) : M N :=
  fun w =>
    if snapshotRejected env s then (w, Throw (StorageError "savePortfolio"))
    else if existsb (positionRejected env) ps then
      (setDb (snd (insertSnapshot s (acceptedPositions env ps) (db w))) w,
       Throw (StorageError "savePortfolio"))
    else let (newId, d) := insertSnapshot s ps (db w) in (setDb d w, Ok newId).

Definition saveCopyTradingEvent (e : CopyTradingEvent.t) : M N :=
  fun w =>
    if saveEventFails env e then (w, Throw (StorageError "saveCopyTradingEvent"))
    else let (newId, d) := insertEvent e (db w) in (setDb d w, Ok newId).

(** The reads of [src/db.ts] catch their own errors: they log and answer
    "nothing". *)
Definition getLatestSnapshot : M (option LatestSnapshot) :=
  tryCatch
    (fun w => if readFails env then (w, Throw (StorageError "getLatestSnapshot"))
              else (w, Ok (option_map latestOf (latestRow (snapshots (db w)) None))))
    (fun error => logEntry (LogError "Error getting latest snapshot:" error) ;;; ret None).

Definition getUniqueTraders (snapshotId : N) : M (list str) :=
  tryCatch
    (fun w => if readFails env then (w, Throw (StorageError "getUniqueTraders"))
              else (w, Ok (match findRow snapshotId (snapshots (db w)) with
                           | Some r => distinctCopiedFrom (row_positions r)
                           | None => []
                           end)))
    (fun error => logEntry (LogError "Error getting unique traders:" error) ;;; ret []).

Definition snapshotExistsNearTimestamp (timestamp : isoString) (toleranceMinutes : Z)
  : M bool :=
  tryCatch
    (fun w => if readFails env then (w, Throw (StorageError "snapshotExistsNearTimestamp"))
              else (w, Ok (existsb
                             (fun r => withinTolerance env (Snap.timestamp (row_snapshot r))
                                                       timestamp toleranceMinutes)
                             (snapshots (db w)))))
    (fun error => logEntry (LogError "Error checking snapshot by timestamp:" error) ;;; ret false).

End Storage.
End Sqlite.

(** ** Prisma storage (the Next.js application's [lib/db.ts]): no call
    catches its own errors. *)
Module Prisma.
Section Storage.
Variable env : Env.

(** [savePortfolio(snapshot, positions)]: one nested [create], which
    writes the snapshot row with all its position rows or nothing.  The
    schema is not among the sources: the create is taken to be rejected
    when the database rejects one of its rows. *)
Definition savePortfolio (s : Snap.t) (ps : list Position.t) : M N :=
  fun w =>
    if snapshotInsertFails env s || existsb (positionInsertFails env) ps
    then (w, Throw (StorageError "savePortfolio"))
    else let (newId, d) := insertSnapshot s ps (db w) in (setDb d w, Ok newId).

Definition saveCopyTradingEvent (e : CopyTradingEvent.t) : M N :=
  fun w =>
    if saveEventFails env e then (w, Throw (StorageError "saveCopyTradingEvent"))
    else let (newId, d) := insertEvent e (db w) in (setDb d w, Ok newId).

Definition getLatestSnapshot : M (option LatestSnapshot) :=
  fun w => if readFails env then (w, Throw (StorageError "getLatestSnapshot"))
           else (w, Ok (option_map latestOf (latestRow (snapshots (db w)) None))).

Definition getUniqueTraders (snapshotId : N) : M (list str) :=
  fun w => if readFails env then (w, Throw (StorageError "getUniqueTraders"))
           else (w, Ok (match findRow snapshotId (snapshots (db w)) with
                        | Some r => distinctCopiedFrom (row_positions r)
                        | None => []
                        end)).

(** [snapshotExistsNearTimestamp(timestamp, toleranceMinutes)]: is a stored
    timestamp between [minTime] and [maxTime], the two ends included?  The
    texts are compared as the time values they render, which is their
    order as texts for the years 0000 to 9999. *)
Definition snapshotExistsNearTimestamp (timestamp : isoString) (toleranceMinutes : Z)
  : M bool :=
  fun w =>
    if readFails env then (w, Throw (StorageError "snapshotExistsNearTimestamp"))
    else
      let targetTime := isoMs timestamp in
      let minTime := ISO (targetTime - toleranceMinutes * 60 * 1000) in
      let maxTime := ISO (targetTime + toleranceMinutes * 60 * 1000) in
      (w, Ok (existsb
                (fun r => (isoMs minTime <=? isoMs (Snap.timestamp (row_snapshot r)))%Z
                          && (isoMs (Snap.timestamp (row_snapshot r)) <=? isoMs maxTime)%Z)
                (snapshots (db w)))).

End Storage.
End Prisma.

Definition addedEvent (timestamp : isoString) (trader : str) : CopyTradingEvent.t :=
  {| CopyTradingEvent.timestamp := timestamp;
     CopyTradingEvent.event_type := copier_added;
     CopyTradingEvent.description := `"Started copying " ++ trader;
     CopyTradingEvent.trader_name := Some trader |}.

Definition removedEvent (timestamp : isoString) (trader : str) : CopyTradingEvent.t :=
  {| CopyTradingEvent.timestamp := timestamp;
     CopyTradingEvent.event_type := copier_removed;
     CopyTradingEvent.description := `"Stopped copying " ++ trader;
     CopyTradingEvent.trader_name := Some trader |}.

(* ================================================================== *)
(** * The Express server ([src/index.ts]) *)
(* ================================================================== *)

Module Express.
Section Server.
Variable env : Env.

(** [initializeCopyTradingState] *)
Definition initializeCopyTradingState : M unit :=
  tryCatch
    (latest <~ Sqlite.getLatestSnapshot env ;;
     match latest with
     | Some r =>
         match latest_id r with
         | Some i =>
             if 0 <? i then
               traders <~ Sqlite.getUniqueTraders env i ;;
               setLastKnownTraders (StrSet.ofList traders) ;;;
               logEntry (LogInfo "[COPY TRADING] Initialized with traders:"
                              (JS.join `", " traders))
             else ret tt
         | None => ret tt
         end
     | None => ret tt
     end)
    (fun error => logEntry (LogError "Error initializing copy trading state:" error)).

(** The distinct trimmed non-empty [copied_from] values of the parsed
    positions. *)
Definition currentTradersOf (positions : list Position.t) : list str :=
  fold_left
    (fun currentTraders pos =>
       match Position.copied_from pos with
       | Some (c :: t) =>
           match JS.trim (c :: t) with
           | [] => currentTraders
           | trimmed => StrSet.add trimmed currentTraders
           end
       | _ => currentTraders
       end)
    positions [].

(** [detectCopyTradingChanges(snapshotId, positions)]: the whole body is
    one [try] block. *)
Definition detectCopyTradingChanges (snapshotId : N) (positions : list Position.t)
  : M unit :=
  tryCatch
    (let currentTraders := currentTradersOf positions in
     w <~ getWorld ;;
     (if (0 <? List.length (lastKnownTraders w))%nat then
        let added :=
          filter (fun t => negb (StrSet.has (lastKnownTraders w) t)) currentTraders in
        let removed :=
          filter (fun t => negb (StrSet.has currentTraders t)) (lastKnownTraders w) in
        snapshot <~ Sqlite.getLatestSnapshot env ;;
        match snapshot with
        | Some r =>
            let timestamp := latest_timestamp r in
            forEach added
              (fun trader =>
                 Sqlite.saveCopyTradingEvent env (addedEvent timestamp trader) ;;;
                 logEntry (LogInfo "[COPY TRADING] Detected new copier:" trader)) ;;;
            forEach removed
              (fun trader =>
                 Sqlite.saveCopyTradingEvent env (removedEvent timestamp trader) ;;;
                 logEntry (LogInfo "[COPY TRADING] Detected removed copier:" trader))
        | None => ret tt
        end
      else ret tt) ;;;
     setLastKnownTraders currentTraders)
    (fun error => logEntry (LogError "Error detecting copy trading changes:" error)).

(** One reconciliation pass: the snapshot is saved, then the traders are
    compared.  These are the two calls that [/api/refresh] and
    [autoRefresh] make once the reply is parsed; a rejection reaches the
    caller's [catch]. *)
Definition reconcile (parsed : ParsedPortfolio) : M N :=
  snapshotId <~ Sqlite.savePortfolio env (snapshot parsed) (positions parsed) ;;
  detectCopyTradingChanges snapshotId (positions parsed) ;;;
  ret snapshotId.

(** The body of [autoRefresh] from the bot's reply on, when the Telegram
    client is connected: the reply is parsed, with the clock read for the
    timestamp, and reconciled. *)
Definition refreshPass (responseText : str) : M N :=
  now <~ newDateISO env ;;
  parsed <~ liftResult (parsePortfolioResponse (isoMs now) responseText None) ;;
  reconcile parsed.

(** [/api/refresh] with a Telegram session that connects: the route
    calls [initializeTelegram] first, which runs
    [initializeCopyTradingState] once the client is connected, and then
    does what [autoRefresh] does with the reply. *)
Definition apiRefresh (responseText : str) : M N :=
  initializeCopyTradingState ;;; refreshPass responseText.

(** A historical message as the transport layer returns it. *)
Record Message : Type := {
  message : str;
  date : Date;
  msg_id : N
}.

Record Counters : Type := {
  saved : nat;
  skipped : nat;
  errors : nat
}.

(** The body of the backfill loop of [/api/historical/fetch] for one
    message.  The parser is given the message's date, so it does not read
    the clock. *)
Definition processMessage (msg : Message) (c : Counters) : M Counters :=
  tryCatch
    (timestamp <~ liftResult (toISOString (date msg)) ;;
     exists_ <~ Sqlite.snapshotExistsNearTimestamp env timestamp 5 ;;
     if exists_ : bool then
       ret {| saved := saved c; skipped := S (skipped c); errors := errors c |}
     else
       parsed <~ liftResult (parsePortfolioResponse 0 (message msg) (Some (date msg))) ;;
       if Number.gtZero (Snap.total_balance (snapshot parsed))
          || (0 <? List.length (positions parsed))%nat
          || Number.truthy (Snap.total_positions (snapshot parsed))
       then
         Sqlite.savePortfolio env (snapshot parsed) (positions parsed) ;;;
         (if (Nat.modulo (S (saved c)) 10 =? 0)%nat
          then logEntry (LogInfo "[HISTORICAL] Processed messages" [])
          else ret tt) ;;;
         ret {| saved := S (saved c); skipped := skipped c; errors := errors c |}
       else
         ret {| saved := saved c; skipped := S (skipped c); errors := errors c |})
    (fun error =>
       logEntry (LogError "[HISTORICAL] Error processing message" error) ;;;
       ret {| saved := saved c; skipped := skipped c; errors := S (errors c) |}).

Fixpoint processAll (msgs : list Message) (c : Counters) : M Counters :=
  match msgs with
  | [] => ret c
  | msg :: rest => c' <~ processMessage msg c ;; processAll rest c'
  end.

(** The backfill: [messages.reverse()], then the loop. *)
Definition backfill (messages : list Message) : M Counters :=
  processAll (rev messages) {| saved := 0; skipped := 0; errors := 0 |}.

End Server.
End Express.

(* ================================================================== *)
(** * The Next.js refresh route ([src/unnamed/part_005]) *)
(* ================================================================== *)

Module NextApp.
Section Server.
Variable env : Env.

(** [initializeTraders]: once per process. *)
Definition initializeTraders : M unit :=
  w <~ getWorld ;;
  if tradersInitialized w then ret tt
  else
    tryCatch
      (latestSnapshot <~ Prisma.getLatestSnapshot env ;;
       match latestSnapshot with
       | Some r =>
           traders <~ Prisma.getUniqueTraders env
                        (match latest_id r with Some i => i | None => 0 end) ;;
           setLastKnownTraders (StrSet.ofList traders) ;;;
           logEntry (LogInfo "[REFRESH] Initialized known traders:" (JS.join `"," traders))
       | None => ret tt
       end ;;;
       setTradersInitialized true)
      (fun error => logEntry (LogError "[REFRESH] Error initializing traders:" error)).

(** [detectCopyTradingChanges(snapshotId)]: no [try], no test of the size
    of [lastKnownTraders], and the events carry the wall clock. *)
Definition detectCopyTradingChanges (snapshotId : N) : M unit :=
  currentTraders <~ Prisma.getUniqueTraders env snapshotId ;;
  let currentSet := StrSet.ofList currentTraders in
  forEach currentTraders
    (fun trader =>
       w <~ getWorld ;;
       if negb (StrSet.has (lastKnownTraders w) trader) then
         logEntry (LogInfo "[COPY-TRADING] New trader detected:" trader) ;;;
         now <~ newDateISO env ;;
         Prisma.saveCopyTradingEvent env (addedEvent now trader) ;;;
         ret tt
       else ret tt) ;;;
  w <~ getWorld ;;
  forEach (lastKnownTraders w)
    (fun trader =>
       if negb (StrSet.has currentSet trader) then
         logEntry (LogInfo "[COPY-TRADING] Trader removed:" trader) ;;;
         now <~ newDateISO env ;;
         Prisma.saveCopyTradingEvent env (removedEvent now trader) ;;;
         ret tt
       else ret tt) ;;;
  setLastKnownTraders currentSet.

(** One reconciliation pass, and with the parse before it the body of
    [POST] from the bot's reply on. *)
Definition reconcile (parsed : ParsedPortfolio) : M N :=
  snapshotId <~ Prisma.savePortfolio env (snapshot parsed) (positions parsed) ;;
  detectCopyTradingChanges snapshotId ;;;
  ret snapshotId.

Definition refreshPass (responseText : str) : M N :=
  now <~ newDateISO env ;;
  parsed <~ liftResult (parsePortfolioResponse (isoMs now) responseText None) ;;
  reconcile parsed.

(** [POST]: the traders are initialised before the bot is asked. *)
Definition post (responseText : str) : M N :=
  initializeTraders ;;; refreshPass responseText.

End Server.
End NextApp.

(* ================================================================== *)
(** * The Next.js backfill route ([src/unnamed/part_005]) *)
(* ================================================================== *)

Module NextHistorical.
Section Route.
Variable env : Env.

Record Tally : Type := {
  savedCount : nat;
  skippedCount : nat
}.

(** The body of the loop of [POST] for one message: no test of what was
    parsed, and a failure is logged but not counted. *)
Definition processMessage (msg : Express.Message) (c : Tally) : M Tally :=
  tryCatch
    (timestamp <~ liftResult (toISOString (Express.date msg)) ;;
     exists_ <~ Prisma.snapshotExistsNearTimestamp env timestamp 5 ;;
     if exists_ : bool then
       ret {| savedCount := savedCount c; skippedCount := S (skippedCount c) |}
     else
       parsed <~ liftResult (parsePortfolioResponse 0 (Express.message msg)
                               (Some (Express.date msg))) ;;
       Prisma.savePortfolio env (snapshot parsed) (positions parsed) ;;;
       ret {| savedCount := S (savedCount c); skippedCount := skippedCount c |})
    (fun error =>
       logEntry (LogError "[HISTORICAL] Error processing message:" error) ;;;
       ret c).

Fixpoint processAll (msgs : list Express.Message) (c : Tally) : M Tally :=
  match msgs with
  | [] => ret c
  | msg :: rest => c' <~ processMessage msg c ;; processAll rest c'
  end.

(** The loop over the messages in the order in which they were fetched. *)
Definition backfill (messages : list Express.Message) : M Tally :=
  processAll messages {| savedCount := 0; skippedCount := 0 |}.

End Route.
End NextHistorical.

(* ================================================================== *)
(** * Vocabulary of the properties, and test data *)
(* ================================================================== *)

(** The shortest message on which the parser throws: one market and one
    detail line. *)
Definition copiedFromText : str :=
  JS.join [JS.LF] [`"#1. Will X happen?"; `"Copied from: trader_a"].

Definition roundTripSnapshot (ts : isoString) : Snap.t :=
  {| Snap.id := None;
     Snap.total_balance := Number.dec 9020 2;
     Snap.available_balance := Number.dec 1250 2;
     Snap.invested := Number.dec 7770 2;
     Snap.value := Number.dec 8000 2;
     Snap.total_pnl_usd := Number.dec (-1519) 2;
     Snap.total_pnl_pct := Number.dec (-2) 2;
     Snap.timestamp := ts;
     Snap.total_positions := Number.zero |}.

Definition roundTripPosition : Position.t :=
  {| Position.market_question := `"Will X happen?";
     Position.side := Yes;
     Position.entry_price := Number.dec 45 2;
     Position.invested := Number.zero;
     Position.shares := Number.dec 111 0;
     Position.value := Number.dec 55 0;
     Position.pnl_usd := Number.dec 5 0;
     Position.pnl_pct := Number.dec 10 0;
     Position.expiry_timestamp := None;
     Position.copied_from := None |}.

Definition positions_questions_of (r : result (list Position.t)) : option (list str) :=
  match r with
  | Ok ps => Some (map Position.market_question ps)
  | Throw _ => None
  end.

Definition nextElectionLines : list str :=
  [ `"Total Balance: $90.20";
    `"#1. Will X happen?";
    `"Entry: 0.45" ].

Definition nextElectionLine : str := `"#2. Will the next election be contested?".

Fixpoint takeWhile {A : Type} (p : A -> bool) (l : list A) : list A :=
  match l with
  | [] => []
  | x :: l' => if p x then x :: takeWhile p l' else []
  end.

(** Was the save of this event accepted? *)
Definition eventSaved (env : Env) (e : CopyTradingEvent.t) : bool :=
  negb (saveEventFails env e).

(** An environment in which no database call is rejected. *)
Definition quietEnv (clock : nat -> Z) : Env :=
  {| snapshotInsertFails := fun _ => false;
     positionInsertFails := fun _ => false;
     saveEventFails := fun _ => false;
     readFails := false;
     nearAtTolerance := fun _ _ => false;
     wallClock := clock |}.

(** A fresh process on an empty database. *)
Definition freshWorld : World :=
  {| db := {| snapshots := []; events := [] |};
     lastKnownTraders := [];
     tradersInitialized := false;
     console := [];
     ticks := 0 |}.

Definition copiedPosition (trader : str) : Position.t :=
  {| Position.market_question := `"Will X happen?";
     Position.side := Yes;
     Position.entry_price := Number.zero;
     Position.invested := Number.zero;
     Position.shares := Number.zero;
     Position.value := Number.zero;
     Position.pnl_usd := Number.zero;
     Position.pnl_pct := Number.zero;
     Position.expiry_timestamp := None;
     Position.copied_from := Some trader |}.

(** A parsed message taken at time [ms] with one position per trader. *)
Definition parsedWith (ms : Z) (traders : list str) : ParsedPortfolio :=
  {| snapshot := emptySnapshot (ISO ms);
     positions := map copiedPosition traders |}.

Definition alice : str := `"alice".
Definition bob : str := `"bob".
Definition carol : str := `"carol".
Definition dave : str := `"dave".

(** The events that a pass added to the log. *)
Definition newEvents (before after : World) : list CopyTradingEvent.t :=
  skipn (List.length (events (db before))) (events (db after)).

(** A clock that advances by one millisecond at each reading. *)
Definition tickingClock (start : Z) (n : nat) : Z := (start + Z.of_nat n)%Z.

(** The events of a change from the traders [last] to [current], stamped
    [ts]: the added ones first, then the removed ones. *)
Definition changeEvents (ts : isoString) (last current : list str)
  : list CopyTradingEvent.t :=
  map (addedEvent ts) (filter (fun t => negb (StrSet.has last t)) current)
  ++ map (removedEvent ts) (filter (fun t => negb (StrSet.has current t)) last).

(** The world after a successful snapshot write. *)
Definition afterSave (parsed : ParsedPortfolio) (w : World) : World :=
  setDb (snd (insertSnapshot (snapshot parsed) (positions parsed) (db w))) w.

(** A world in which "alice" and "bob" are known: a fresh process after
    one pass over a snapshot taken at 1000. *)
Definition knownWorld : World :=
  fst (Express.reconcile (quietEnv (tickingClock 5000))
         (parsedWith 1000 [alice; bob]) freshWorld).

(** An environment that rejects the events about "carol". *)
Definition carolFails : Env :=
  {| snapshotInsertFails := fun _ => false;
     positionInsertFails := fun _ => false;
     saveEventFails := fun e =>
       match CopyTradingEvent.trader_name e with
       | Some t => JS.eqb t carol
       | None => false
       end;
     readFails := false;
     nearAtTolerance := fun _ _ => false;
     wallClock := tickingClock 5000 |}.

(** The claim's sentence about the other traders, for one pass of the
    Express server: every event of the change whose own save is not
    rejected is in the log after the pass. *)
Definition otherEventsStillEmitted (env : Env) (parsed : ParsedPortfolio) (w : World)
  : Prop :=
  forall e : CopyTradingEvent.t,
    In e (changeEvents (Snap.timestamp (snapshot parsed)) (lastKnownTraders w)
            (Express.currentTradersOf (positions parsed))) ->
    saveEventFails env e = false ->
    In e (events (db (fst (Express.reconcile env parsed w)))).

(** The line that the Express detection logs once it has saved an event. *)
Definition detectedLine (e : CopyTradingEvent.t) : LogEntry :=
  let trader := match CopyTradingEvent.trader_name e with
                | Some t => t
                | None => []
                end in
  match CopyTradingEvent.event_type e with
  | copier_added => LogInfo "[COPY TRADING] Detected new copier:" trader
  | _ => LogInfo "[COPY TRADING] Detected removed copier:" trader
  end.

(** The answer of the duplicate check when the table is read: does the
    comparison of the database find some stored snapshot near [ts]? *)
Definition nearStored (env : Env) (w : World) (ts : isoString) : bool :=
  existsb (fun r => withinTolerance env (Snap.timestamp (row_snapshot r)) ts 5)
          (snapshots (db w)).

(** The time values of the stored snapshots, in insertion order. *)
Definition timesOf (d : Db) : list Z :=
  map (fun r => isoMs (Snap.timestamp (row_snapshot r))) (snapshots d).

(** Is some of the time values less than five minutes away from [ms]? *)
Definition nearOne (ts : list Z) (ms : Z) : bool :=
  existsb (fun t => (Z.abs (t - ms) <? 5 * 60000)%Z) ts.

(** Is some of the time values five minutes or less away from [ms]? *)
Definition withinWindow (ts : list Z) (ms : Z) : bool :=
  existsb (fun t => (Z.abs (t - ms) <=? 300000)%Z) ts.

(** The test of the backfill loop on what was parsed: a positive balance,
    a position, or a reported count. *)
Definition hasData (parsed : ParsedPortfolio) : bool :=
  Number.gtZero (Snap.total_balance (snapshot parsed))
  || (0 <? List.length (positions parsed))%nat
  || Number.truthy (Snap.total_positions (snapshot parsed)).

Definition skipOne (c : Express.Counters) : Express.Counters :=
  {| Express.saved := Express.saved c;
     Express.skipped := S (Express.skipped c);
     Express.errors := Express.errors c |}.

Definition saveOne (c : Express.Counters) : Express.Counters :=
  {| Express.saved := S (Express.saved c);
     Express.skipped := Express.skipped c;
     Express.errors := Express.errors c |}.

Definition noCounts : Express.Counters :=
  {| Express.saved := 0; Express.skipped := 0; Express.errors := 0 |}.

(** The claim for one candidate: discarded and counted as skipped when a
    stored snapshot lies within five minutes of it, persisted otherwise. *)
Definition skippedIffNear (env : Env) (msg : Express.Message) (w : World) : Prop :=
  forall ms, Express.date msg = ValidDate ms ->
    let (w', r) := Express.processMessage env msg noCounts w in
    if withinWindow (timesOf (db w)) ms
    then snapshots (db w') = snapshots (db w) /\ r = Ok (skipOne noCounts)
    else List.length (snapshots (db w')) = S (List.length (snapshots (db w))).

(** A reply of the bot for an account with nothing in it. *)
Definition emptyAccountMessage : Express.Message :=
  {| Express.message := `"Total Balance: $0.00";
     Express.date := ValidDate 600000;
     Express.msg_id := 7 |}.

(** A reply whose one position has a PNL amount without a digit: the
    position's pattern takes ",." for the amount, and [parseFloat] of "."
    is [NaN], which no [REAL NOT NULL] column accepts. *)
Definition garbledPnlText : str :=
  JS.join [JS.LF] [`"Total Balance: $10"; `"#1. Will X happen?"; `"PNL: ,. (1%)"].

Definition garbledPnl : ParsedPortfolio :=
  match parsePortfolioResponse 0 garbledPnlText (Some (ValidDate 2000)) with
  | Ok parsed => parsed
  | Throw _ => parsedWith 2000 []
  end.

(** A table with one snapshot taken at time 0, and candidates three and
    ten minutes later. *)
Definition oneSnapshotWorld : World :=
  fst (Express.reconcile (quietEnv (tickingClock 5000)) (parsedWith 0 [alice]) freshWorld).

Definition candidateAt (ms : Z) : Express.Message :=
  {| Express.message := `"Total Balance: $90.20";
     Express.date := ValidDate ms;
     Express.msg_id := 1 |}.

(** An amount as the claim writes it: digits and thousands separators,
    then possibly a point and digits. *)
Definition isDigitOrComma (c : JS.char) : bool := JS.isDigit c || (c =? 44).
Definition isSign (c : JS.char) : bool := oneOf [43; 45] c.

Definition amountText (ip : str) (fp : option str) : str :=
  ip ++ match fp with Some f => ch "." :: f | None => [] end.

Definition isAmount (ip : str) (fp : option str) : bool :=
  match ip with
  | [] => false
  | d :: ip' => JS.isDigit d && forallb isDigitOrComma ip'
  end
  && match fp with Some f => forallb JS.isDigit f | None => true end.

Definition plainPrefix (prefix : str) : bool :=
  forallb (fun c => negb (isSign c) && negb (isDigitOrComma c)) prefix.

(** The number that the text of an amount denotes: its digits, without the
    separators, scaled by the number of digits after the point. *)
Definition fractionDigits (fp : option str) : str :=
  match fp with Some f => f | None => [] end.

Definition amountValue (ip : str) (fp : option str) : number :=
  Number.decimal (Z.of_N (Number.digitsToN (removeCommas ip ++ fractionDigits fp)))
             (List.length (fractionDigits fp)).

(** The four amounts of a snapshot that are guarded by [>= 0]. *)
Definition guardedFields (s : Snap.t) : list number :=
  [Snap.total_balance s; Snap.available_balance s; Snap.invested s; Snap.value s].

Definition noneNegative (s : Snap.t) : bool :=
  forallb Number.geZero (guardedFields s).

Definition mentionsTotalBalance (line : str) : bool :=
  JS.includes (JS.toLowerCase line) `"total balance".

Definition totalBalanceLine (ip : str) (fp : option str) : str :=
  `"Total Balance: $" ++ amountText ip fp.

(** The shortest message with a total balance and a throwing line. *)
Definition balanceThenCopiedText : str :=
  JS.join [JS.LF]
    [`"Total Balance: $1,234.50"; `"#1. Will X happen?"; `"Copied from: trader_a"].

(** A message with negative numbers on every kind of line. *)
Definition negativeLines : list str :=
  [ `"Total Balance: -5";
    `"Available Balance: -3.50";
    `"Invested: -7";
    `"Value: -2";
    `"Total PNL: -$15.19 (-0.02%)";
    `"#1. Will X happen?";
    `"PNL: -5.00 (-10.00%)" ].

Definition negativeText : str := JS.join [JS.LF] negativeLines.

Definition negativeResult (ts : isoString) : ParsedPortfolio :=
  {| snapshot :=
       {| Snap.id := None;
          Snap.total_balance := Number.zero;
          Snap.available_balance := Number.zero;
          Snap.invested := Number.zero;
          Snap.value := Number.zero;
          Snap.total_pnl_usd := Number.dec (-1519) 2;
          Snap.total_pnl_pct := Number.dec (-2) 2;
          Snap.timestamp := ts;
          Snap.total_positions := Number.zero |};
     positions :=
       [ {| Position.market_question := `"Will X happen?";
            Position.side := Yes;
            Position.entry_price := Number.zero;
            Position.invested := Number.zero;
            Position.shares := Number.zero;
            Position.value := Number.zero;
            Position.pnl_usd := Number.dec (-5) 0;
            Position.pnl_pct := Number.dec (-10) 0;
            Position.expiry_timestamp := None;
            Position.copied_from := None |} ] |}.

Definition headNot (p : JS.char -> bool) (s : str) : Prop :=
  match s with [] => True | c :: _ => p c = false end.

(** What may follow an amount without making it longer. *)
Definition endsAmount (fp : option str) (rest : str) : Prop :=
  headNot (fun c => JS.isDigit c
                    || match fp with
                       | None => (c =? 44) || (c =? 46)
                       | Some _ => false
                       end) rest.

Definition isSignText (sg : str) : Prop := sg = [] \/ sg = `"-".

(** The texts "-$15.19 (-0.02%)" and "-5.00 (-10.00%)" in general: a sign
    or none, an amount, a space, and a signed percentage in brackets. *)
Definition totalPnlText (s1 ipA : str) (fpA : option str) (s2 ipP : str) (fpP : option str)
  : str :=
  s1 ++ `"$" ++ amountText ipA fpA ++ `" (" ++ s2 ++ amountText ipP fpP ++ `"%)".

Definition positionPnlText (s1 ipA : str) (fpA : option str) (s2 ipP : str)
           (fpP : option str) : str :=
  s1 ++ amountText ipA fpA ++ `" (" ++ s2 ++ amountText ipP fpP ++ `"%)".

Definition isDollar (c : JS.char) : bool := c =? 36.

(** A prefix in which no match of the combined patterns can start. *)
Definition wordPrefix (prefix : str) : bool :=
  forallb (fun c => negb (isSign c) && negb (isDigitOrComma c) && negb (isDollar c)) prefix.

(** Text without letters: signs, digits, punctuation, spaces. *)
Definition below65 (s : str) : bool := forallb (fun c => c <? 65) s.

(** The value that the parser stores for a sign text and an amount. *)
Definition signedValue (sg ip : str) (fp : option str) : number :=
  if JS.eqb sg `"-" then Number.neg (amountValue ip fp) else amountValue ip fp.

(** The condition of the last branch of the detail lines, the one that
    calls [extractTextAfter]. *)
Definition mentionsCopy (line : str) : bool :=
  let lowerLine := JS.toLowerCase line in
  JS.includes lowerLine `"copied" || JS.includes lowerLine `"from"
  || JS.includes lowerLine `"copy trade by".

(** Does every match of the pattern bind group [n]? *)
Fixpoint binds (r : re) (n : nat) : bool :=
  match r with
  | Grp n' a => Nat.eqb n n' || binds a n
  | Seq a b => binds a n || binds b n
  | Alt a b => binds a n && binds b n
  | _ => false
  end.

(** When a match succeeds, the continuation was called, with every group
    that was bound before still bound and every group that the pattern
    always binds bound as well. *)
Definition calls (A : Type) (ci : bool) (r : re) : Prop :=
  forall (pos : nat) (s : str) (cs : caps) (k : cont A) (x : A),
    m ci r pos s cs k = Some x ->
    exists pos' s' cs',
      k pos' s' cs' = Some x
      /\ (forall n, group n cs <> None -> group n cs' <> None)
      /\ (forall n, binds r n = true -> group n cs' <> None).

(* ================================================================== *)
(** * Vocabulary of the further properties *)
(* ================================================================== *)

Definition errorOne (c : Express.Counters) : Express.Counters :=
  {| Express.saved := Express.saved c;
     Express.skipped := Express.skipped c;
     Express.errors := S (Express.errors c) |}.

(** The messages that the backfill loop has accounted for. *)
Definition counted (c : Express.Counters) : nat :=
  (Express.saved c + Express.skipped c + Express.errors c)%nat.

(** Five minutes or more between two time values. *)
Definition fiveMinutesApart (a b : Z) : bool := (300000 <=? Z.abs (a - b))%Z.

(** Every two of the time values are five minutes or more apart. *)
Fixpoint spaced (ts : list Z) : bool :=
  match ts with
  | [] => true
  | t :: rest => forallb (fiveMinutesApart t) rest && spaced rest
  end.



(** The date that the parser stamps the snapshot with. *)
Definition stampDate (now : Z) (timestamp : option Date) : Date :=
  match timestamp with
  | Some d => d
  | None => ValidDate now
  end.

(** Five candidates for a backfill, as the transport layer returns them,
    newest first: one ten minutes after the stored snapshot, one three
    minutes after it, a reply without data, a reply on which the parser
    throws, and a message without a valid date. *)
Definition backfillBatch : list Express.Message :=
  [ candidateAt 600000;
    candidateAt 180000;
    emptyAccountMessage;
    {| Express.message := copiedFromText;
       Express.date := ValidDate 1200000;
       Express.msg_id := 9 |};
    {| Express.message := `"Total Balance: $5";
       Express.date := InvalidDate;
       Express.msg_id := 10 |} ].

(** A parsed message taken at time [ms] whose positions are not copied
    from anyone. *)
Definition uncopiedPosition : Position.t :=
  {| Position.market_question := `"Will X happen?";
     Position.side := Yes;
     Position.entry_price := Number.zero;
     Position.invested := Number.zero;
     Position.shares := Number.zero;
     Position.value := Number.zero;
     Position.pnl_usd := Number.zero;
     Position.pnl_pct := Number.zero;
     Position.expiry_timestamp := None;
     Position.copied_from := None |}.

Definition parsedUncopied (ms : Z) : ParsedPortfolio :=
  {| snapshot := emptySnapshot (ISO ms); positions := [uncopiedPosition] |}.

(** A line as the two loops of the parser see it: not empty, trimmed, and
    without a line feed. *)
Definition isLine (l : str) : bool :=
  (0 <? List.length l)%nat && JS.eqb (JS.trim l) l && negb (existsb (N.eqb JS.LF) l).

(** The row ids of a table that was filled by inserts alone: 1, 2, ... in
    insertion order. *)
Fixpoint idsFrom (n : nat) (rows : list Row) : bool :=
  match rows with
  | [] => true
  | r :: rest =>
      match Snap.id (row_snapshot r) with
      | Some i => i =? N.of_nat n
      | None => false
      end && idsFrom (S n) rest
  end.

Definition rowIds (d : Db) : bool := idsFrom 1 (snapshots d).

(** A new process on the same database: the module-level variables are
    initial again. *)
Definition restart (w : World) : World :=
  {| db := db w;
     lastKnownTraders := [];
     tradersInitialized := false;
     console := [];
     ticks := ticks w |}.

(** Are the [copied_from] texts trimmed, as [extractTextAfter] leaves
    them? *)
Definition tradersTrimmed (ps : list Position.t) : bool :=
  forallb (fun p => match Position.copied_from p with
                    | Some c => JS.eqb (JS.trim c) c
                    | None => true
                    end) ps.

(** Every stored snapshot is earlier than [ts]. *)
Definition allEarlier (d : Db) (ts : isoString) : bool :=
  forallb (fun r => (isoMs (Snap.timestamp (row_snapshot r)) <? isoMs ts)%Z)
          (snapshots d).

(** Events stamped with successive readings of the wall clock, from the
    reading number [t] on. *)
Fixpoint stamped (clock : nat -> Z) (t : nat)
         (makers : list (isoString -> CopyTradingEvent.t)) : list CopyTradingEvent.t :=
  match makers with
  | [] => []
  | mk :: rest => mk (ISO (clock t)) :: stamped clock (S t) rest
  end.

(** The events of a change from the traders [last] to [current], each
    still without its timestamp: the added ones first, then the removed
    ones. *)
Definition changeMakers (last current : list str)
  : list (isoString -> CopyTradingEvent.t) :=
  map (fun t ts => addedEvent ts t) (filter (fun t => negb (StrSet.has last t)) current)
  ++ map (fun t ts => removedEvent ts t)
         (filter (fun t => negb (StrSet.has current t)) last).

(** Every two of the time values are more than five minutes apart. *)
Fixpoint spacedWide (ts : list Z) : bool :=
  match ts with
  | [] => true
  | t :: rest => forallb (fun u => (300000 <? Z.abs (t - u))%Z) rest && spacedWide rest
  end.

(** The lines of the positions section: those from the first position
    line on. *)
Fixpoint positionsSection (lines : list str) : list str :=
  match lines with
  | [] => []
  | line :: rest => if isFirstPositionLine line then lines else positionsSection rest
  end.

(** A message whose copy line comes before its only market. *)
Definition copyLineFirstText : str :=
  JS.join [JS.LF] [`"Copied from: trader_a"; `"Total Balance: $5"; `"#1. Will X happen?"].

Definition isNumber (x : number) : bool :=
  match x with NaN => false | Num _ => true end.

(** The fields of a position that the detail lines fill with
    [extractNumber(line) || 0] or with a trimmed text: never [NaN], and
    never an empty or untrimmed name. *)
Definition fieldsFilled (p : Position.t) : bool :=
  isNumber (Position.entry_price p) && isNumber (Position.invested p)
  && isNumber (Position.shares p) && isNumber (Position.value p)
  && match Position.copied_from p with
     | Some c => (0 <? List.length c)%nat && JS.eqb (JS.trim c) c
     | None => true
     end.

Definition wellFormedPosition (p : Position.t) : bool :=
  (0 <? List.length (Position.market_question p))%nat
  && JS.eqb (JS.trim (Position.market_question p)) (Position.market_question p)
  && fieldsFilled p.

(** What the second loop has collected, and what it holds open. *)
Definition passOk (st : PassState) : Prop :=
  forallb wellFormedPosition (collected st) = true
  /\ match currentPosition st with
     | Some p => fieldsFilled p = true
                 /\ JS.trim (Position.market_question p) = Position.market_question p
     | None => True
     end.

(** A message whose position names its trader in the one form that
    [extractTextAfter] reads, and what the parser makes of it. *)
Definition copyTradeByText : str :=
  JS.join [JS.LF]
    [`"#1. Will X happen?"; `"Entry: 0.45"; `"Copy trade by:   trader_a"].

Definition copyTradeByResult (ts : isoString) : ParsedPortfolio :=
  {| snapshot := emptySnapshot ts;
     positions :=
       [ {| Position.market_question := `"Will X happen?";
            Position.side := Yes;
            Position.entry_price := Number.dec 45 2;
            Position.invested := Number.zero;
            Position.shares := Number.zero;
            Position.value := Number.zero;
            Position.pnl_usd := Number.zero;
            Position.pnl_pct := Number.zero;
            Position.expiry_timestamp := None;
            Position.copied_from := Some `"trader_a" |} ] |}.

(** The texts that a pattern can match, whatever stands around them (the
    anchors are taken to match the empty text). *)
Inductive lang (ci : bool) : re -> str -> Prop :=
| lang_Eps : lang ci Eps []
| lang_Chr (c d : JS.char) : chrMatches ci c d = true -> lang ci (Chr c) [d]
| lang_Cls (p : JS.char -> bool) (d : JS.char) : p d = true -> lang ci (Cls p) [d]
| lang_Seq (a b : re) (g1 g2 : str) :
    lang ci a g1 -> lang ci b g2 -> lang ci (Seq a b) (g1 ++ g2)
| lang_Alt_l (a b : re) (g : str) : lang ci a g -> lang ci (Alt a b) g
| lang_Alt_r (a b : re) (g : str) : lang ci b g -> lang ci (Alt a b) g
| lang_Star_nil (a : re) : lang ci (Star a) []
| lang_Star_cons (a : re) (g1 g2 : str) :
    lang ci a g1 -> lang ci (Star a) g2 -> lang ci (Star a) (g1 ++ g2)
| lang_Grp (n : nat) (a : re) (g : str) : lang ci a g -> lang ci (Grp n a) g
| lang_Bol : lang ci Bol []
| lang_Eol : lang ci Eol [].

(** When a match succeeds, the continuation was called on what follows a
    text of the pattern. *)
Definition sound (A : Type) (ci : bool) (r : re) : Prop :=
  forall (pos : nat) (s : str) (cs : caps) (k : cont A) (x : A),
    m ci r pos s cs k = Some x ->
    exists g s' cs',
      s = g ++ s' /\ lang ci r g /\ k (pos + List.length g)%nat s' cs' = Some x.

(** [n] digits. *)
Definition isDigits (n : nat) (s : str) : bool :=
  Nat.eqb (List.length s) n && forallb JS.isDigit s.

(** A date as "2025-12-31". *)
Definition isIsoDate (d : str) : Prop :=
  exists y m day,
    d = y ++ `"-" ++ m ++ `"-" ++ day
    /\ isDigits 4 y = true /\ isDigits 2 m = true /\ isDigits 2 day = true.

(** A date as "12/31/2025" or "1/2/2025". *)
Definition isSlashDate (d : str) : Prop :=
  exists a b y,
    d = a ++ `"/" ++ b ++ `"/" ++ y
    /\ (isDigits 1 a = true \/ isDigits 2 a = true)
    /\ (isDigits 1 b = true \/ isDigits 2 b = true)
    /\ isDigits 4 y = true.

(** The same text, whatever the case of its ASCII letters. *)
Definition sameLetters (a b : str) : bool :=
  JS.eqb (map upperAscii a) (map upperAscii b).

(** The code units at which a match of "/copied|from|copy trade by/i" can
    begin: 'c' and 'f', in either case. *)
Definition startsKeyword (c : JS.char) : bool :=
  (upperAscii c =? 67) || (upperAscii c =? 70).

Definition noKeywordStart (s : str) : bool :=
  forallb (fun c => negb (startsKeyword c)) s.

Definition allSpace (s : str) : bool := forallb JS.isWhiteSpace s.

Definition oneLine (s : str) : bool :=
  forallb (fun c => negb (JS.isLineTerminator c)) s.

(** No 'p', in either case: no match of "/Positions.../i" can begin. *)
Definition noLetterP (s : str) : bool :=
  forallb (fun c => negb (upperAscii c =? 80)) s.

(** A reply with a header, and what the parser makes of it. *)
Definition headerText : str :=
  JS.join [JS.LF] [`"Manage your POSITIONS (11)"; `"Total Balance: $5"].

Definition headerResult (ts : isoString) : ParsedPortfolio :=
  {| snapshot :=
       Snap.set_total_balance (Number.dec 5 0)
         (Snap.set_total_positions (Number.dec 11 0) (emptySnapshot ts));
     positions := [] |}.

Definition isCheckmark (c : JS.char) : bool :=
  oneOf [JS.checkMark; JS.heavyCheckMark; JS.whiteHeavyCheckMark] c.

(** A market line: an optional '#', a number, a point, white space, and
    the rest. *)
Definition numberedLine (hash : bool) (ds ws rest : str) : str :=
  (if hash then `"#" else []) ++ ds ++ `"." ++ ws ++ rest.

(** An environment in which every read of the database is rejected. *)
Definition readsFail : Env :=
  {| snapshotInsertFails := fun _ => false;
     positionInsertFails := fun _ => false;
     saveEventFails := fun _ => false;
     readFails := true;
     nearAtTolerance := fun _ _ => false;
     wallClock := tickingClock 5000 |}.

(** Does a line of the positions section open a position? *)
Definition isMarketLine (line : str) : bool :=
  negb (isSkippedLine line) && startsPosition line.

(** The lines of a positions section that the second loop reads: the
    first one, and those after it up to the first control line. *)
Definition readLines (section : list str) : list str :=
  match section with
  | [] => []
  | first :: rest => first :: takeWhile (fun l => negb (isControlLine l)) rest
  end.

Definition questionOf (line : str) : str :=
  Position.market_question (newPosition line).

(** The market questions of a positions section: those of its market
    lines that are read, the empty ones left out. *)
Definition questionsOf (section : list str) : list str :=
  filter (fun q => (0 <? List.length q)%nat)
         (map questionOf (filter isMarketLine (readLines section))).

(** A reply with a summary line, two markets, a row that is skipped, and
    a third market after the first control line. *)
Definition marketsText : str :=
  JS.join [JS.LF]
    [ `"Total Balance: $5";
      `"#1. Will X happen?";
      `"Entry: 0.45";
      `"View profile";
      `"#2. Will Y happen?";
      `"Refresh";
      `"#3. Will Z happen?" ].

(** An event without its timestamp. *)
Definition unstamped (e : CopyTradingEvent.t) : EventType * str * option str :=
  (CopyTradingEvent.event_type e, CopyTradingEvent.description e,
   CopyTradingEvent.trader_name e).

(* ================================================================== *)
(** * Properties of the parser *)
(* ================================================================== *)

Unset Implicit Arguments.

(** ** Strings and patterns *)

Lemma eqb_spec (a b : str) : JS.eqb a b = true <-> a = b.
Proof.
  revert b; induction a as [|x a IH]; intros [|y b]; simpl; split;
    try congruence; try reflexivity.
  - intros H. apply andb_true_iff in H as [H1 H2].
    apply N.eqb_eq in H1. apply IH in H2. congruence.
  - intros H. inversion H; subst. rewrite N.eqb_refl. simpl. now apply IH.
Qed.

Example split_ex :
  JS.split JS.LF (JS.join [JS.LF] [`"a b"; `""; `" c"]) = [`"a b"; `""; `" c"].
Proof. reflexivity. Qed.

Example trim_ex : JS.trim `"  Total Balance: $5  " = `"Total Balance: $5".
Proof. reflexivity. Qed.

(** The matcher backtracks: "/a*ab/" on "xaaab". *)
Example star_backtracks :
  option_map whole (exec false (Seq (Star (Chr 97)) (Lit `"ab")) `"xaaab")
  = Some `"aaab".
Proof. reflexivity. Qed.

(** An alternative that fails after its first branch was taken gives way
    to the second: "/(\d{1,2}\/\d{1,2}\/\d{4})|.../" finds "23/4/2020" in
    "123/4/2020". *)
Example extractDate_backtracks :
  extractDate `"Expires 123/4/2020" = Some `"23/4/2020".
Proof. reflexivity. Qed.

Example linesOf_roundTrip : linesOf roundTripText = roundTripLines.
Proof. reflexivity. Qed.

Lemma bind_Ok {A B : Type} (e : result A) (k : A -> result B) (b : B) :
  bind e k = Ok b -> exists a, e = Ok a /\ k a = Ok b.
Proof.
  destruct e as [a|err]; simpl; intros H; [eauto | discriminate].
Qed.

(** ** The keyword pattern of [extractTextAfter] *)

(** A line that begins with "Copied" or with "from" is matched by the
    first or the second alternative, which has no group: the call of
    [trim] on the missing group throws. *)
Lemma extractTextAfter_Copied (rest : str) :
  extractTextAfter (`"Copied" ++ rest) = Throw TypeError.
Proof. reflexivity. Qed.

Lemma extractTextAfter_from (rest : str) :
  extractTextAfter (`"from" ++ rest) = Throw TypeError.
Proof. reflexivity. Qed.

Example extractTextAfter_copy_trade_by :
  extractTextAfter `"Copy trade by: trader_a" = Ok (Some `"trader_a").
Proof. reflexivity. Qed.

(** C1.  The parser is meant to be total, and it is not: on a message with
    a position whose detail line reads "Copied from: trader_a" the call
    [extractTextAfter] throws a TypeError, which nothing catches, so
    [parsePortfolioResponse] throws instead of returning a degraded
    result; this with every wall clock, without a timestamp and with every
    valid one. *)
Theorem C1_parser_throws_on_copied_from_line :
  (forall now : Z,
     parsePortfolioResponse now copiedFromText None = Throw TypeError)
  /\ (forall (now ms : Z),
        parsePortfolioResponse now copiedFromText (Some (ValidDate ms))
        = Throw TypeError).
Proof. split; intros; vm_compute; reflexivity. Qed.

(** ** The round-trip example *)

(** C2.  On the thirteen-line message the first loop finds the six summary
    values of the claim, and the second loop, up to the twelfth line, the
    one position with its question, side and entry price; the thirteenth
    line, "Copied from: trader_a", makes [extractTextAfter] throw, so the
    parser returns nothing: no snapshot and no position with [copiedFrom]
    "trader_a". *)
Theorem C2_round_trip_message_throws :
  linesOf roundTripText = roundTripLines
  /\ (forall ts, firstPass roundTripLines (emptySnapshot ts) = Ok (roundTripSnapshot ts))
  /\ secondPass (firstn 12 roundTripLines) = Ok [roundTripPosition]
  /\ detailLine `"Copied from: trader_a" roundTripPosition = Throw TypeError
  /\ (forall now : Z,
        parsePortfolioResponse now roundTripText None = Throw TypeError)
  /\ (forall now ms : Z,
        parsePortfolioResponse now roundTripText (Some (ValidDate ms))
        = Throw TypeError).
Proof.
  repeat split; intros; vm_compute; try destruct ts; reflexivity.
Qed.

(** ** Determinism *)

(** C9.  With an explicit timestamp the parser does not read the wall
    clock: two calls with the same text and timestamp give the same
    outcome, whatever the clock shows at each call. *)
Theorem C9_parse_deterministic_with_timestamp :
  forall (now1 now2 : Z) (text : str) (timestamp : Date),
    parsePortfolioResponse now1 text (Some timestamp)
    = parsePortfolioResponse now2 text (Some timestamp).
Proof. intros. reflexivity. Qed.

(** ** The end of the positions section *)

Lemma positionLine_section (line : str) (st st' : PassState) :
  positionLine line st = Ok (Continue st') ->
  inPositionsSection st' = inPositionsSection st || isFirstPositionLine line.
Proof.
  unfold positionLine.
  destruct (inPositionsSection st && isControlLine line); [discriminate|].
  destruct (negb (inPositionsSection st || isFirstPositionLine line));
    [intros H; inversion H; reflexivity|].
  destruct (isSkippedLine line); [intros H; inversion H; reflexivity|].
  destruct (startsPosition line); [intros H; inversion H; reflexivity|].
  simpl. destruct (currentPosition st) as [p|].
  - destruct (detailLine line p); simpl; intros H; inversion H; reflexivity.
  - intros H; inversion H; reflexivity.
Qed.

Lemma positionLine_control (line : str) (st : PassState) :
  inPositionsSection st = true -> isControlLine line = true ->
  positionLine line st = Ok Break.
Proof. intros H1 H2. unfold positionLine. rewrite H1, H2. reflexivity. Qed.

(** Once the section is entered, a control line ends the loop: the lines
    after it are not read. *)
Lemma secondPassFrom_control (l1 : list str) (c : str) (post : list str) :
  isControlLine c = true ->
  forall st,
    inPositionsSection st || existsb isFirstPositionLine l1 = true ->
    secondPassFrom (l1 ++ c :: post) st = secondPassFrom l1 st.
Proof.
  intros Hc. induction l1 as [|line l1 IH]; intros st Hin; simpl in *.
  - rewrite orb_false_r in Hin. rewrite (positionLine_control _ _ Hin Hc).
    reflexivity.
  - destruct (positionLine line st) as [[|st']|e] eqn:E; simpl; try reflexivity.
    apply IH. rewrite (positionLine_section _ _ _ E).
    rewrite <- orb_assoc. exact Hin.
Qed.

(** C10.  When the lines of a message are [l1], then a control line [c],
    then [post], and [l1] has entered the positions section, the positions
    (or the error) of the second loop are those of [l1] alone: nothing is
    read from [c], even if [c] is itself a numbered market line, nor from
    [post], and what [l1] collected, the open position included, is kept;
    so also for the positions of the parser's result. *)
Theorem C10_control_line_ends_positions :
  forall (l1 : list str) (c : str) (post : list str),
    existsb isFirstPositionLine l1 = true ->
    isControlLine c = true ->
    secondPass (l1 ++ c :: post) = secondPass l1
    /\ (forall (now : Z) (text : str) (timestamp : option Date) (r : ParsedPortfolio),
          linesOf text = l1 ++ c :: post ->
          parsePortfolioResponse now text timestamp = Ok r ->
          secondPass l1 = Ok (positions r)).
Proof.
  intros l1 c post Hin Hc.
  assert (E : secondPass (l1 ++ c :: post) = secondPass l1).
  { unfold secondPass. apply secondPassFrom_control; [exact Hc|].
    simpl. exact Hin. }
  split; [exact E|].
  intros now text timestamp r Hl Hp. unfold parsePortfolioResponse in Hp.
  apply bind_Ok in Hp as (ts & _ & Hp).
  apply bind_Ok in Hp as (s1 & _ & Hp).
  apply bind_Ok in Hp as (s2 & _ & Hp).
  apply bind_Ok in Hp as (ps & Hps & Hp).
  inversion Hp; subst; simpl. rewrite Hl, E in Hps. exact Hps.
Qed.

(** The claim's own example: the second market's question contains "next". *)
Lemma C10_control_line_ends_positions_witness :
  existsb isFirstPositionLine nextElectionLines = true
  /\ isControlLine nextElectionLine = true
  /\ startsPosition nextElectionLine = true
  /\ secondPass (nextElectionLines ++ nextElectionLine :: [`"#3. Will Y happen?"])
     = secondPass nextElectionLines
  /\ positions_questions_of (secondPass nextElectionLines) = Some [`"Will X happen?"].
Proof.
  split; [reflexivity|]. split; [reflexivity|]. split; [reflexivity|].
  split.
  - apply (C10_control_line_ends_positions
             nextElectionLines nextElectionLine [`"#3. Will Y happen?"]);
      reflexivity.
  - reflexivity.
Defined.

(* ================================================================== *)
(** * Properties of the reconciliation engine *)
(* ================================================================== *)

Lemma takeWhile_app {A : Type} (p : A -> bool) (a b : list A) :
  takeWhile p (a ++ b)
  = if forallb p a then a ++ takeWhile p b else takeWhile p a.
Proof.
  induction a as [|x a IH]; simpl; [reflexivity|].
  destruct (p x); simpl; [|reflexivity].
  rewrite IH. destruct (forallb p a); reflexivity.
Qed.

Lemma takeWhile_all {A : Type} (p : A -> bool) (l : list A) :
  forallb p l = true -> takeWhile p l = l.
Proof.
  induction l as [|x l IH]; simpl; [reflexivity|].
  destruct (p x); simpl; [|discriminate]. intros H. now rewrite IH.
Qed.

Section ExpressFacts.
Variable env : Env.

(** The loop that saves one event per trader: it saves the events up to
    the first rejected one and rejects there; it touches nothing but the
    event log and the console. *)
Lemma forEach_save (mk : str -> CopyTradingEvent.t) (lg : str -> LogEntry)
      (l : list str) :
  forall w, exists w',
    forEach l (fun trader =>
                 Sqlite.saveCopyTradingEvent env (mk trader) ;;; logEntry (lg trader)) w
    = (w', if forallb (eventSaved env) (map mk l) then Ok tt
           else Throw (StorageError "saveCopyTradingEvent"))
    /\ snapshots (db w') = snapshots (db w)
    /\ events (db w') = events (db w) ++ takeWhile (eventSaved env) (map mk l)
    /\ lastKnownTraders w' = lastKnownTraders w.
Proof.
  induction l as [|t l IH]; intros w; simpl.
  - exists w. rewrite app_nil_r. repeat split.
  - unfold bindM at 1. unfold bindM at 1.
    unfold Sqlite.saveCopyTradingEvent at 1, eventSaved at 1 3.
    destruct (saveEventFails env (mk t)) eqn:F; simpl.
    + exists w. rewrite app_nil_r. repeat split.
    + match goal with |- context [forEach l ?f ?w1] =>
        destruct (IH w1) as (w' & E & Hs & He & Hl) end.
      exists w'. rewrite E. simpl in *. repeat split; try assumption.
      rewrite He, <- app_assoc. reflexivity.
Qed.

Lemma forEach_save_console (mk : str -> CopyTradingEvent.t) (lg : str -> LogEntry)
      (l : list str) :
  (forall t, detectedLine (mk t) = lg t) ->
  forall w w' r,
    forEach l (fun trader =>
                 Sqlite.saveCopyTradingEvent env (mk trader) ;;; logEntry (lg trader)) w
    = (w', r) ->
    console w'
    = console w ++ map detectedLine (takeWhile (eventSaved env) (map mk l)).
Proof.
  intros Hlg. induction l as [|t l IH]; intros w w' r; simpl.
  - intros E. inversion E; subst. now rewrite app_nil_r.
  - unfold bindM at 1. unfold bindM at 1.
    unfold Sqlite.saveCopyTradingEvent at 1, eventSaved at 1.
    destruct (saveEventFails env (mk t)) eqn:F; simpl.
    + intros E. inversion E; subst. now rewrite app_nil_r.
    + intros E. rewrite (IH _ _ _ E).
      simpl. rewrite <- app_assoc, Hlg. reflexivity.
Qed.

(** With no trader known before, nothing is read or written: the pass
    only records the current traders. *)
Lemma Express_detect_first (snapshotId : N) (positions : list Position.t) (w : World) :
  lastKnownTraders w = [] ->
  Express.detectCopyTradingChanges env snapshotId positions w
  = ({| db := db w;
        lastKnownTraders := Express.currentTradersOf positions;
        tradersInitialized := tradersInitialized w;
        console := console w; ticks := ticks w |}, Ok tt).
Proof.
  intros H. unfold Express.detectCopyTradingChanges, tryCatch, bindM, getWorld.
  rewrite H. reflexivity.
Qed.

(** With traders known before and the latest snapshot readable, the pass
    saves the "added" events and then the "removed" ones, stamped with the
    latest snapshot's timestamp, up to the first rejected save; it always
    resolves, never touches the snapshots, and replaces [lastKnownTraders]
    only when no save was rejected. *)
Lemma Express_detect_spec (snapshotId : N) (positions : list Position.t)
      (w : World) (r : Row) :
  lastKnownTraders w <> [] ->
  readFails env = false ->
  latestRow (snapshots (db w)) None = Some r ->
  let ts := Snap.timestamp (row_snapshot r) in
  let current := Express.currentTradersOf positions in
  let added := filter (fun t => negb (StrSet.has (lastKnownTraders w) t)) current in
  let removed := filter (fun t => negb (StrSet.has current t)) (lastKnownTraders w) in
  let intended := map (addedEvent ts) added ++ map (removedEvent ts) removed in
  exists w',
    Express.detectCopyTradingChanges env snapshotId positions w = (w', Ok tt)
    /\ snapshots (db w') = snapshots (db w)
    /\ events (db w') = events (db w) ++ takeWhile (eventSaved env) intended
    /\ lastKnownTraders w'
       = (if forallb (eventSaved env) intended then current else lastKnownTraders w).
Proof.
  intros Hne Hr Hl ts current added removed intended.
  unfold Express.detectCopyTradingChanges.
  fold current.
  unfold tryCatch at 1. unfold bindM at 1. unfold bindM at 1. unfold getWorld at 1.
  destruct (lastKnownTraders w) as [|t0 l0] eqn:EL; [congruence|].
  cbn [List.length Nat.ltb Nat.leb].
  unfold bindM at 1.
  unfold Sqlite.getLatestSnapshot, tryCatch at 1. rewrite Hr, Hl.
  cbn [option_map]. change (latest_timestamp (latestOf r)) with ts.
  change (filter (fun t => negb (StrSet.has (t0 :: l0) t)) current) with added.
  change (filter (fun t => negb (StrSet.has current t)) (t0 :: l0)) with removed.
  unfold bindM at 1.
  destruct (forEach_save (addedEvent ts)
              (fun trader => LogInfo "[COPY TRADING] Detected new copier:" trader)
              added w) as (w1 & E1 & S1 & V1 & L1).
  rewrite E1.
  unfold intended. rewrite takeWhile_app, forallb_app.
  destruct (forallb (eventSaved env) (map (addedEvent ts) added)) eqn:A1.
  - destruct (forEach_save (removedEvent ts)
                (fun trader => LogInfo "[COPY TRADING] Detected removed copier:" trader)
                removed w1) as (w2 & E2 & S2 & V2 & L2).
    rewrite E2.
    destruct (forallb (eventSaved env) (map (removedEvent ts) removed)) eqn:A2; simpl.
    + eexists; split; [reflexivity|]. simpl.
      rewrite S2, S1, V2, V1, app_assoc, (takeWhile_all _ _ A1).
      repeat split.
    + eexists; split; [reflexivity|]. simpl.
      rewrite S2, S1, V2, V1, L2, L1, EL, app_assoc, (takeWhile_all _ _ A1).
      repeat split.
  - simpl. eexists; split; [reflexivity|]. simpl.
    rewrite S1, V1, L1, EL. repeat split.
Qed.

(** What the detection writes to the console in that case: one line per
    saved event, and one error line if a save was rejected. *)
Lemma Express_detect_console (snapshotId : N) (positions : list Position.t)
      (w : World) (r : Row) :
  lastKnownTraders w <> [] ->
  readFails env = false ->
  latestRow (snapshots (db w)) None = Some r ->
  let intended :=
    changeEvents (Snap.timestamp (row_snapshot r)) (lastKnownTraders w)
                 (Express.currentTradersOf positions) in
  console (fst (Express.detectCopyTradingChanges env snapshotId positions w))
  = console w
    ++ map detectedLine (takeWhile (eventSaved env) intended)
    ++ (if forallb (eventSaved env) intended then []
        else [LogError "Error detecting copy trading changes:"
                       (StorageError "saveCopyTradingEvent")]).
Proof.
  intros Hne Hr Hl intended.
  set (ts := Snap.timestamp (row_snapshot r)) in *.
  set (current := Express.currentTradersOf positions) in *.
  set (added := filter (fun t => negb (StrSet.has (lastKnownTraders w) t)) current).
  set (removed := filter (fun t => negb (StrSet.has current t)) (lastKnownTraders w)).
  unfold Express.detectCopyTradingChanges.
  fold current.
  unfold tryCatch at 1. unfold bindM at 1. unfold bindM at 1. unfold getWorld at 1.
  unfold intended, changeEvents. fold added. fold removed.
  destruct (lastKnownTraders w) as [|t0 l0] eqn:EL; [congruence|].
  cbn [List.length Nat.ltb Nat.leb].
  unfold bindM at 1.
  unfold Sqlite.getLatestSnapshot, tryCatch at 1. rewrite Hr, Hl.
  cbn [option_map]. change (latest_timestamp (latestOf r)) with ts.
  change (filter (fun t => negb (StrSet.has (t0 :: l0) t)) current) with added.
  change (filter (fun t => negb (StrSet.has current t)) (t0 :: l0)) with removed.
  unfold bindM at 1.
  destruct (forEach_save (addedEvent ts)
              (fun trader => LogInfo "[COPY TRADING] Detected new copier:" trader)
              added w) as (w1 & E1 & _).
  pose proof (forEach_save_console (addedEvent ts) _ added (fun _ => eq_refl) _ _ _ E1)
    as C1.
  rewrite E1.
  rewrite takeWhile_app, forallb_app.
  destruct (forallb (eventSaved env) (map (addedEvent ts) added)) eqn:A1.
  - destruct (forEach_save (removedEvent ts)
                (fun trader => LogInfo "[COPY TRADING] Detected removed copier:" trader)
                removed w1) as (w2 & E2 & _).
    pose proof (forEach_save_console (removedEvent ts) _ removed (fun _ => eq_refl)
                  _ _ _ E2) as C2.
    rewrite E2.
    rewrite map_app. rewrite (takeWhile_all _ _ A1) in C1.
    destruct (forallb (eventSaved env) (map (removedEvent ts) removed)) eqn:A2; simpl.
    + rewrite C2, C1, app_nil_r, <- app_assoc. reflexivity.
    + rewrite C2, C1, <- !app_assoc. reflexivity.
  - simpl. rewrite C1, <- app_assoc. reflexivity.
Qed.

End ExpressFacts.

(** ** The first pass of a fresh process *)

(** C3.  The Express server's detection does what the claim says: with no
    trader known it saves no event and records the current traders, for
    every database, every fault and every list of positions; so the pass
    over a snapshot copied from "alice" leaves the event log empty and
    [lastKnownTraders] equal to {"alice"}.  The Next.js route has no such
    test: the same pass in a fresh process saves a "copier_added" event
    for "alice". *)
Theorem C3_first_pass_is_silent_in_express_only :
  (forall (env : Env) (d : Db) (init : bool) (c : list LogEntry) (t : nat)
          (snapshotId : N) (positions : list Position.t),
      Express.detectCopyTradingChanges env snapshotId positions
        {| db := d; lastKnownTraders := []; tradersInitialized := init;
           console := c; ticks := t |}
      = ({| db := d; lastKnownTraders := Express.currentTradersOf positions;
            tradersInitialized := init; console := c; ticks := t |}, Ok tt))
  /\ (let (w', r) := Express.reconcile (quietEnv (tickingClock 5000))
                       (parsedWith 1000 [alice]) freshWorld in
      r = Ok 1 /\ events (db w') = [] /\ lastKnownTraders w' = [alice])
  /\ (let (w', r) := NextApp.reconcile (quietEnv (tickingClock 5000))
                       (parsedWith 1000 [alice]) freshWorld in
      r = Ok 1
      /\ events (db w') = [addedEvent (ISO 5000) alice]
      /\ lastKnownTraders w' = [alice]).
Proof.
  split; [|split].
  - intros. apply Express_detect_first. reflexivity.
  - vm_compute. repeat split.
  - vm_compute. repeat split.
Qed.

(** ** Two consecutive passes *)

(** C4.  Two passes, the first over positions copied from "alice" and
    "bob" in a snapshot taken at 1000, the second over "bob" and "carol"
    in a snapshot taken at 2000.  In the Express server the second pass
    saves one "copier_added" event for "carol" and one "copier_removed"
    event for "alice", both with the snapshot's timestamp 2000, and none
    for "bob".  The Next.js route saves the same two events but stamps
    them with the wall clock at the moment of saving (here 5002 and 5003),
    not with the snapshot's timestamp. *)
Theorem C4_second_pass_events :
  (let (w1, _) := Express.reconcile (quietEnv (tickingClock 5000))
                    (parsedWith 1000 [alice; bob]) freshWorld in
   let (w2, r) := Express.reconcile (quietEnv (tickingClock 5000))
                    (parsedWith 2000 [bob; carol]) w1 in
   r = Ok 2
   /\ newEvents w1 w2 = [addedEvent (ISO 2000) carol; removedEvent (ISO 2000) alice]
   /\ lastKnownTraders w2 = [bob; carol])
  /\ (let (w1, _) := NextApp.reconcile (quietEnv (tickingClock 5000))
                       (parsedWith 1000 [alice; bob]) freshWorld in
      let (w2, r) := NextApp.reconcile (quietEnv (tickingClock 5000))
                       (parsedWith 2000 [bob; carol]) w1 in
      r = Ok 2
      /\ newEvents w1 w2 = [addedEvent (ISO 5002) carol; removedEvent (ISO 5003) alice]
      /\ lastKnownTraders w2 = [bob; carol]).
Proof. split; vm_compute; repeat split. Qed.

(** ** Failures during a pass *)

Lemma latestRow_Some (rows : list Row) (b : Row) :
  exists r, latestRow rows (Some b) = Some r.
Proof.
  revert b. induction rows as [|x rows IH]; intros b; simpl; [eauto|].
  destruct (isoMs (Snap.timestamp (row_snapshot b))
            <=? isoMs (Snap.timestamp (row_snapshot x)))%Z; apply IH.
Qed.

Lemma latestRow_app (a b : list Row) (best : option Row) :
  latestRow (a ++ b) best = latestRow b (latestRow a best).
Proof.
  revert best. induction a as [|x a IH]; intros best; simpl; [reflexivity|].
  apply IH.
Qed.

Lemma latestRow_nonempty (rows : list Row) (x : Row) :
  exists r, latestRow (rows ++ [x]) None = Some r.
Proof.
  rewrite latestRow_app. simpl.
  destruct (latestRow rows None) as [b|]; [|eauto].
  destruct (isoMs (Snap.timestamp (row_snapshot b))
            <=? isoMs (Snap.timestamp (row_snapshot x)))%Z; eauto.
Qed.

Section ExpressFailures.
Variable env : Env.

(** The Express detection always resolves, whatever is rejected, and
    leaves the snapshots alone. *)
Lemma Express_detect_total (snapshotId : N) (positions : list Position.t) (w : World) :
  exists w',
    Express.detectCopyTradingChanges env snapshotId positions w = (w', Ok tt)
    /\ snapshots (db w') = snapshots (db w).
Proof.
  destruct (lastKnownTraders w) as [|t0 l0] eqn:EL.
  - rewrite (Express_detect_first env snapshotId positions w EL).
    eexists; split; reflexivity.
  - destruct (readFails env) eqn:Hr.
    + unfold Express.detectCopyTradingChanges, tryCatch, bindM, getWorld.
      rewrite EL. cbn [List.length Nat.ltb Nat.leb].
      unfold Sqlite.getLatestSnapshot, tryCatch, bindM. rewrite Hr. simpl.
      eexists; split; reflexivity.
    + destruct (latestRow (snapshots (db w)) None) as [r|] eqn:Hl.
      * destruct (Express_detect_spec env snapshotId positions w) with (r := r)
          as (w' & E & S1 & _); try assumption; [rewrite EL; discriminate|].
        exists w'. split; assumption.
      * unfold Express.detectCopyTradingChanges, tryCatch, bindM, getWorld.
        rewrite EL. cbn [List.length Nat.ltb Nat.leb].
        unfold Sqlite.getLatestSnapshot, tryCatch, bindM. rewrite Hr, Hl. simpl.
        eexists; split; reflexivity.
Qed.

(** An accepted save writes the snapshot row with all its position rows
    and answers the new id. *)
Lemma savePortfolio_accepted (s : Snap.t) (ps : list Position.t) (w : World) :
  savePortfolioFails env s ps = false ->
  Sqlite.savePortfolio env s ps w
  = (setDb (snd (insertSnapshot s ps (db w))) w, Ok (fst (insertSnapshot s ps (db w)))).
Proof.
  unfold savePortfolioFails, Sqlite.savePortfolio. intros H.
  apply orb_false_iff in H as [H1 H2]. rewrite H1, H2. reflexivity.
Qed.

(** A rejected save rejects with nothing but the snapshot table touched:
    the table is as it was when the snapshot row was rejected, and has the
    snapshot row with the accepted position rows otherwise. *)
Lemma savePortfolio_rejected (s : Snap.t) (ps : list Position.t) (w : World) :
  savePortfolioFails env s ps = true ->
  Sqlite.savePortfolio env s ps w
  = (setDb (if snapshotRejected env s then db w
            else snd (insertSnapshot s (acceptedPositions env ps) (db w))) w,
     Throw (StorageError "savePortfolio")).
Proof.
  unfold savePortfolioFails, Sqlite.savePortfolio. intros H.
  destruct (snapshotRejected env s); [destruct w as [[sn ev] l i c t]; reflexivity|].
  cbn [orb] in H. rewrite H. reflexivity.
Qed.

(** What the SQLite storage accepts, the Prisma storage accepts. *)
Lemma Prisma_save_accepted (s : Snap.t) (ps : list Position.t) (w : World) :
  savePortfolioFails env s ps = false ->
  Prisma.savePortfolio env s ps w
  = (setDb (snd (insertSnapshot s ps (db w))) w, Ok (fst (insertSnapshot s ps (db w)))).
Proof.
  unfold savePortfolioFails, snapshotRejected, Prisma.savePortfolio. intros H.
  apply orb_false_iff in H as [H1 H2]. apply orb_false_iff in H1 as [H1 _].
  rewrite H1. cbn [orb].
  replace (existsb (positionInsertFails env) ps) with false; [reflexivity|].
  symmetry. clear H1. induction ps as [|p ps IH]; [reflexivity|].
  cbn [existsb] in *. apply orb_false_iff in H2 as [Hp H2].
  unfold positionRejected in Hp. apply orb_false_iff in Hp as [-> _].
  exact (IH H2).
Qed.

Lemma Express_reconcile_write_fails (parsed : ParsedPortfolio) (w : World) :
  savePortfolioFails env (snapshot parsed) (positions parsed) = true ->
  Express.reconcile env parsed w
  = (setDb (if snapshotRejected env (snapshot parsed) then db w
            else snd (insertSnapshot (snapshot parsed)
                        (acceptedPositions env (positions parsed)) (db w))) w,
     Throw (StorageError "savePortfolio")).
Proof.
  intros H. unfold Express.reconcile, bindM.
  rewrite (savePortfolio_rejected _ _ _ H). reflexivity.
Qed.

Lemma Express_reconcile_unfold (parsed : ParsedPortfolio) (w : World) :
  savePortfolioFails env (snapshot parsed) (positions parsed) = false ->
  Express.reconcile env parsed w
  = (let (w', r) :=
       Express.detectCopyTradingChanges env
         (fst (insertSnapshot (snapshot parsed) (positions parsed) (db w)))
         (positions parsed) (afterSave parsed w) in
     match r with
     | Ok _ => (w', Ok (fst (insertSnapshot (snapshot parsed) (positions parsed) (db w))))
     | Throw e => (w', Throw e)
     end).
Proof.
  intros H. unfold Express.reconcile, bindM, afterSave.
  rewrite (savePortfolio_accepted _ _ _ H).
  destruct (Express.detectCopyTradingChanges _ _ _ _) as [w' [u|e]]; reflexivity.
Qed.

End ExpressFailures.

(** C7, as stated, fails: "alice" and "bob" are known, the new snapshot is
    copied from "carol" and "dave", and the save of the event about
    "carol" is rejected.  The events about "dave", "alice" and "bob" are
    then not saved either. *)
Lemma C7_counterexample_other_events_are_lost :
  ~ otherEventsStillEmitted carolFails (parsedWith 2000 [carol; dave]) knownWorld.
Proof.
  intros H.
  specialize (H (addedEvent (ISO 2000) dave)).
  assert (E : events (db (fst (Express.reconcile carolFails
                                 (parsedWith 2000 [carol; dave]) knownWorld))) = [])
    by (vm_compute; reflexivity).
  rewrite E in H. apply H.
  - vm_compute. right. left. reflexivity.
  - reflexivity.
Qed.

(** A pass of the Express server after an accepted save: it always
    resolves with the new id and the snapshot stays in the table, whatever
    is rejected afterwards.  When traders are known and the table can be
    read, the events of the change are saved in order up to the first
    rejected save, which is caught and logged by the one [try] block of
    the detection: the events after it are not saved, and
    [lastKnownTraders] is replaced only if no save was rejected. *)
Lemma Express_pass_with_faults (env : Env) (parsed : ParsedPortfolio) (w : World) :
  let newId := N.of_nat (S (List.length (snapshots (db w)))) in
  let newRow := {| row_snapshot := Snap.set_id (Some newId) (snapshot parsed);
                   row_positions := positions parsed |} in
  let current := Express.currentTradersOf (positions parsed) in
  savePortfolioFails env (snapshot parsed) (positions parsed) = false ->
  exists w',
    Express.reconcile env parsed w = (w', Ok newId)
    /\ snapshots (db w') = snapshots (db w) ++ [newRow]
    /\ (readFails env = false -> lastKnownTraders w <> [] ->
        exists r,
          latestRow (snapshots (db w')) None = Some r
          /\ let intended :=
               changeEvents (Snap.timestamp (row_snapshot r))
                            (lastKnownTraders w) current in
             events (db w') = events (db w) ++ takeWhile (eventSaved env) intended
             /\ lastKnownTraders w'
                = (if forallb (eventSaved env) intended
                   then current else lastKnownTraders w)
             /\ console w'
                = console w
                  ++ map detectedLine (takeWhile (eventSaved env) intended)
                  ++ (if forallb (eventSaved env) intended then []
                      else [LogError "Error detecting copy trading changes:"
                                     (StorageError "saveCopyTradingEvent")])).
Proof.
  intros newId newRow current Hs.
  rewrite (Express_reconcile_unfold env parsed w Hs).
  destruct (Express_detect_total env newId (positions parsed) (afterSave parsed w))
    as (w' & E & S1).
  change (fst (insertSnapshot (snapshot parsed) (positions parsed) (db w))) with newId.
  pose proof (Express_detect_console env newId (positions parsed) (afterSave parsed w))
    as C.
  rewrite E in C |- *. exists w'. split; [reflexivity|]. split; [exact S1|].
  intros Hr Hne.
  destruct (latestRow_nonempty (snapshots (db w)) newRow) as (r & Hl).
  exists r. split; [rewrite S1; exact Hl|].
  destruct (Express_detect_spec env newId (positions parsed) (afterSave parsed w))
    with (r := r) as (w2 & E2 & _ & V2 & L2); try assumption.
  rewrite E in E2. inversion E2; subst w2.
  split; [exact V2|]. split; [exact L2|].
  exact (C r Hne Hr Hl).
Qed.

(** A rejected read is not passed on by the SQLite storage: the detection
    sees "no snapshot", saves no event and still replaces the known
    traders. *)
Lemma Express_read_failure_is_swallowed :
  let env := {| snapshotInsertFails := fun _ => false;
                positionInsertFails := fun _ => false;
                saveEventFails := fun _ => false;
                readFails := true;
                nearAtTolerance := fun _ _ => false;
                wallClock := tickingClock 5000 |} in
  let (w', r) := Express.reconcile env (parsedWith 2000 [bob; carol]) knownWorld in
  r = Ok 2 /\ newEvents knownWorld w' = [] /\ lastKnownTraders w' = [bob; carol]
  /\ console w' = [LogError "Error getting latest snapshot:"
                         (StorageError "getLatestSnapshot")].
Proof. vm_compute. repeat split. Qed.

(** ** A pass of the Express server when nothing is rejected *)

Lemma latestRow_In (rows : list Row) :
  forall best r,
    latestRow rows best = Some r -> In r rows \/ best = Some r.
Proof.
  induction rows as [|x rows IH]; intros best r H; simpl in H; [now right|].
  apply IH in H as [H|H]; [left; now right|].
  destruct best as [b|].
  - destruct (isoMs (Snap.timestamp (row_snapshot b))
              <=? isoMs (Snap.timestamp (row_snapshot x)))%Z.
    + inversion H; subst. left; now left.
    + now right.
  - inversion H; subst. left; now left.
Qed.

Lemma latestRow_last (rows : list Row) (x : Row) :
  (forall r, In r rows ->
             (isoMs (Snap.timestamp (row_snapshot r))
              <= isoMs (Snap.timestamp (row_snapshot x)))%Z) ->
  latestRow (rows ++ [x]) None = Some x.
Proof.
  intros H. rewrite latestRow_app. simpl.
  destruct (latestRow rows None) as [b|] eqn:E; [|reflexivity].
  apply latestRow_In in E as [E|E]; [|discriminate].
  apply H in E. apply Z.leb_le in E. now rewrite E.
Qed.

Lemma skipn_app_exact {T : Type} (a b : list T) : skipn (List.length a) (a ++ b) = b.
Proof. induction a as [|x a IH]; simpl; [reflexivity|exact IH]. Qed.

(** When traders are known, no call is rejected and no stored snapshot is
    later than the new one, a pass saves exactly the events of the change,
    stamped with the new snapshot's timestamp, and replaces the known
    traders. *)
Lemma Express_reconcile_events (env : Env) (parsed : ParsedPortfolio) (w : World) :
  savePortfolioFails env (snapshot parsed) (positions parsed) = false ->
  readFails env = false ->
  (forall e, saveEventFails env e = false) ->
  lastKnownTraders w <> [] ->
  (forall r, In r (snapshots (db w)) ->
             (isoMs (Snap.timestamp (row_snapshot r))
              <= isoMs (Snap.timestamp (snapshot parsed)))%Z) ->
  exists w',
    Express.reconcile env parsed w
    = (w', Ok (N.of_nat (S (List.length (snapshots (db w))))))
    /\ newEvents w w'
       = changeEvents (Snap.timestamp (snapshot parsed)) (lastKnownTraders w)
                      (Express.currentTradersOf (positions parsed))
    /\ lastKnownTraders w' = Express.currentTradersOf (positions parsed).
Proof.
  intros Hs Hr He Hne Hts.
  rewrite (Express_reconcile_unfold env parsed w Hs).
  set (newId := N.of_nat (S (List.length (snapshots (db w))))).
  set (newRow := {| row_snapshot := Snap.set_id (Some newId) (snapshot parsed);
                    row_positions := positions parsed |}).
  assert (Hl : latestRow (snapshots (db (afterSave parsed w))) None = Some newRow).
  { apply (latestRow_last (snapshots (db w)) newRow). exact Hts. }
  destruct (Express_detect_spec env newId (positions parsed) (afterSave parsed w) newRow)
    as (w' & E & _ & V & L); try assumption.
  change (fst (insertSnapshot (snapshot parsed) (positions parsed) (db w))) with newId.
  rewrite E. exists w'. split; [reflexivity|].
  assert (All : forall l, forallb (eventSaved env) l = true).
  { intros l. apply forallb_forall. intros e _. unfold eventSaved. now rewrite He. }
  rewrite All in L. rewrite (takeWhile_all _ _ (All _)) in V.
  split; [|exact L].
  unfold newEvents. rewrite V. simpl (events (db (afterSave parsed w))).
  rewrite skipn_app_exact. reflexivity.
Qed.

Example Express_reconcile_events_example :
  exists w',
    Express.reconcile (quietEnv (tickingClock 5000)) (parsedWith 2000 [bob; carol])
      knownWorld = (w', Ok 2)
    /\ newEvents knownWorld w'
       = [addedEvent (ISO 2000) carol; removedEvent (ISO 2000) alice]
    /\ lastKnownTraders w' = [bob; carol].
Proof.
  destruct (Express_reconcile_events (quietEnv (tickingClock 5000))
              (parsedWith 2000 [bob; carol]) knownWorld)
    as (w' & E & V & L); try reflexivity.
  - discriminate.
  - intros r [<-|[]]. vm_compute. discriminate.
  - exists w'. split; [exact E|]. split; [exact V|exact L].
Qed.

(** ** Duplicate suppression during backfill *)

(** C5, as stated, fails: on an empty table no snapshot is near, and the
    candidate is still not persisted but counted as skipped, because the
    parse found no balance, no position and no reported count. *)
Lemma C5_counterexample_empty_parse_is_skipped :
  ~ skippedIffNear (quietEnv (tickingClock 5000)) emptyAccountMessage freshWorld.
Proof.
  intros H. specialize (H 600000%Z eq_refl). vm_compute in H. discriminate.
Qed.

Lemma existsb_mapped {A B : Type} (f : A -> B) (p : B -> bool) (l : list A) :
  existsb p (map f l) = existsb (fun x => p (f x)) l.
Proof. induction l as [|x l IH]; simpl; [reflexivity|]. now rewrite IH. Qed.

Section Backfill.
Variable env : Env.

(** The comparison of the database answers "near" for a snapshot less
    than five minutes away, and "not near" for one more than five minutes
    away. *)
Lemma nearStored_of_nearOne (w : World) (ms : Z) :
  nearOne (timesOf (db w)) ms = true -> nearStored env w (ISO ms) = true.
Proof.
  unfold nearOne, timesOf, nearStored. rewrite existsb_mapped.
  intros H. apply existsb_exists in H as (r & Hin & Hr).
  apply existsb_exists. exists r. split; [exact Hin|].
  unfold withinTolerance. cbn [isoMs]. now rewrite Hr.
Qed.

Lemma nearStored_within (w : World) (ms : Z) :
  nearStored env w (ISO ms) = true -> withinWindow (timesOf (db w)) ms = true.
Proof.
  unfold withinWindow, timesOf, nearStored. rewrite existsb_mapped.
  intros H. apply existsb_exists in H as (r & Hin & Hr).
  apply existsb_exists. exists r. split; [exact Hin|].
  unfold withinTolerance in Hr. cbn [isoMs] in Hr.
  apply Z.leb_le. apply orb_true_iff in Hr as [Hr|Hr].
  - apply Z.ltb_lt in Hr. lia.
  - apply andb_true_iff in Hr as [Hr _]. apply Z.eqb_eq in Hr. lia.
Qed.

Lemma nearStored_outside (w : World) (ms : Z) :
  withinWindow (timesOf (db w)) ms = false -> nearStored env w (ISO ms) = false.
Proof.
  intros H. destruct (nearStored env w (ISO ms)) eqn:E; [|reflexivity].
  apply nearStored_within in E. congruence.
Qed.

Lemma processMessage_near (msg : Express.Message) (c : Express.Counters)
      (w : World) (ms : Z) :
  readFails env = false ->
  Express.date msg = ValidDate ms ->
  nearStored env w (ISO ms) = true ->
  Express.processMessage env msg c w = (w, Ok (skipOne c)).
Proof.
  intros Hr Hd Hn.
  unfold Express.processMessage, tryCatch at 1, bindM at 1, liftResult at 1.
  rewrite Hd. simpl toISOString. cbv iota beta.
  unfold bindM at 1, Sqlite.snapshotExistsNearTimestamp, tryCatch at 1.
  rewrite Hr. unfold nearStored in Hn. rewrite Hn. reflexivity.
Qed.

Lemma processMessage_far (msg : Express.Message) (c : Express.Counters)
      (w : World) (ms : Z) (parsed : ParsedPortfolio) :
  readFails env = false ->
  Express.date msg = ValidDate ms ->
  nearStored env w (ISO ms) = false ->
  parsePortfolioResponse 0 (Express.message msg) (Some (Express.date msg)) = Ok parsed ->
  savePortfolioFails env (snapshot parsed) (positions parsed) = false ->
  exists w',
    Express.processMessage env msg c w
    = (w', Ok (if hasData parsed then saveOne c else skipOne c))
    /\ db w' = (if hasData parsed
                then snd (insertSnapshot (snapshot parsed) (positions parsed) (db w))
                else db w).
Proof.
  intros Hr Hd Hn Hp Hs.
  unfold Express.processMessage, tryCatch at 1, bindM at 1, liftResult at 1.
  rewrite Hd. simpl toISOString. cbv iota beta.
  unfold bindM at 1, Sqlite.snapshotExistsNearTimestamp, tryCatch at 1.
  rewrite Hr. unfold nearStored in Hn. rewrite Hn.
  cbv iota beta.
  unfold bindM at 1, liftResult at 1. rewrite <- Hd, Hp.
  cbv iota beta. fold (hasData parsed).
  destruct (hasData parsed).
  - unfold bindM at 1. rewrite (savePortfolio_accepted env _ _ _ Hs).
    destruct (Nat.modulo (S (Express.saved c)) 10 =? 0)%nat;
      eexists; split; reflexivity.
  - eexists; split; reflexivity.
Qed.

End Backfill.

(** C5, amended.  For one candidate of the backfill whose date is valid,
    with a readable table.  If some stored snapshot is less than five
    minutes away, the candidate is discarded, nothing is written and it is
    counted as skipped.  If every stored snapshot is more than five
    minutes away, and the parse returns and the write is not rejected, the
    candidate is persisted and counted as saved when the parse found data
    (a positive total balance, a position or a reported count), and is
    discarded and counted as skipped when it found none.  (With a stored
    snapshot exactly five minutes away and none nearer, the rounding of
    the database's comparison decides between the two.) *)
Theorem C5_backfill_skips_near_and_empty :
  forall (env : Env) (msg : Express.Message) (c : Express.Counters) (w : World) (ms : Z),
    readFails env = false ->
    Express.date msg = ValidDate ms ->
    (nearOne (timesOf (db w)) ms = true ->
     Express.processMessage env msg c w = (w, Ok (skipOne c)))
    /\ (withinWindow (timesOf (db w)) ms = false ->
        forall parsed,
          parsePortfolioResponse 0 (Express.message msg) (Some (Express.date msg))
          = Ok parsed ->
          savePortfolioFails env (snapshot parsed) (positions parsed) = false ->
          exists w',
            Express.processMessage env msg c w
            = (w', Ok (if hasData parsed then saveOne c else skipOne c))
            /\ db w' = (if hasData parsed
                        then snd (insertSnapshot (snapshot parsed) (positions parsed) (db w))
                        else db w)).
Proof.
  intros env msg c w ms Hr Hd. split.
  - intros Hn. apply processMessage_near with (ms := ms); try assumption.
    apply nearStored_of_nearOne. exact Hn.
  - intros Hn parsed Hp Hs. apply processMessage_far with (ms := ms); try assumption.
    apply nearStored_outside. exact Hn.
Qed.

Lemma C5_backfill_skips_near_and_empty_witness :
  readFails (quietEnv (tickingClock 5000)) = false
  /\ timesOf (db oneSnapshotWorld) = [0%Z]
  /\ Express.processMessage (quietEnv (tickingClock 5000)) (candidateAt 180000)
       noCounts oneSnapshotWorld
     = (oneSnapshotWorld, Ok (skipOne noCounts))
  /\ exists w',
       Express.processMessage (quietEnv (tickingClock 5000)) (candidateAt 600000)
         noCounts oneSnapshotWorld
       = (w', Ok (saveOne noCounts))
       /\ List.length (snapshots (db w')) = 2%nat.
Proof.
  split; [reflexivity|]. split; [reflexivity|]. split.
  - apply (C5_backfill_skips_near_and_empty (quietEnv (tickingClock 5000))
             (candidateAt 180000) noCounts oneSnapshotWorld 180000);
      reflexivity.
  - destruct (C5_backfill_skips_near_and_empty (quietEnv (tickingClock 5000))
                (candidateAt 600000) noCounts oneSnapshotWorld 600000
                eq_refl eq_refl) as [_ H].
    destruct (H eq_refl
                {| snapshot := Snap.set_total_balance (Number.dec 9020 2)
                                 (emptySnapshot (ISO 600000));
                   positions := [] |} eq_refl eq_refl) as (w' & E & D).
    exists w'. split; [exact E|]. rewrite D. reflexivity.
Defined.

(* ================================================================== *)
(** * Number extraction *)
(* ================================================================== *)

(** ** How the matcher runs on the amount pattern *)

Section Greedy.
Variable A : Type.
Variable ci : bool.

(** A repeated class runs to the end of the code units of the class when
    the continuation accepts there. *)
Lemma starLoop_greedy (p : JS.char -> bool) (k : cont A) (x : A) (rest : str) :
  match rest with [] => True | c :: _ => p c = false end ->
  forall (run : str) (fuel pos : nat) (cs : caps),
    forallb p run = true ->
    (List.length run <= fuel)%nat ->
    k (pos + List.length run)%nat rest cs = Some x ->
    starLoop (m ci (Cls p)) k fuel pos (run ++ rest) cs = Some x.
Proof.
  intros Hrest. induction run as [|c run IH]; intros fuel pos cs Hp Hf Hk.
  - simpl in *. rewrite Nat.add_0_r in Hk.
    destruct fuel as [|fuel]; simpl; [exact Hk|].
    destruct rest as [|c rest]; [exact Hk|]. rewrite Hrest. exact Hk.
  - simpl in Hp. apply andb_true_iff in Hp as [Hc Hp].
    destruct fuel as [|fuel]; [simpl in Hf; lia|].
    simpl. rewrite Hc.
    assert (L : (List.length (run ++ rest) <? S (List.length (run ++ rest)))%nat = true)
      by (apply Nat.ltb_lt; lia).
    rewrite L. rewrite IH; [reflexivity|exact Hp|simpl in Hf; lia|].
    simpl in Hk. rewrite <- Nat.add_succ_comm in Hk. exact Hk.
Qed.

(** The equations of the matcher. *)
Lemma m_Eps pos s cs (k : cont A) : m ci Eps pos s cs k = k pos s cs.
Proof. reflexivity. Qed.

Lemma m_Seq a b pos s cs (k : cont A) :
  m ci (Seq a b) pos s cs k = m ci a pos s cs (fun pos' s' cs' => m ci b pos' s' cs' k).
Proof. reflexivity. Qed.

Lemma m_Alt a b pos s cs (k : cont A) :
  m ci (Alt a b) pos s cs k
  = match m ci a pos s cs k with Some x => Some x | None => m ci b pos s cs k end.
Proof. reflexivity. Qed.

Lemma m_Star a pos s cs (k : cont A) :
  m ci (Star a) pos s cs k = starLoop (m ci a) k (List.length s) pos s cs.
Proof. reflexivity. Qed.

Lemma m_Cls p pos s cs (k : cont A) :
  m ci (Cls p) pos s cs k
  = match s with d :: s' => if p d then k (S pos) s' cs else None | [] => None end.
Proof. reflexivity. Qed.

Lemma m_Chr c pos s cs (k : cont A) :
  m ci (Chr c) pos s cs k
  = match s with
    | d :: s' => if chrMatches ci c d then k (S pos) s' cs else None
    | [] => None
    end.
Proof. reflexivity. Qed.

Lemma m_Grp n a pos s cs (k : cont A) :
  m ci (Grp n a) pos s cs k
  = m ci a pos s cs
      (fun pos' s' cs' =>
         k pos' s' ((n, firstn (List.length s - List.length s')%nat s) :: cs')).
Proof. reflexivity. Qed.

End Greedy.

Lemma isDigitOrComma_not_sign (c : JS.char) :
  isDigitOrComma c = true -> isSign c = false.
Proof.
  unfold isDigitOrComma, isSign, oneOf, JS.isDigit. simpl.
  intros H. apply orb_true_iff in H as [H|H].
  - apply andb_true_iff in H as [H1 H2].
    apply N.leb_le in H1. apply N.leb_le in H2.
    destruct (N.eqb_spec c 43); [lia|]. destruct (N.eqb_spec c 45); [lia|].
    reflexivity.
  - apply N.eqb_eq in H. subst. reflexivity.
Qed.

Lemma firstn_length_all {T : Type} (l : list T) :
  firstn (List.length l - 0) l = l.
Proof. rewrite Nat.sub_0_r. apply firstn_all. Qed.

(** The amount pattern, started on an amount that ends the line, takes all
    of it. *)
Lemma amount_matches (ip : str) (fp : option str) (pos : nat) (cs : caps)
      (A : Type) (k : cont A) (x : A) :
  isAmount ip fp = true ->
  (forall pos', k pos' [] cs = Some x) ->
  m false Patterns.amount pos (amountText ip fp) cs k = Some x.
Proof.
  unfold isAmount. destruct ip as [|d ip]; [discriminate|].
  intros H Hk. apply andb_true_iff in H as [H Hf].
  apply andb_true_iff in H as [Hd Hip].
  unfold Patterns.amount, amountText, Plus, digitOrComma, Opt, digit.
  change (fun c => JS.isDigit c || (c =? 44)) with isDigitOrComma.
  cbn [Patterns.seq app].
  assert (Hd' : isDigitOrComma d = true) by (unfold isDigitOrComma; now rewrite Hd).
  rewrite !m_Seq, m_Cls, Hd', m_Star.
  apply (starLoop_greedy A false); try assumption.
  - destruct fp; [reflexivity|exact I].
  - rewrite length_app. lia.
  - rewrite m_Seq, m_Alt, m_Chr. destruct fp as [f|].
    + unfold chrMatches. rewrite N.eqb_refl, m_Star.
      rewrite <- (app_nil_r f) at 2.
      rewrite (starLoop_greedy A false JS.isDigit k x [] I f); try reflexivity.
      * exact Hf.
      * apply Hk.
    + rewrite m_Eps, m_Star. cbn [List.length starLoop]. apply Hk.
Qed.

(** A code unit that is neither a sign nor a digit nor a comma cannot start
    a number; the search moves on. *)
Lemma signedAmount_skip (c : JS.char) (s : str) (pos : nat) :
  isSign c = false -> isDigitOrComma c = false ->
  searchFrom false Patterns.signedAmount pos (c :: s)
  = searchFrom false Patterns.signedAmount (S pos) s.
Proof.
  intros Hs Hd. cbn [searchFrom]. unfold matchAt, Patterns.signedAmount.
  cbn [m Opt sign Patterns.amount Patterns.seq Plus digitOrComma].
  change (oneOf [43; 45] c) with (isSign c).
  change (JS.isDigit c || (c =? 44)) with (isDigitOrComma c).
  rewrite Hs, Hd. reflexivity.
Qed.

Lemma signedAmount_skip_all (prefix s : str) (pos : nat) :
  forallb (fun c => negb (isSign c) && negb (isDigitOrComma c)) prefix = true ->
  searchFrom false Patterns.signedAmount pos (prefix ++ s)
  = searchFrom false Patterns.signedAmount (pos + List.length prefix)%nat s.
Proof.
  revert pos. induction prefix as [|c prefix IH]; intros pos H; simpl in *.
  - rewrite Nat.add_0_r. reflexivity.
  - apply andb_true_iff in H as [Hc H]. apply andb_true_iff in Hc as [Hs Hd].
    apply negb_true_iff in Hs. apply negb_true_iff in Hd.
    change (match matchAt false Patterns.signedAmount pos (c :: prefix ++ s) with
            | Some x => Some x
            | None => searchFrom false Patterns.signedAmount (S pos) (prefix ++ s)
            end)
      with (searchFrom false Patterns.signedAmount pos (c :: prefix ++ s)).
    rewrite signedAmount_skip by assumption.
    rewrite IH by assumption. f_equal. lia.
Qed.

Lemma searchFrom_eq (ci : bool) (r : re) (pos : nat) (s : str) :
  searchFrom ci r pos s
  = match matchAt ci r pos s with
    | Some x => Some x
    | None => match s with [] => None | _ :: s' => searchFrom ci r (S pos) s' end
    end.
Proof. destruct s; reflexivity. Qed.

Lemma sign_fails_on_amount (ip : str) (fp : option str) (A : Type) (k : cont A)
      (pos : nat) (cs : caps) :
  isAmount ip fp = true ->
  m false sign pos (amountText ip fp) cs k = None.
Proof.
  unfold isAmount, amountText. destruct ip as [|d ip]; [discriminate|].
  intros H. apply andb_true_iff in H as [H _]. apply andb_true_iff in H as [H _].
  unfold sign. rewrite m_Cls. cbn [app].
  change (oneOf [43; 45] d) with (isSign d).
  rewrite isDigitOrComma_not_sign; [reflexivity|].
  unfold isDigitOrComma. now rewrite H.
Qed.

(** The number pattern, started on an amount that ends the line, with or
    without a sign before it, takes the sign and the amount. *)
Lemma signedAmount_matches (sg ip : str) (fp : option str) (pos : nat) :
  isAmount ip fp = true ->
  (sg = [] \/ sg = `"-" \/ sg = `"+") ->
  matchAt false Patterns.signedAmount pos (sg ++ amountText ip fp)
  = Some {| index := pos; whole := sg ++ amountText ip fp;
            groups := [(1%nat, sg ++ amountText ip fp)]; after := [] |}.
Proof.
  intros Ha Hsg. unfold matchAt, Patterns.signedAmount, Opt.
  rewrite m_Grp, m_Seq, m_Alt.
  destruct Hsg as [->|[->| ->]].
  - cbn [app]. rewrite (sign_fails_on_amount _ _ _ _ _ _ Ha), m_Eps.
    erewrite amount_matches; [reflexivity|exact Ha|].
    intros. rewrite !firstn_length_all. reflexivity.
  - unfold sign at 1. rewrite m_Cls. cbn [app JS.lit map list_ascii_of_string].
    simpl (oneOf [43; 45] _). cbv iota.
    erewrite amount_matches; [reflexivity|exact Ha|].
    intros. rewrite !firstn_length_all. reflexivity.
  - unfold sign at 1. rewrite m_Cls. cbn [app JS.lit map list_ascii_of_string].
    simpl (oneOf [43; 45] _). cbv iota.
    erewrite amount_matches; [reflexivity|exact Ha|].
    intros. rewrite !firstn_length_all. reflexivity.
Qed.

(** [extractNumber] on a line that ends with an amount, signed or not,
    after a prefix without signs, digits and commas: the amount's value with
    its sign, or nothing when that value is zero. *)
Lemma extractNumber_amount (prefix sg ip : str) (fp : option str) :
  plainPrefix prefix = true ->
  isAmount ip fp = true ->
  (sg = [] \/ sg = `"-" \/ sg = `"+") ->
  extractNumber (prefix ++ sg ++ amountText ip fp)
  = Ok (let v := Number.parseFloat (removeCommas (sg ++ amountText ip fp)) in
        if Number.truthy v then Some v else None).
Proof.
  intros Hp Ha Hsg. unfold extractNumber, exec.
  rewrite signedAmount_skip_all by exact Hp.
  rewrite searchFrom_eq, (signedAmount_matches _ _ _ _ Ha Hsg).
  reflexivity.
Qed.

(** ** The value of an amount *)

Lemma Qred_idem (q : Q) : Qred (Qred q) = Qred q.
Proof. apply Qred_complete, Qred_correct. Qed.

Lemma dec_neg (z : Z) (k : nat) : Number.dec (- z) k = Number.neg (Number.dec z k).
Proof.
  unfold Number.dec, Number.neg. f_equal.
  rewrite Qred_opp, Qred_idem.
  change (- z # Number.pow10 k)%Q with (- (z # Number.pow10 k))%Q.
  apply Qred_opp.
Qed.

Lemma dec_geZero (z : Z) (k : nat) : (0 <= z)%Z -> Number.geZero (Number.dec z k) = true.
Proof.
  intros H. unfold Number.dec, Number.geZero. apply Qle_bool_iff.
  rewrite Qred_correct. unfold Qle. simpl. lia.
Qed.

Lemma dec_falsy (z : Z) (k : nat) :
  Number.truthy (Number.dec z k) = false -> Number.dec z k = Number.zero.
Proof.
  unfold Number.dec, Number.truthy, Number.zero. intros H.
  apply negb_false_iff, Qeq_bool_iff in H. f_equal.
  rewrite <- (Qred_idem (z # Number.pow10 k)).
  apply (Qred_complete _ 0%Q). exact H.
Qed.

Lemma decimal_neg (z : Z) (k : nat) :
  Number.decimal (- z) k = Number.neg (Number.decimal z k).
Proof.
  unfold Number.decimal. rewrite Z.abs_opp.
  destruct (Z.abs z * Number.underflow <=? Z.pos (Number.pow10 k))%Z;
    [reflexivity|apply dec_neg].
Qed.

Lemma decimal_geZero (z : Z) (k : nat) :
  (0 <= z)%Z -> Number.geZero (Number.decimal z k) = true.
Proof.
  intros H. unfold Number.decimal.
  destruct (Z.abs z * Number.underflow <=? Z.pos (Number.pow10 k))%Z;
    [reflexivity|now apply dec_geZero].
Qed.

Lemma decimal_falsy (z : Z) (k : nat) :
  Number.truthy (Number.decimal z k) = false -> Number.decimal z k = Number.zero.
Proof.
  unfold Number.decimal.
  destruct (Z.abs z * Number.underflow <=? Z.pos (Number.pow10 k))%Z;
    [reflexivity|apply dec_falsy].
Qed.

Lemma span_digits (run rest : str) :
  forallb JS.isDigit run = true ->
  match rest with [] => True | c :: _ => JS.isDigit c = false end ->
  Number.span JS.isDigit (run ++ rest) = (run, rest).
Proof.
  intros Hr Hrest. induction run as [|c run IH]; simpl in *.
  - destruct rest as [|c rest]; [reflexivity|]. simpl. now rewrite Hrest.
  - apply andb_true_iff in Hr as [Hc Hr]. rewrite Hc, (IH Hr). reflexivity.
Qed.

Lemma removeCommas_digits (f : str) :
  forallb JS.isDigit f = true -> removeCommas f = f.
Proof.
  induction f as [|c f IH]; simpl; [reflexivity|]. intros H.
  apply andb_true_iff in H as [Hc H]. rewrite (IH H).
  replace (c =? 44) with false; [reflexivity|].
  symmetry. apply N.eqb_neq. intros ->. discriminate.
Qed.

Lemma removeCommas_keeps_digits (ip : str) :
  forallb isDigitOrComma ip = true -> forallb JS.isDigit (removeCommas ip) = true.
Proof.
  induction ip as [|c ip IH]; simpl; [reflexivity|]. intros H.
  apply andb_true_iff in H as [Hc H]. specialize (IH H).
  change (ch ",") with 44. destruct (N.eqb_spec c 44) as [->|Hn]; simpl; [exact IH|].
  rewrite IH, andb_true_r. unfold isDigitOrComma in Hc.
  apply orb_true_iff in Hc as [Hc|Hc]; [exact Hc|].
  apply N.eqb_eq in Hc. contradiction.
Qed.

(** The text of an amount without its separators: digits, the first of
    them given, then the fraction. *)
Lemma removeCommas_amount (ip : str) (fp : option str) :
  isAmount ip fp = true ->
  exists d ds,
    removeCommas ip = d :: ds
    /\ JS.isDigit d = true /\ forallb JS.isDigit ds = true
    /\ forallb JS.isDigit (fractionDigits fp) = true
    /\ removeCommas (amountText ip fp)
       = (d :: ds) ++ match fp with Some f => ch "." :: f | None => [] end.
Proof.
  unfold isAmount, amountText. destruct ip as [|d ip]; [discriminate|].
  intros H. apply andb_true_iff in H as [H Hf].
  apply andb_true_iff in H as [Hd Hip].
  assert (Hc : (d =? ch ",") = false).
  { apply N.eqb_neq. intros ->. discriminate. }
  exists d, (removeCommas ip). unfold removeCommas.
  rewrite filter_app. cbn [filter]. rewrite Hc. cbn [negb].
  split; [reflexivity|]. split; [exact Hd|].
  split; [apply removeCommas_keeps_digits; exact Hip|].
  destruct fp as [f|]; cbn [fractionDigits].
  - split; [exact Hf|]. cbn [filter]. simpl (negb _). cbv iota.
    change (filter (fun c : N => negb (c =? 44)) f) with (removeCommas f).
    rewrite (removeCommas_digits _ Hf). reflexivity.
  - split; reflexivity.
Qed.

Lemma digit_facts (d : JS.char) :
  JS.isDigit d = true ->
  JS.isWhiteSpace d = false /\ (d =? 43) = false /\ (d =? 45) = false
  /\ (d =? 46) = false.
Proof.
  unfold JS.isDigit. intros H. apply andb_true_iff in H as [H1 H2].
  apply N.leb_le in H1. apply N.leb_le in H2.
  assert (W : JS.isWhiteSpace d = false).
  { unfold JS.isWhiteSpace. apply orb_false_iff. split.
    - simpl. repeat (match goal with
                     | |- context [d =? ?n] => destruct (N.eqb_spec d n); [lia|]
                     end). reflexivity.
    - apply andb_false_iff. left. apply N.leb_gt. lia. }
  repeat split; try exact W; apply N.eqb_neq; lia.
Qed.

(** [parseFloat] on an amount without separators, as it is and with a
    minus sign before it. *)
Lemma parseFloat_amount (ip : str) (fp : option str) :
  isAmount ip fp = true ->
  Number.parseFloat (removeCommas (amountText ip fp)) = amountValue ip fp
  /\ Number.parseFloat (removeCommas (`"-" ++ amountText ip fp))
     = Number.neg (amountValue ip fp).
Proof.
  intros Ha.
  destruct (removeCommas_amount ip fp Ha) as (d & ds & E & Hd & Hds & Hf & ER).
  destruct (digit_facts d Hd) as (W & N43 & N45 & N46).
  assert (Hspan : Number.span JS.isDigit
                    ((d :: ds) ++ match fp with Some f => ch "." :: f | None => [] end)
                  = (d :: ds, match fp with Some f => ch "." :: f | None => [] end)).
  { apply span_digits; [simpl; now rewrite Hd|]. destruct fp; [reflexivity|exact I]. }
  assert (Hfrac : match match fp with Some f => ch "." :: f | None => [] end with
                  | c :: t => if c =? 46 then fst (Number.span JS.isDigit t) else []
                  | [] => []
                  end = fractionDigits fp).
  { destruct fp as [f|]; [|reflexivity]. simpl (ch "." =? 46). cbv iota.
    cbn [fractionDigits] in *. rewrite <- (app_nil_r f) at 1.
    rewrite (span_digits f [] Hf I). reflexivity. }
  unfold amountValue. rewrite E. split.
  - rewrite ER. unfold Number.parseFloat.
    cbn [app JS.trimStart]. rewrite W. rewrite N43, N45.
    change (d :: ds ++ match fp with Some f => ch "." :: f | None => [] end)
      with ((d :: ds) ++ match fp with Some f => ch "." :: f | None => [] end).
    rewrite Hspan, Hfrac. reflexivity.
  - change (removeCommas (`"-" ++ amountText ip fp))
      with (45 :: removeCommas (amountText ip fp)).
    rewrite ER. unfold Number.parseFloat.
    cbn [JS.trimStart]. change (JS.isWhiteSpace 45) with false. cbv iota.
    change (45 =? 43) with false. change (45 =? 45) with true. cbv iota.
    rewrite Hspan, Hfrac. cbn [app]. apply decimal_neg.
Qed.

Lemma amountValue_geZero (ip : str) (fp : option str) :
  Number.geZero (amountValue ip fp) = true.
Proof. apply decimal_geZero. apply N2Z.is_nonneg. Qed.

(** ** The summary fields *)

Lemma ltZero_not_geZero (v : number) :
  Number.ltZero v = true -> Number.geZero v = false.
Proof.
  destruct v as [|q]; simpl; [discriminate|]. intros H.
  now apply negb_true_iff in H.
Qed.

Ltac summary_cases :=
  unfold summaryLine;
  repeat match goal with
         | |- context [bind (extractNumber ?l) _] =>
             destruct (extractNumber l) as [[?v|]|?e] eqn:?; cbn [bind]
         | |- context [bind (getGroup ?n ?r) _] =>
             destruct (getGroup n r) as [?g|?e] eqn:?; cbn [bind]
         | |- context [match exec ?ci ?r ?l with _ => _ end] =>
             destruct (exec ci r l) as [?mr|] eqn:?
         | |- context [if ?b then _ else _] => destruct b eqn:?
         end.

(** A line whose extracted number is negative changes none of the four
    guarded amounts. *)
Lemma summaryLine_negative (line : str) (snap snap' : Snap.t) (v : number) :
  extractNumber line = Ok (Some v) ->
  Number.ltZero v = true ->
  summaryLine line snap = Ok snap' ->
  guardedFields snap' = guardedFields snap.
Proof.
  intros He Hv. apply ltZero_not_geZero in Hv. revert He.
  summary_cases; intros He H; inversion H; subst; try reflexivity;
    inversion He; subst; congruence.
Qed.

(** No line stores a negative number, or [NaN], in a guarded amount. *)
Lemma summaryLine_noneNegative (line : str) (snap snap' : Snap.t) :
  noneNegative snap = true ->
  summaryLine line snap = Ok snap' ->
  noneNegative snap' = true.
Proof.
  unfold noneNegative, guardedFields. cbn [forallb].
  intros Hn. repeat (apply andb_true_iff in Hn as [? Hn]).
  summary_cases; intros H'; inversion H'; subst; cbn;
    repeat (apply andb_true_iff; split); try assumption; reflexivity.
Qed.

Lemma firstPass_noneNegative (lines : list str) :
  forall snap snap',
    noneNegative snap = true ->
    firstPass lines snap = Ok snap' ->
    noneNegative snap' = true.
Proof.
  induction lines as [|line lines IH]; intros snap snap' Hn H; simpl in H.
  - inversion H; subst. exact Hn.
  - destruct (isFirstPositionLine line); [inversion H; subst; exact Hn|].
    apply bind_Ok in H as (s1 & H1 & H2).
    apply (IH s1 snap'); [|exact H2].
    apply (summaryLine_noneNegative line snap s1 Hn H1).
Qed.

Lemma parse_noneNegative (now : Z) (text : str) (timestamp : option Date)
      (r : ParsedPortfolio) :
  parsePortfolioResponse now text timestamp = Ok r ->
  noneNegative (snapshot r) = true.
Proof.
  unfold parsePortfolioResponse. intros H.
  apply bind_Ok in H as (ts & _ & H).
  apply bind_Ok in H as (s1 & H1 & H).
  apply bind_Ok in H as (s2 & H2 & H).
  apply bind_Ok in H as (ps & _ & H). inversion H; subst; simpl.
  apply (firstPass_noneNegative (linesOf text) s1 s2); [|exact H2].
  destruct (exec true Patterns.positionsHeader text) as [hm|].
  - apply bind_Ok in H1 as (g & _ & H1). inversion H1; subst. reflexivity.
  - inversion H1; subst. reflexivity.
Qed.

(** ** The total balance *)

(** A pattern that begins with [^] can only match at offset 0. *)
Lemma searchFrom_Bol (ci : bool) (r : re) (s : str) :
  forall pos, searchFrom ci (Seq Bol r) (S pos) s = None.
Proof.
  induction s as [|c s IH]; intros pos; [reflexivity|].
  rewrite searchFrom_eq. unfold matchAt. rewrite m_Seq. cbn [m Nat.eqb].
  apply IH.
Qed.

Lemma exec_Bol (ci : bool) (r : re) (c : JS.char) (s : str) :
  exec ci (Seq Bol r) (c :: s) = matchAt ci (Seq Bol r) 0 (c :: s).
Proof.
  unfold exec. rewrite searchFrom_eq.
  destruct (matchAt ci (Seq Bol r) 0 (c :: s)); [reflexivity|].
  apply searchFrom_Bol.
Qed.

(** A line that begins with a letter is not a numbered line. *)
Lemma hasHeaderPrefix_letter (c : JS.char) (s : str) :
  JS.isDigit c = false -> (c =? ch "#") = false ->
  hasHeaderPrefix (c :: s) = false.
Proof.
  intros Hd Hh. unfold hasHeaderPrefix, test, Patterns.headerPrefix.
  cbn [Patterns.seq]. rewrite exec_Bol. unfold matchAt, Opt, Plus, digit.
  rewrite m_Seq. cbn [m Nat.eqb]. unfold chrMatches.
  rewrite N.eqb_sym, Hh, Hd. reflexivity.
Qed.

Lemma summaryLine_other (line : str) (snap snap' : Snap.t) :
  mentionsTotalBalance line = false ->
  summaryLine line snap = Ok snap' ->
  Snap.total_balance snap' = Snap.total_balance snap.
Proof.
  unfold mentionsTotalBalance. intros Hm. unfold summaryLine. rewrite Hm.
  summary_cases; intros H; inversion H; subst; reflexivity.
Qed.

(** The line "Total Balance: $X" stores the value of X, unless that value
    is zero, in which case it stores nothing. *)
Lemma summaryLine_totalBalance (ip : str) (fp : option str) (snap : Snap.t) :
  isAmount ip fp = true ->
  summaryLine (totalBalanceLine ip fp) snap
  = Ok (if Number.truthy (amountValue ip fp)
        then Snap.set_total_balance (amountValue ip fp) snap
        else snap).
Proof.
  intros Ha. unfold summaryLine, totalBalanceLine.
  assert (Hinc : JS.includes (JS.toLowerCase (`"Total Balance: $" ++ amountText ip fp))
                   `"total balance" = true) by reflexivity.
  rewrite Hinc.
  pose proof (extractNumber_amount `"Total Balance: $" [] ip fp eq_refl Ha
                (or_introl eq_refl)) as E.
  change ([] ++ amountText ip fp) with (amountText ip fp) in E.
  rewrite E. cbn [bind]. destruct (parseFloat_amount ip fp Ha) as [-> _].
  destruct (Number.truthy (amountValue ip fp)); [|reflexivity].
  rewrite amountValue_geZero. reflexivity.
Qed.

Lemma firstPass_other (lines : list str) :
  forall snap snap',
    forallb (fun l => negb (mentionsTotalBalance l)) lines = true ->
    firstPass lines snap = Ok snap' ->
    Snap.total_balance snap' = Snap.total_balance snap.
Proof.
  induction lines as [|line lines IH]; intros snap snap' Hl H; simpl in *.
  - inversion H; reflexivity.
  - apply andb_true_iff in Hl as [Hline Hl]. apply negb_true_iff in Hline.
    destruct (isFirstPositionLine line); [inversion H; reflexivity|].
    apply bind_Ok in H as (s1 & H1 & H2).
    rewrite (IH s1 snap' Hl H2). apply (summaryLine_other line snap s1 Hline H1).
Qed.

(** When "Total Balance: $X" is the one line of the message that mentions
    the total balance and no position line comes before it, the first loop,
    if it ends without an error, leaves the value of X in [total_balance]. *)
Lemma firstPass_totalBalance (pre post : list str) (ip : str) (fp : option str) :
  isAmount ip fp = true ->
  forallb (fun l => negb (isFirstPositionLine l)) pre = true ->
  forallb (fun l => negb (mentionsTotalBalance l)) (pre ++ post) = true ->
  forall snap snap',
    Snap.total_balance snap = Number.zero ->
    firstPass (pre ++ totalBalanceLine ip fp :: post) snap = Ok snap' ->
    Snap.total_balance snap' = amountValue ip fp.
Proof.
  intros Ha Hpre Hno. rewrite forallb_app in Hno.
  apply andb_true_iff in Hno as [Hno1 Hno2].
  induction pre as [|line pre IH]; intros snap snap' Hz H.
  - cbn [app firstPass] in H.
    assert (Hh : isFirstPositionLine (totalBalanceLine ip fp) = false).
    { unfold isFirstPositionLine, totalBalanceLine.
      cbn [JS.lit map list_ascii_of_string app].
      rewrite hasHeaderPrefix_letter; reflexivity. }
    rewrite Hh in H. apply bind_Ok in H as (s1 & H1 & H2).
    rewrite (summaryLine_totalBalance ip fp snap Ha) in H1.
    rewrite (firstPass_other post s1 snap' Hno2 H2).
    destruct (Number.truthy (amountValue ip fp)) eqn:T; injection H1 as <-;
      [reflexivity|].
    rewrite Hz. symmetry. apply decimal_falsy. exact T.
  - cbn [app firstPass forallb] in *.
    apply andb_true_iff in Hpre as [Hl Hpre]. apply negb_true_iff in Hl.
    apply andb_true_iff in Hno1 as [Hm Hno1]. apply negb_true_iff in Hm.
    rewrite Hl in H. apply bind_Ok in H as (s1 & H1 & H2).
    apply (IH Hpre Hno1 s1 snap'); [|exact H2].
    rewrite (summaryLine_other line snap s1 Hm H1). exact Hz.
Qed.

(** The same for the parser: whenever it returns. *)
Lemma parse_totalBalance (now : Z) (text : str) (timestamp : option Date)
      (pre post : list str) (ip : str) (fp : option str) (r : ParsedPortfolio) :
  linesOf text = pre ++ totalBalanceLine ip fp :: post ->
  isAmount ip fp = true ->
  forallb (fun l => negb (isFirstPositionLine l)) pre = true ->
  forallb (fun l => negb (mentionsTotalBalance l)) (pre ++ post) = true ->
  parsePortfolioResponse now text timestamp = Ok r ->
  Snap.total_balance (snapshot r) = amountValue ip fp.
Proof.
  intros Hl Ha Hpre Hno H. unfold parsePortfolioResponse in H.
  apply bind_Ok in H as (ts & _ & H).
  apply bind_Ok in H as (s1 & H1 & H).
  apply bind_Ok in H as (s2 & H2 & H).
  apply bind_Ok in H as (ps & _ & H). inversion H; subst; simpl.
  rewrite Hl in H2.
  apply (firstPass_totalBalance pre post ip fp Ha Hpre Hno s1 s2); [|exact H2].
  destruct (exec true Patterns.positionsHeader text) as [hm|].
  - apply bind_Ok in H1 as (g & _ & H1). inversion H1; subst. reflexivity.
  - inversion H1; subst. reflexivity.
Qed.

(** C8.  The message "Total Balance: $1,234.50", then a market, then the
    detail line "Copied from: trader_a" has its total balance before any
    position line, and the first loop reads it as 1234.5; but the second
    loop throws on the detail line, so the parser returns no snapshot at
    all, and the same holds for the thirteen-line message of the round-trip
    example with its balance of 90.20. *)
Theorem C8_total_balance_lost_when_parser_throws :
  linesOf balanceThenCopiedText
  = [totalBalanceLine `"1,234" (Some `"50"); `"#1. Will X happen?";
     `"Copied from: trader_a"]
  /\ isAmount `"1,234" (Some `"50") = true
  /\ amountValue `"1,234" (Some `"50") = Number.dec 12345 1
  /\ (forall ts,
        option_map Snap.total_balance
          (match firstPass (linesOf balanceThenCopiedText) (emptySnapshot ts) with
           | Ok s => Some s
           | Throw _ => None
           end)
        = Some (Number.dec 12345 1))
  /\ (forall now : Z,
        parsePortfolioResponse now balanceThenCopiedText None = Throw TypeError)
  /\ (forall now ms : Z,
        parsePortfolioResponse now balanceThenCopiedText (Some (ValidDate ms))
        = Throw TypeError)
  /\ (forall now ms : Z,
        parsePortfolioResponse now roundTripText (Some (ValidDate ms))
        = Throw TypeError).
Proof. repeat split; intros; vm_compute; reflexivity. Qed.

Example parse_totalBalance_example :
  forall now : Z,
    option_map (fun r => Snap.total_balance (snapshot r))
      (match parsePortfolioResponse now
               (JS.join [JS.LF] [`"Manage your Positions(2)"; `"Total Balance: $1,234.50";
                                 `"#1. Will X happen?"; `"Entry: 0.45"]) None with
       | Ok r => Some r
       | Throw _ => None
       end)
    = Some (amountValue `"1,234" (Some `"50")).
Proof. intros. vm_compute. reflexivity. Qed.

(** ** Negative numbers *)

Lemma neg_ltZero (v : number) :
  Number.truthy v = true -> Number.geZero v = true ->
  Number.ltZero (Number.neg v) = true.
Proof.
  destruct v as [|q]; [discriminate|].
  unfold Number.truthy, Number.geZero, Number.neg, Number.ltZero. intros Ht Hg.
  apply negb_true_iff in Ht. apply negb_true_iff.
  apply Qle_bool_iff in Hg.
  destruct (Qle_bool 0 (Qred (- q))) eqn:E; [|reflexivity].
  apply Qle_bool_iff in E. rewrite Qred_correct in E.
  assert (Hq : (q == 0)%Q).
  { apply Qle_antisym; [|exact Hg].
    apply Qopp_le_compat in E. rewrite Qopp_opp in E. exact E. }
  apply Qeq_bool_iff in Hq. congruence.
Qed.

(** Number extraction keeps a minus sign that stands directly before the
    digits. *)
Lemma extractNumber_minus (prefix ip : str) (fp : option str) :
  plainPrefix prefix = true ->
  isAmount ip fp = true ->
  Number.truthy (amountValue ip fp) = true ->
  extractNumber (prefix ++ `"-" ++ amountText ip fp)
  = Ok (Some (Number.neg (amountValue ip fp)))
  /\ Number.ltZero (Number.neg (amountValue ip fp)) = true.
Proof.
  intros Hp Ha Ht.
  pose proof (neg_ltZero _ Ht (amountValue_geZero ip fp)) as Hlt.
  split; [|exact Hlt].
  rewrite (extractNumber_amount prefix `"-" ip fp Hp Ha (or_intror (or_introl eq_refl))).
  destruct (parseFloat_amount ip fp Ha) as [_ ->].
  cbv zeta.
  replace (Number.truthy (Number.neg (amountValue ip fp))) with true; [reflexivity|].
  symmetry. destruct (Number.neg (amountValue ip fp)) as [|q]; [discriminate|].
  unfold Number.truthy, Number.ltZero in *.
  apply negb_true_iff in Hlt. apply negb_true_iff.
  destruct (Qeq_bool q 0) eqn:E; [|reflexivity].
  apply Qeq_bool_iff in E. assert (Hle : (0 <= q)%Q) by (rewrite E; apply Qle_refl).
  apply Qle_bool_iff in Hle. congruence.
Qed.

(** ** The combined amount-and-percentage patterns *)

Lemma firstn_app_exact {T : Type} (a b : list T) :
  firstn (List.length (a ++ b) - List.length b) (a ++ b) = a.
Proof.
  rewrite length_app, Nat.add_sub.
  rewrite firstn_app, Nat.sub_diag, firstn_all. simpl. apply app_nil_r.
Qed.

Lemma alt_first (A : Type) (ci : bool) (a b : re) pos s cs (k : cont A) (x : A) :
  m ci a pos s cs k = Some x -> m ci (Alt a b) pos s cs k = Some x.
Proof. intros H. rewrite m_Alt, H. reflexivity. Qed.

Lemma amountText_head (ip : str) (fp : option str) (rest : str) :
  isAmount ip fp = true ->
  exists d t, amountText ip fp ++ rest = d :: t /\ JS.isDigit d = true.
Proof.
  unfold isAmount, amountText. destruct ip as [|d ip]; [discriminate|].
  intros H. apply andb_true_iff in H as [H _]. apply andb_true_iff in H as [H _].
  exists d. eexists. split; [reflexivity|exact H].
Qed.

(** The amount pattern takes an amount whole when what follows cannot
    extend it and the continuation accepts there. *)
Lemma amount_matches_before (ip : str) (fp : option str) (rest : str)
      (pos : nat) (cs : caps) (A : Type) (k : cont A) (x : A) :
  isAmount ip fp = true ->
  endsAmount fp rest ->
  (forall pos', k pos' rest cs = Some x) ->
  m false Patterns.amount pos (amountText ip fp ++ rest) cs k = Some x.
Proof.
  unfold isAmount, endsAmount. destruct ip as [|d ip]; [discriminate|].
  intros H He Hk. apply andb_true_iff in H as [H Hf].
  apply andb_true_iff in H as [Hd Hip].
  unfold Patterns.amount, amountText, Plus, digitOrComma, Opt, digit.
  change (fun c => JS.isDigit c || (c =? 44)) with isDigitOrComma.
  cbn [Patterns.seq app].
  assert (Hd' : isDigitOrComma d = true) by (unfold isDigitOrComma; now rewrite Hd).
  rewrite !m_Seq, m_Cls, Hd', m_Star, <- app_assoc.
  apply (starLoop_greedy A false).
  - destruct fp as [f|]; [reflexivity|]. cbn [app].
    destruct rest as [|c rest]; [exact I|]. cbn [headNot] in He.
    unfold isDigitOrComma. apply orb_false_iff in He as [He1 He2].
    apply orb_false_iff in He2 as [He2 _]. now rewrite He1, He2.
  - exact Hip.
  - rewrite length_app. lia.
  - rewrite m_Seq. destruct fp as [f|].
    + apply alt_first. cbn [app]. rewrite m_Chr. unfold chrMatches.
      rewrite N.eqb_refl, m_Star.
      apply (starLoop_greedy A false); try assumption.
      * destruct rest as [|c rest]; [exact I|]. cbn [headNot] in He.
        now apply orb_false_iff in He as [He _].
      * rewrite length_app. lia.
      * apply Hk.
    + cbn [app]. rewrite m_Alt, m_Chr.
      assert (E : match rest with
                  | [] => None
                  | d0 :: s' =>
                      if chrMatches false (ch ".") d0
                      then m false (Star (Cls JS.isDigit)) (S (S pos + List.length ip)) s' cs k
                      else None
                  end = None).
      { destruct rest as [|c rest]; [reflexivity|]. cbn [headNot] in He.
        apply orb_false_iff in He as [_ He]. apply orb_false_iff in He as [_ He].
        unfold chrMatches. change (ch ".") with 46. rewrite N.eqb_sym, He.
        reflexivity. }
      rewrite E, m_Eps, m_Star.
      change rest with ([] ++ rest) at 2.
      apply (starLoop_greedy A false); try reflexivity.
      * destruct rest as [|c rest]; [exact I|]. cbn [headNot] in He.
        now apply orb_false_iff in He as [He _].
      * simpl. lia.
      * apply Hk.
Qed.

Lemma group_amount_matches (n : nat) (ip : str) (fp : option str) (rest : str)
      (pos : nat) (cs : caps) (A : Type) (k : cont A) (x : A) :
  isAmount ip fp = true ->
  endsAmount fp rest ->
  (forall pos', k pos' rest ((n, amountText ip fp) :: cs) = Some x) ->
  m false (Grp n Patterns.amount) pos (amountText ip fp ++ rest) cs k = Some x.
Proof.
  intros Ha He Hk. rewrite m_Grp.
  apply amount_matches_before; try assumption.
  intros pos'. rewrite firstn_app_exact. apply Hk.
Qed.

Lemma sign_fails (s : str) (A : Type) (k : cont A) (pos : nat) (cs : caps) :
  headNot isSign s -> m false sign pos s cs k = None.
Proof.
  unfold sign. rewrite m_Cls. destruct s as [|c s]; [reflexivity|].
  cbn [headNot]. change (oneOf [43; 45] c) with (isSign c). now intros ->.
Qed.

Lemma optSign_matches (n : nat) (sg s : str) (pos : nat) (cs : caps)
      (A : Type) (k : cont A) (x : A) :
  isSignText sg ->
  headNot isSign s ->
  (forall pos', k pos' s ((n, sg) :: cs) = Some x) ->
  m false (Grp n (Opt sign)) pos (sg ++ s) cs k = Some x.
Proof.
  intros [->| ->] Hs Hk; rewrite m_Grp; unfold Opt.
  - cbn [app]. rewrite m_Alt, (sign_fails _ _ _ _ _ Hs), m_Eps.
    rewrite Nat.sub_diag. apply Hk.
  - apply alt_first. unfold sign. rewrite m_Cls.
    cbn [app JS.lit map list_ascii_of_string]. simpl (oneOf _ _). cbv iota.
    change (N_of_ascii "-" :: s) with ([N_of_ascii "-"] ++ s).
    rewrite firstn_app_exact. apply Hk.
Qed.

Lemma signedGroup_matches (n : nat) (sg ip : str) (fp : option str) (rest : str)
      (pos : nat) (cs : caps) (A : Type) (k : cont A) (x : A) :
  isSignText sg ->
  isAmount ip fp = true ->
  endsAmount fp rest ->
  (forall pos', k pos' rest ((n, sg ++ amountText ip fp) :: cs) = Some x) ->
  m false (Grp n (Seq (Opt sign) Patterns.amount)) pos
    (sg ++ amountText ip fp ++ rest) cs k = Some x.
Proof.
  intros Hsg Ha He Hk. rewrite m_Grp, m_Seq. unfold Opt.
  destruct (amountText_head ip fp rest Ha) as (d & t & Eh & Hd).
  destruct Hsg as [->| ->].
  - cbn [app]. rewrite m_Alt, sign_fails, m_Eps.
    + apply amount_matches_before; try assumption.
      intros pos'. rewrite firstn_app_exact. apply Hk.
    + rewrite Eh. cbn [headNot]. apply isDigitOrComma_not_sign.
      unfold isDigitOrComma. now rewrite Hd.
  - apply alt_first. unfold sign. rewrite m_Cls.
    cbn [app JS.lit map list_ascii_of_string]. simpl (oneOf _ _). cbv iota.
    apply amount_matches_before; try assumption.
    intros pos'.
    change (N_of_ascii "-" :: amountText ip fp ++ rest)
      with ((N_of_ascii "-" :: amountText ip fp) ++ rest).
    rewrite firstn_app_exact. apply Hk.
Qed.

Lemma amount_not_sign (ip : str) (fp : option str) (rest : str) :
  isAmount ip fp = true -> headNot isSign (amountText ip fp ++ rest).
Proof.
  intros Ha. destruct (amountText_head ip fp rest Ha) as (d & t & -> & Hd).
  cbn [headNot]. apply isDigitOrComma_not_sign. unfold isDigitOrComma. now rewrite Hd.
Qed.

Ltac through_literal c :=
  rewrite m_Chr; unfold chrMatches; simpl (ch c =? _); cbv iota.

(** [\s*\(] on a space and an opening bracket *)
Ltac through_space_and_bracket :=
  rewrite m_Seq, m_Star;
  match goal with
  | |- context [starLoop _ _ _ _ (`" (" ++ ?t) _] =>
      change (`" (" ++ t) with ([32] ++ 40 :: t)
  end;
  apply (starLoop_greedy _ false);
  [reflexivity | reflexivity | rewrite length_app; simpl; lia | ];
  rewrite m_Seq; through_literal "("%char.

(** [%\)] at the end of the line *)
Ltac through_percent_bracket :=
  cbn [JS.lit map list_ascii_of_string];
  rewrite m_Seq; through_literal "%"%char; through_literal ")"%char.

Lemma star_class (A : Type) (ci : bool) (p : JS.char -> bool) (run rest : str)
      (pos : nat) (cs : caps) (k : cont A) (x : A) :
  forallb p run = true -> headNot p rest ->
  (forall pos', k pos' rest cs = Some x) ->
  m ci (Star (Cls p)) pos (run ++ rest) cs k = Some x.
Proof.
  intros Hr Hh Hk. rewrite m_Star. apply starLoop_greedy; try assumption.
  - rewrite length_app. lia.
  - apply Hk.
Qed.

Ltac ends_amount :=
  match goal with |- endsAmount ?fp _ => destruct fp; reflexivity end.

Lemma totalPnl_m (s1 ipA : str) (fpA : option str) (s2 ipP : str) (fpP : option str)
      (pos : nat) (cs : caps) (A : Type) (k : cont A) (x : A) :
  isSignText s1 -> isAmount ipA fpA = true ->
  isSignText s2 -> isAmount ipP fpP = true ->
  (forall pos', k pos' []
                  ((4%nat, amountText ipP fpP) :: (3%nat, s2)
                   :: (2%nat, amountText ipA fpA) :: (1%nat, s1) :: cs) = Some x) ->
  m false Patterns.totalPnl pos (totalPnlText s1 ipA fpA s2 ipP fpP) cs k = Some x.
Proof.
  intros Hs1 Ha Hs2 Hp Hk. unfold Patterns.totalPnl, totalPnlText.
  cbn [Patterns.seq]. rewrite m_Seq.
  apply optSign_matches; [exact Hs1|reflexivity|]. intros pos1.
  rewrite m_Seq. unfold Opt at 1. apply alt_first.
  change (`"$" ++ ?t) with (36 :: t).
  through_literal "$"%char. rewrite m_Seq.
  apply group_amount_matches; [exact Ha|ends_amount|]. intros pos2.
  through_space_and_bracket. rewrite m_Seq.
  apply optSign_matches; [exact Hs2|apply amount_not_sign; exact Hp|]. intros pos3.
  rewrite m_Seq.
  apply group_amount_matches; [exact Hp|ends_amount|]. intros pos4.
  through_percent_bracket. apply Hk.
Qed.

Lemma positionPnl_m (s1 ipA : str) (fpA : option str) (s2 ipP : str) (fpP : option str)
      (pos : nat) (cs : caps) (A : Type) (k : cont A) (x : A) :
  isSignText s1 -> isAmount ipA fpA = true ->
  isSignText s2 -> isAmount ipP fpP = true ->
  (forall pos', k pos' []
                  ((2%nat, s2 ++ amountText ipP fpP)
                   :: (1%nat, s1 ++ amountText ipA fpA) :: cs) = Some x) ->
  m false Patterns.positionPnl pos (positionPnlText s1 ipA fpA s2 ipP fpP) cs k = Some x.
Proof.
  intros Hs1 Ha Hs2 Hp Hk. unfold Patterns.positionPnl, positionPnlText.
  cbn [Patterns.seq]. rewrite m_Seq.
  apply signedGroup_matches; [exact Hs1|exact Ha|ends_amount|]. intros pos1.
  rewrite m_Seq.
  change (`" (" ++ ?t) with ([32] ++ 40 :: t).
  apply (star_class A false JS.isWhiteSpace [32]); [reflexivity|reflexivity|].
  intros pos1a. rewrite m_Seq. unfold Opt at 1. rewrite m_Alt, m_Chr.
  unfold chrMatches. simpl (ch "$" =? _). cbv iota. rewrite m_Eps, m_Seq.
  apply (star_class A false JS.isWhiteSpace []); [reflexivity|reflexivity|].
  intros pos1b.
  rewrite m_Seq. through_literal "("%char. rewrite m_Seq.
  apply signedGroup_matches; [exact Hs2|exact Hp|ends_amount|]. intros pos2.
  through_percent_bracket. apply Hk.
Qed.

Lemma amount_fails (c : JS.char) (s : str) (A : Type) (k : cont A) (pos : nat) (cs : caps) :
  isDigitOrComma c = false ->
  m false Patterns.amount pos (c :: s) cs k = None.
Proof.
  intros Hd. unfold Patterns.amount, Plus, digitOrComma. cbn [Patterns.seq].
  rewrite !m_Seq, m_Cls.
  change (JS.isDigit c || (c =? 44)) with (isDigitOrComma c). now rewrite Hd.
Qed.

Lemma totalPnl_skip (c : JS.char) (s : str) (pos : nat) :
  isSign c = false -> isDigitOrComma c = false -> isDollar c = false ->
  matchAt false Patterns.totalPnl pos (c :: s) = None.
Proof.
  intros Hs Hd Hdol. unfold matchAt, Patterns.totalPnl, Opt. cbn [Patterns.seq].
  rewrite m_Seq, m_Grp, m_Alt, sign_fails by exact Hs.
  rewrite m_Eps, m_Seq, m_Alt, m_Chr. unfold chrMatches.
  unfold isDollar in Hdol. change (ch "$") with 36. rewrite N.eqb_sym, Hdol.
  rewrite m_Eps, m_Seq, m_Grp. apply amount_fails. exact Hd.
Qed.

Lemma positionPnl_skip (c : JS.char) (s : str) (pos : nat) :
  isSign c = false -> isDigitOrComma c = false ->
  matchAt false Patterns.positionPnl pos (c :: s) = None.
Proof.
  intros Hs Hd. unfold matchAt, Patterns.positionPnl, Opt. cbn [Patterns.seq].
  rewrite m_Seq, m_Grp, m_Seq, m_Alt, sign_fails by exact Hs.
  rewrite m_Eps. apply amount_fails. exact Hd.
Qed.

Lemma searchFrom_skip_prefix (r : re) (prefix s : str) :
  (forall c t pos,
      In c prefix -> matchAt false r pos (c :: t) = None) ->
  forall pos,
    searchFrom false r pos (prefix ++ s)
    = searchFrom false r (pos + List.length prefix)%nat s.
Proof.
  induction prefix as [|c prefix IH]; intros H pos.
  - simpl. now rewrite Nat.add_0_r.
  - cbn [app]. rewrite searchFrom_eq, H by (left; reflexivity).
    rewrite IH by (intros; apply H; right; assumption).
    f_equal. simpl. lia.
Qed.

Lemma wordPrefix_In (prefix : str) (c : JS.char) :
  wordPrefix prefix = true -> In c prefix ->
  isSign c = false /\ isDigitOrComma c = false /\ isDollar c = false.
Proof.
  unfold wordPrefix. rewrite forallb_forall. intros H Hin.
  specialize (H c Hin). apply andb_true_iff in H as [H H3].
  apply andb_true_iff in H as [H1 H2].
  repeat split; now apply negb_true_iff.
Qed.

(** The summary pattern on "-$15.19 (-0.02%)" in general. *)
Lemma exec_totalPnl (prefix s1 ipA : str) (fpA : option str) (s2 ipP : str)
      (fpP : option str) :
  wordPrefix prefix = true ->
  isSignText s1 -> isAmount ipA fpA = true ->
  isSignText s2 -> isAmount ipP fpP = true ->
  exec false Patterns.totalPnl (prefix ++ totalPnlText s1 ipA fpA s2 ipP fpP)
  = Some {| index := List.length prefix;
            whole := totalPnlText s1 ipA fpA s2 ipP fpP;
            groups := [(4%nat, amountText ipP fpP); (3%nat, s2);
                       (2%nat, amountText ipA fpA); (1%nat, s1)];
            after := [] |}.
Proof.
  intros Hw Hs1 Ha Hs2 Hp. unfold exec.
  rewrite searchFrom_skip_prefix.
  - rewrite searchFrom_eq. unfold matchAt.
    erewrite totalPnl_m; try eassumption; [reflexivity|].
    intros pos'. rewrite firstn_length_all. reflexivity.
  - intros c t pos Hin. destruct (wordPrefix_In prefix c Hw Hin) as (H1 & H2 & H3).
    apply totalPnl_skip; assumption.
Qed.

(** The position pattern on "-5.00 (-10.00%)" in general. *)
Lemma exec_positionPnl (prefix s1 ipA : str) (fpA : option str) (s2 ipP : str)
      (fpP : option str) :
  wordPrefix prefix = true ->
  isSignText s1 -> isAmount ipA fpA = true ->
  isSignText s2 -> isAmount ipP fpP = true ->
  exec false Patterns.positionPnl (prefix ++ positionPnlText s1 ipA fpA s2 ipP fpP)
  = Some {| index := List.length prefix;
            whole := positionPnlText s1 ipA fpA s2 ipP fpP;
            groups := [(2%nat, s2 ++ amountText ipP fpP);
                       (1%nat, s1 ++ amountText ipA fpA)];
            after := [] |}.
Proof.
  intros Hw Hs1 Ha Hs2 Hp. unfold exec.
  rewrite searchFrom_skip_prefix.
  - rewrite searchFrom_eq. unfold matchAt.
    erewrite positionPnl_m; try eassumption; [reflexivity|].
    intros pos'. rewrite firstn_length_all. reflexivity.
  - intros c t pos Hin. destruct (wordPrefix_In prefix c Hw Hin) as (H1 & H2 & H3).
    apply positionPnl_skip; assumption.
Qed.

(** ** The PNL lines *)

Lemma toLowerCase_below (s : str) : below65 s = true -> JS.toLowerCase s = s.
Proof.
  unfold below65, JS.toLowerCase. induction s as [|c s IH]; simpl; [reflexivity|].
  intros H. apply andb_true_iff in H as [Hc H]. rewrite (IH H).
  apply N.ltb_lt in Hc. unfold JS.lowerChar.
  replace (65 <=? c) with false by (symmetry; apply N.leb_gt; lia).
  replace (c =? 304) with false by (symmetry; apply N.eqb_neq; lia).
  replace (c =? 8490) with false by (symmetry; apply N.eqb_neq; lia).
  reflexivity.
Qed.

Lemma includes_below (s kw : str) (k0 : JS.char) :
  below65 s = true -> 65 <= k0 -> JS.includes s (k0 :: kw) = false.
Proof.
  unfold below65. intros H Hk. induction s as [|c s IH]; [reflexivity|].
  simpl in H. apply andb_true_iff in H as [Hc H]. apply N.ltb_lt in Hc.
  cbn [JS.includes JS.startsWith]. rewrite (IH H).
  replace (k0 =? c) with false by (symmetry; apply N.eqb_neq; lia).
  reflexivity.
Qed.

Lemma below65_app (a b : str) : below65 (a ++ b) = below65 a && below65 b.
Proof. apply forallb_app. Qed.

Lemma below65_amount (ip : str) (fp : option str) :
  isAmount ip fp = true -> below65 (amountText ip fp) = true.
Proof.
  intros Ha. unfold amountText, isAmount in *.
  destruct ip as [|d ip]; [discriminate|].
  apply andb_true_iff in Ha as [Ha Hf]. apply andb_true_iff in Ha as [Hd Hip].
  assert (Hdig : forall c, JS.isDigit c = true -> (c <? 65) = true).
  { intros c Hc. unfold JS.isDigit in Hc. apply andb_true_iff in Hc as [_ Hc].
    apply N.leb_le in Hc. apply N.ltb_lt. lia. }
  assert (Hdc : forall c, isDigitOrComma c = true -> (c <? 65) = true).
  { intros c Hc. unfold isDigitOrComma in Hc. apply orb_true_iff in Hc as [Hc|Hc].
    - now apply Hdig.
    - apply N.eqb_eq in Hc. subst. reflexivity. }
  rewrite below65_app. apply andb_true_iff. split.
  - unfold below65. cbn [forallb]. rewrite (Hdig d Hd). cbn [andb].
    apply forallb_forall. intros c Hin. apply Hdc.
    rewrite forallb_forall in Hip. now apply Hip.
  - destruct fp as [f|]; [|reflexivity]. unfold below65. cbn [forallb].
    simpl (ch "." <? 65). cbn [andb].
    apply forallb_forall. intros c Hin. apply Hdig.
    rewrite forallb_forall in Hf. now apply Hf.
Qed.

Lemma below65_sign (sg : str) : isSignText sg -> below65 sg = true.
Proof. intros [->| ->]; reflexivity. Qed.

Lemma below65_totalPnlText s1 ipA fpA s2 ipP fpP :
  isSignText s1 -> isAmount ipA fpA = true ->
  isSignText s2 -> isAmount ipP fpP = true ->
  below65 (totalPnlText s1 ipA fpA s2 ipP fpP) = true.
Proof.
  intros Hs1 Ha Hs2 Hp. unfold totalPnlText.
  rewrite !below65_app, (below65_sign _ Hs1), (below65_sign _ Hs2),
    (below65_amount _ _ Ha), (below65_amount _ _ Hp). reflexivity.
Qed.

Lemma below65_positionPnlText s1 ipA fpA s2 ipP fpP :
  isSignText s1 -> isAmount ipA fpA = true ->
  isSignText s2 -> isAmount ipP fpP = true ->
  below65 (positionPnlText s1 ipA fpA s2 ipP fpP) = true.
Proof.
  intros Hs1 Ha Hs2 Hp. unfold positionPnlText.
  rewrite !below65_app, (below65_sign _ Hs1), (below65_sign _ Hs2),
    (below65_amount _ _ Ha), (below65_amount _ _ Hp). reflexivity.
Qed.

Lemma orZeroText_amount (ip : str) (fp : option str) :
  isAmount ip fp = true ->
  orZeroText (removeCommas (amountText ip fp)) = removeCommas (amountText ip fp).
Proof.
  intros Ha. destruct (removeCommas_amount ip fp Ha) as (d & ds & _ & _ & _ & _ & ->).
  reflexivity.
Qed.

Lemma parseFloat_signed (sg ip : str) (fp : option str) :
  isSignText sg -> isAmount ip fp = true ->
  Number.parseFloat (orZeroText (removeCommas (sg ++ amountText ip fp)))
  = signedValue sg ip fp.
Proof.
  intros [->| ->] Ha; unfold signedValue.
  - cbn [app]. rewrite (orZeroText_amount _ _ Ha).
    destruct (parseFloat_amount ip fp Ha) as [-> _]. reflexivity.
  - destruct (parseFloat_amount ip fp Ha) as [_ <-]. reflexivity.
Qed.

Lemma pagination_letter (c : JS.char) (s : str) :
  (c =? ch "#") = false -> isPaginationButton (c :: s) = false.
Proof.
  intros Hh. unfold isPaginationButton, test, Patterns.paginationButton.
  cbn [Patterns.seq]. rewrite exec_Bol. unfold matchAt.
  rewrite m_Seq. cbn [m Nat.eqb]. unfold chrMatches.
  rewrite N.eqb_sym, Hh. reflexivity.
Qed.

(** The line "Total PNL: -$15.19 (-0.02%)" in general: both values are
    stored with their signs. *)
Lemma summaryLine_totalPnl (s1 ipA : str) (fpA : option str) (s2 ipP : str)
      (fpP : option str) (snap : Snap.t) :
  isSignText s1 -> isAmount ipA fpA = true ->
  isSignText s2 -> isAmount ipP fpP = true ->
  summaryLine (`"Total PNL: " ++ totalPnlText s1 ipA fpA s2 ipP fpP) snap
  = Ok (Snap.set_total_pnl_pct (signedValue s2 ipP fpP)
          (Snap.set_total_pnl_usd (signedValue s1 ipA fpA) snap)).
Proof.
  intros Hs1 Ha Hs2 Hp.
  pose proof (below65_totalPnlText _ _ _ _ _ _ Hs1 Ha Hs2 Hp) as Hb.
  set (tail := totalPnlText s1 ipA fpA s2 ipP fpP) in *.
  assert (Hlow : JS.toLowerCase (`"Total PNL: " ++ tail) = `"total pnl: " ++ tail).
  { unfold JS.toLowerCase. rewrite flat_map_app.
    fold (JS.toLowerCase tail). rewrite (toLowerCase_below tail Hb). reflexivity. }
  assert (Hinc : forall k0 kw, 65 <= k0 ->
                   JS.includes tail (k0 :: kw) = false)
    by (intros; apply includes_below; assumption).
  unfold summaryLine. rewrite Hlow.
  assert (E1 : JS.includes (`"total pnl: " ++ tail) `"total balance" = false).
  { transitivity (JS.includes tail `"total balance"); [reflexivity|].
    apply Hinc. discriminate. }
  assert (E2 : JS.includes (`"total pnl: " ++ tail) `"available balance" = false).
  { transitivity (JS.includes tail `"available balance"); [reflexivity|].
    apply Hinc. discriminate. }
  assert (E3 : JS.includes (`"total pnl: " ++ tail) `"available" = false).
  { transitivity (JS.includes tail `"available"); [reflexivity|].
    apply Hinc. discriminate. }
  assert (E4 : JS.includes (`"total pnl: " ++ tail) `"invested" = false).
  { transitivity (JS.includes tail `"invested"); [reflexivity|].
    apply Hinc. discriminate. }
  assert (E5 : JS.includes (`"total pnl: " ++ tail) `"value" = false).
  { transitivity (JS.includes tail `"value"); [reflexivity|].
    apply Hinc. discriminate. }
  assert (E6 : JS.includes (`"total pnl: " ++ tail) `"total pnl" = true) by reflexivity.
  rewrite E1, E2, E3, E4, E5, E6. cbn [andb orb].
  assert (E7 : hasHeaderPrefix (`"Total PNL: " ++ tail) = false)
    by (apply hasHeaderPrefix_letter; reflexivity).
  assert (E8 : isPaginationButton (`"Total PNL: " ++ tail) = false)
    by (apply pagination_letter; reflexivity).
  rewrite E7, E8. cbn [negb andb].
  unfold tail. rewrite (exec_totalPnl `"Total PNL: " s1 ipA fpA s2 ipP fpP eq_refl
                          Hs1 Ha Hs2 Hp).
  unfold getGroup, groupIs. cbn [groups group Nat.eqb bind].
  rewrite (orZeroText_amount _ _ Ha), (orZeroText_amount _ _ Hp).
  destruct (parseFloat_amount ipA fpA Ha) as [-> _].
  destruct (parseFloat_amount ipP fpP Hp) as [-> _].
  reflexivity.
Qed.

(** The detail line "PNL: -5.00 (-10.00%)" in general: both values are
    stored with their signs. *)
Lemma detailLine_pnl (s1 ipA : str) (fpA : option str) (s2 ipP : str)
      (fpP : option str) (p : Position.t) :
  isSignText s1 -> isAmount ipA fpA = true ->
  isSignText s2 -> isAmount ipP fpP = true ->
  detailLine (`"PNL: " ++ positionPnlText s1 ipA fpA s2 ipP fpP) p
  = Ok (Position.set_pnl_pct (signedValue s2 ipP fpP)
          (Position.set_pnl_usd (signedValue s1 ipA fpA) p)).
Proof.
  intros Hs1 Ha Hs2 Hp.
  pose proof (below65_positionPnlText _ _ _ _ _ _ Hs1 Ha Hs2 Hp) as Hb.
  set (tail := positionPnlText s1 ipA fpA s2 ipP fpP) in *.
  assert (Hlow : JS.toLowerCase (`"PNL: " ++ tail) = `"pnl: " ++ tail).
  { unfold JS.toLowerCase. rewrite flat_map_app.
    fold (JS.toLowerCase tail). rewrite (toLowerCase_below tail Hb). reflexivity. }
  assert (Hinc : forall kw, 65 <= hd 0 kw ->
                   JS.includes (`"pnl: " ++ tail) kw = JS.includes tail kw ->
                   JS.includes (`"pnl: " ++ tail) kw = false).
  { intros [|k0 kw] Hk E; rewrite E; [exfalso; apply Hk; reflexivity|].
    apply includes_below; assumption. }
  unfold detailLine. rewrite Hlow.
  rewrite (Hinc `"side:"), (Hinc `"position:"), (Hinc `"entry"),
    (Hinc `"entry price"), (Hinc `"invested"), (Hinc `"shares"),
    (Hinc `"value"); try reflexivity; try discriminate.
  assert (E6 : JS.includes (`"pnl: " ++ tail) `"pnl" = true) by reflexivity.
  rewrite E6. cbn [andb orb negb].
  unfold tail. rewrite (exec_positionPnl `"PNL: " s1 ipA fpA s2 ipP fpP eq_refl
                          Hs1 Ha Hs2 Hp).
  unfold getGroup. cbn [groups group Nat.eqb bind].
  rewrite (parseFloat_signed _ _ _ Hs1 Ha), (parseFloat_signed _ _ _ Hs2 Hp).
  reflexivity.
Qed.

(** X29.  Where the sign of a negative number reaches the output: for
    every amount A and percentage P, each with a minus sign or without, the
    line "Total PNL: [-]$A ([-]P%)" stores [-]A in [total_pnl_usd] and
    [-]P in [total_pnl_pct], the detail line "PNL: [-]A ([-]P%)" stores
    [-]A in [pnl_usd] and [-]P in [pnl_pct], and number extraction on a
    line that ends with "-A", the minus sign directly before the digits,
    gives the negative number.  A summary line whose extracted number is
    negative leaves the four guarded amounts (total balance, available
    balance, invested, value) as they were, so at their default 0 when
    nothing was stored before, and no result of the parser has a negative
    guarded amount.  The message with a negative number on every line
    comes out accordingly. *)
Theorem X29_signs_directly_before_the_digits_are_kept :
  (forall (s1 ipA : str) (fpA : option str) (s2 ipP : str) (fpP : option str)
          (snap : Snap.t) (p : Position.t),
      isSignText s1 -> isAmount ipA fpA = true ->
      isSignText s2 -> isAmount ipP fpP = true ->
      summaryLine (`"Total PNL: " ++ totalPnlText s1 ipA fpA s2 ipP fpP) snap
      = Ok (Snap.set_total_pnl_pct (signedValue s2 ipP fpP)
              (Snap.set_total_pnl_usd (signedValue s1 ipA fpA) snap))
      /\ detailLine (`"PNL: " ++ positionPnlText s1 ipA fpA s2 ipP fpP) p
         = Ok (Position.set_pnl_pct (signedValue s2 ipP fpP)
                 (Position.set_pnl_usd (signedValue s1 ipA fpA) p)))
  /\ (forall (prefix ip : str) (fp : option str),
         plainPrefix prefix = true ->
         isAmount ip fp = true ->
         Number.truthy (amountValue ip fp) = true ->
         extractNumber (prefix ++ `"-" ++ amountText ip fp)
         = Ok (Some (signedValue `"-" ip fp))
         /\ Number.ltZero (signedValue `"-" ip fp) = true)
  /\ (forall (line : str) (snap snap' : Snap.t) (v : number),
         extractNumber line = Ok (Some v) ->
         Number.ltZero v = true ->
         summaryLine line snap = Ok snap' ->
         guardedFields snap' = guardedFields snap)
  /\ (forall (now : Z) (text : str) (timestamp : option Date) (r : ParsedPortfolio),
         parsePortfolioResponse now text timestamp = Ok r ->
         noneNegative (snapshot r) = true)
  /\ (forall now ms : Z,
         parsePortfolioResponse now negativeText (Some (ValidDate ms))
         = Ok (negativeResult (ISO ms))).
Proof.
  split.
  { intros. split; [apply summaryLine_totalPnl|apply detailLine_pnl]; assumption. }
  split; [exact extractNumber_minus|].
  split; [exact summaryLine_negative|].
  split; [exact parse_noneNegative|].
  intros. vm_compute. reflexivity.
Qed.

Lemma X29_signs_directly_before_the_digits_are_kept_witness :
  isSignText `"-"
  /\ isAmount `"15" (Some `"19") = true
  /\ isAmount `"0" (Some `"02") = true
  /\ summaryLine `"Total PNL: -$15.19 (-0.02%)" (emptySnapshot (ISO 0))
     = Ok (Snap.set_total_pnl_pct (Number.dec (-2) 2)
             (Snap.set_total_pnl_usd (Number.dec (-1519) 2) (emptySnapshot (ISO 0))))
  /\ plainPrefix `"Total PNL: " = true
  /\ Number.truthy (amountValue `"1,234" (Some `"50")) = true
  /\ extractNumber `"Total PNL: -1,234.50" = Ok (Some (Number.dec (-12345) 1))
  /\ Number.ltZero (Number.dec (-12345) 1) = true
  /\ summaryLine `"Total Balance: -5" (roundTripSnapshot (ISO 0))
     = Ok (roundTripSnapshot (ISO 0))
  /\ guardedFields (roundTripSnapshot (ISO 0))
     = [Number.dec 9020 2; Number.dec 1250 2; Number.dec 7770 2; Number.dec 8000 2]
  /\ noneNegative (snapshot (negativeResult (ISO 0))) = true.
Proof.
  destruct X29_signs_directly_before_the_digits_are_kept as (H0 & H1 & H2 & H3 & H4).
  split; [right; reflexivity|]. split; [reflexivity|]. split; [reflexivity|].
  split.
  { exact (proj1 (H0 `"-" `"15" (Some `"19") `"-" `"0" (Some `"02")
                     (emptySnapshot (ISO 0)) roundTripPosition
                     (or_intror eq_refl) eq_refl (or_intror eq_refl) eq_refl)). }
  split; [reflexivity|]. split; [reflexivity|].
  destruct (H1 `"Total PNL: " `"1,234" (Some `"50") eq_refl eq_refl eq_refl)
    as [E1 E2].
  split; [exact E1|]. split; [exact E2|].
  split; [reflexivity|].
  split.
  - exact (H2 `"Total Balance: -5" (roundTripSnapshot (ISO 0))
              (roundTripSnapshot (ISO 0)) (Number.dec (-5) 0)
              eq_refl eq_refl eq_refl).
  - exact (H3 0%Z negativeText (Some (ValidDate 0)) (negativeResult (ISO 0))
              (H4 0%Z 0%Z)).
Defined.

(** C6.  The parser at "Total PNL: -$15.19", a total PNL without its
    percentage.  The pattern of the branch needs the bracketed percentage
    and finds no match; the fallback, of which the source says that it
    "will handle negative signs", is [extractNumber], whose pattern takes
    a sign only directly before a digit or a comma: the match starts at
    "15.19", after "-$".  The parser stores +15.19 in [total_pnl_usd],
    where the same line with its percentage stores -15.19.  The detail
    line "PNL: -$5.00 (-10.00%)" loses the sign of the amount in the same
    way and keeps that of the percentage. *)
Theorem C6_minus_before_dollar_is_dropped :
  exec false Patterns.totalPnl `"Total PNL: -$15.19" = None
  /\ extractNumber `"Total PNL: -$15.19" = Ok (Some (Number.dec 1519 2))
  /\ Number.ltZero (Number.dec 1519 2) = false
  /\ (forall now ms : Z,
         parsePortfolioResponse now `"Total PNL: -$15.19" (Some (ValidDate ms))
         = Ok {| snapshot := Snap.set_total_pnl_usd (Number.dec 1519 2)
                               (emptySnapshot (ISO ms));
                 positions := [] |})
  /\ (forall now ms : Z,
         parsePortfolioResponse now `"Total PNL: -$15.19 (-0.02%)"
                                (Some (ValidDate ms))
         = Ok {| snapshot := Snap.set_total_pnl_pct (Number.dec (-2) 2)
                               (Snap.set_total_pnl_usd (Number.dec (-1519) 2)
                                  (emptySnapshot (ISO ms)));
                 positions := [] |})
  /\ detailLine `"PNL: -$5.00 (-10.00%)" roundTripPosition
     = Ok (Position.set_pnl_pct (Number.dec (-10) 0)
             (Position.set_pnl_usd (Number.dec 5 0) roundTripPosition)).
Proof.
  split; [vm_compute; reflexivity|]. split; [vm_compute; reflexivity|].
  split; [reflexivity|].
  split; [intros; vm_compute; reflexivity|].
  split; [intros; vm_compute; reflexivity|].
  vm_compute. reflexivity.
Qed.

(* ================================================================== *)
(** * Where the parser can throw *)
(* ================================================================== *)

(** ** Groups that every match binds *)

Section Groups.
Variable A : Type.
Variable ci : bool.

Lemma group_cons_kept (n n' : nat) (g : str) (cs : caps) :
  group n cs <> None -> group n ((n', g) :: cs) <> None.
Proof. simpl. destruct (Nat.eqb n n'); [discriminate|trivial]. Qed.

Lemma starLoop_calls (a : re) (k : cont A) (x : A) :
  calls A ci a ->
  forall (fuel pos : nat) (s : str) (cs : caps),
    starLoop (m ci a) k fuel pos s cs = Some x ->
    exists pos' s' cs',
      k pos' s' cs' = Some x
      /\ (forall n, group n cs <> None -> group n cs' <> None).
Proof.
  intros Ha. induction fuel as [|fuel IH]; intros pos s cs H; simpl in H.
  - exists pos, s, cs. split; [exact H|trivial].
  - match type of H with
    | match ?e with _ => _ end = _ => destruct e as [y|] eqn:E
    end.
    + inversion H; subst y. apply Ha in E as (pos1 & s1 & cs1 & E & K1 & _).
      destruct (List.length s1 <? List.length s)%nat; [|discriminate].
      apply IH in E as (pos2 & s2 & cs2 & E & K2).
      exists pos2, s2, cs2. split; [exact E|]. intros n Hn. apply K2, K1, Hn.
    + exists pos, s, cs. split; [exact H|trivial].
Qed.

Lemma m_calls (r : re) : calls A ci r.
Proof.
  induction r as [|c|p|a IHa b IHb|a IHa b IHb|a IHa|n a IHa| |];
    intros pos s cs k x H.
  - exists pos, s, cs. repeat split; [exact H|trivial|discriminate].
  - rewrite m_Chr in H. destruct s as [|d s]; [discriminate|].
    destruct (chrMatches ci c d); [|discriminate].
    exists (S pos), s, cs. repeat split; [exact H|trivial|discriminate].
  - rewrite m_Cls in H. destruct s as [|d s]; [discriminate|].
    destruct (p d); [|discriminate].
    exists (S pos), s, cs. repeat split; [exact H|trivial|discriminate].
  - rewrite m_Seq in H. apply IHa in H as (pos1 & s1 & cs1 & H & K1 & B1).
    apply IHb in H as (pos2 & s2 & cs2 & H & K2 & B2).
    exists pos2, s2, cs2. split; [exact H|]. split.
    + intros n Hn. apply K2, K1, Hn.
    + intros n Hn. simpl in Hn. apply orb_true_iff in Hn as [Hn|Hn].
      * apply K2, B1, Hn.
      * apply B2, Hn.
  - rewrite m_Alt in H. destruct (m ci a pos s cs k) as [y|] eqn:E.
    + inversion H; subst y. apply IHa in E as (pos1 & s1 & cs1 & E & K1 & B1).
      exists pos1, s1, cs1. split; [exact E|]. split; [exact K1|].
      intros n Hn. simpl in Hn. apply andb_true_iff in Hn as [Hn _]. apply B1, Hn.
    + apply IHb in H as (pos1 & s1 & cs1 & E1 & K1 & B1).
      exists pos1, s1, cs1. split; [exact E1|]. split; [exact K1|].
      intros n Hn. simpl in Hn. apply andb_true_iff in Hn as [_ Hn]. apply B1, Hn.
  - rewrite m_Star in H.
    apply (starLoop_calls a k x IHa) in H as (pos1 & s1 & cs1 & H & K1).
    exists pos1, s1, cs1. split; [exact H|]. split; [exact K1|discriminate].
  - rewrite m_Grp in H. apply IHa in H as (pos1 & s1 & cs1 & H & K1 & B1).
    eexists pos1, s1, _. split; [exact H|]. split.
    + intros n' Hn. apply group_cons_kept, K1, Hn.
    + intros n' Hn. simpl in Hn. apply orb_true_iff in Hn as [Hn|Hn].
      * apply Nat.eqb_eq in Hn. subst n'. simpl. rewrite Nat.eqb_refl. discriminate.
      * apply group_cons_kept, B1, Hn.
  - simpl in H. destruct (Nat.eqb pos 0); [|discriminate].
    exists pos, s, cs. repeat split; [exact H|trivial|discriminate].
  - simpl in H. destruct s; [|discriminate].
    exists pos, [], cs. repeat split; [exact H|trivial|discriminate].
Qed.

End Groups.

Lemma exec_binds (ci : bool) (r : re) (s : str) (res : matchResult) (n : nat) :
  exec ci r s = Some res -> binds r n = true ->
  exists g, getGroup n res = Ok g.
Proof.
  unfold exec. generalize 0%nat as pos. induction s as [|c s IH]; intros pos H Hb.
  - rewrite searchFrom_eq in H. destruct (matchAt ci r pos []) as [y|] eqn:E;
      [|discriminate]. inversion H; subst y.
    unfold matchAt in E. apply m_calls in E as (pos1 & s1 & cs1 & E & _ & B).
    inversion E; subst res. unfold getGroup. simpl.
    specialize (B n Hb). destruct (group n cs1); [eauto|contradiction].
  - rewrite searchFrom_eq in H. destruct (matchAt ci r pos (c :: s)) as [y|] eqn:E.
    + inversion H; subst y.
      unfold matchAt in E. apply m_calls in E as (pos1 & s1 & cs1 & E & _ & B).
      inversion E; subst res. unfold getGroup. simpl.
      specialize (B n Hb). destruct (group n cs1); [eauto|contradiction].
    + apply (IH (S pos)); assumption.
Qed.

(** ** The summary loop never throws *)

Lemma extractNumber_returns (line : str) : exists v, extractNumber line = Ok v.
Proof.
  unfold extractNumber.
  destruct (exec false Patterns.signedAmount line) as [r|] eqn:E; [|eauto].
  destruct (exec_binds _ _ _ _ 1%nat E eq_refl) as (g & ->). simpl. eauto.
Qed.

Lemma summaryLine_returns (line : str) (snap : Snap.t) :
  exists snap', summaryLine line snap = Ok snap'.
Proof.
  unfold summaryLine. destruct (extractNumber_returns line) as (v & ->).
  cbn [bind].
  destruct (exec false Patterns.totalPnl line) as [r|] eqn:E.
  - destruct (exec_binds _ _ _ _ 2%nat E eq_refl) as (g2 & ->).
    destruct (exec_binds _ _ _ _ 4%nat E eq_refl) as (g4 & ->).
    cbn [bind].
    repeat match goal with
           | |- context [if ?b then _ else _] => destruct b
           | |- context [match ?x with Some _ => _ | None => _ end] => destruct x
           end; eauto.
  - repeat match goal with
           | |- context [if ?b then _ else _] => destruct b
           | |- context [match ?x with Some _ => _ | None => _ end] => destruct x
           end; eauto.
Qed.

Lemma firstPass_returns (lines : list str) :
  forall snap, exists snap', firstPass lines snap = Ok snap'.
Proof.
  induction lines as [|line lines IH]; intros snap; simpl; [eauto|].
  destruct (isFirstPositionLine line); [eauto|].
  destruct (summaryLine_returns line snap) as (s1 & ->). simpl. apply IH.
Qed.

(** ** The positions loop throws only in [extractTextAfter] *)

Lemma detailLine_returns (line : str) (p : Position.t) :
  mentionsCopy line = false ->
  exists p', detailLine line p = Ok p'.
Proof.
  unfold mentionsCopy, detailLine. intros Hm.
  destruct (extractNumber_returns line) as (v & ->). cbn [bind].
  rewrite Hm.
  destruct (exec false Patterns.positionPnl line) as [r|] eqn:E.
  - destruct (exec_binds _ _ _ _ 1%nat E eq_refl) as (g1 & ->).
    destruct (exec_binds _ _ _ _ 2%nat E eq_refl) as (g2 & ->).
    cbn [bind].
    repeat match goal with
           | |- context [if ?b then _ else _] => destruct b
           end; eauto.
  - repeat match goal with
           | |- context [if ?b then _ else _] => destruct b
           end; eauto.
Qed.

Lemma positionLine_returns (line : str) (st : PassState) :
  mentionsCopy line = false ->
  exists o, positionLine line st = Ok o.
Proof.
  intros Hm. unfold positionLine.
  destruct (inPositionsSection st && isControlLine line); [eauto|].
  destruct (negb (inPositionsSection st || isFirstPositionLine line)); [eauto|].
  destruct (isSkippedLine line); [eauto|].
  destruct (startsPosition line); [eauto|]. simpl.
  destruct (currentPosition st) as [p|]; [|eauto].
  destruct (detailLine_returns line p Hm) as (p' & ->). simpl. eauto.
Qed.

Lemma secondPassFrom_returns (lines : list str) :
  forallb (fun l => negb (mentionsCopy l)) lines = true ->
  forall st, exists ps, secondPassFrom lines st = Ok ps.
Proof.
  induction lines as [|line lines IH]; intros H st; simpl in *; [eauto|].
  apply andb_true_iff in H as [Hl H]. apply negb_true_iff in Hl.
  destruct (positionLine_returns line st Hl) as ([|st'] & ->); simpl; [eauto|].
  apply IH. exact H.
Qed.

(** The parser returns on every text in which no line mentions "copied",
    "from" or "copy trade by", without a timestamp and with every valid
    one: the call of [extractTextAfter] is the only place where a text can
    make it throw. *)
Theorem parse_returns_without_copy_lines (now : Z) (text : str) :
  forallb (fun l => negb (mentionsCopy l)) (linesOf text) = true ->
  (exists r, parsePortfolioResponse now text None = Ok r)
  /\ (forall ms, exists r,
         parsePortfolioResponse now text (Some (ValidDate ms)) = Ok r).
Proof.
  intros H.
  assert (G : forall ts, exists r,
              (snapshot1 <- match exec true Patterns.positionsHeader text with
                            | Some headerMatch =>
                                g <- getGroup 1 headerMatch ;;
                                Ok (Snap.set_total_positions (Number.parseInt g)
                                      (emptySnapshot ts))
                            | None => Ok (emptySnapshot ts)
                            end ;;
               snapshot2 <- firstPass (linesOf text) snapshot1 ;;
               ps <- secondPass (linesOf text) ;;
               Ok {| snapshot := snapshot2; positions := ps |}) = Ok r).
  { intros ts.
    destruct (secondPassFrom_returns (linesOf text) H initialPass) as (ps & Hps).
    unfold secondPass. rewrite Hps.
    destruct (exec true Patterns.positionsHeader text) as [hm|] eqn:E.
    - destruct (exec_binds _ _ _ _ 1%nat E eq_refl) as (g & ->). cbn [bind].
      destruct (firstPass_returns (linesOf text)
                  (Snap.set_total_positions (Number.parseInt g) (emptySnapshot ts)))
        as (s2 & ->). simpl. eauto.
    - cbn [bind].
      destruct (firstPass_returns (linesOf text) (emptySnapshot ts)) as (s2 & ->).
      simpl. eauto. }
  split; [|intros ms]; unfold parsePortfolioResponse; cbn [toISOString bind]; apply G.
Qed.

Example parse_returns_without_copy_lines_example :
  exists r,
    parsePortfolioResponse 0
      (JS.join [JS.LF] (firstn 12 roundTripLines)) (Some (ValidDate 5)) = Ok r.
Proof.
  apply (parse_returns_without_copy_lines 0 (JS.join [JS.LF] (firstn 12 roundTripLines))).
  reflexivity.
Qed.

(** So, on a message without such lines in which "Total Balance: $X" is
    the one line that mentions the total balance and stands before any
    position line, the parser returns a snapshot whose total balance is
    the value of X. *)
Theorem parse_totalBalance_returns (now ms : Z) (text : str)
        (pre post : list str) (ip : str) (fp : option str) :
  linesOf text = pre ++ totalBalanceLine ip fp :: post ->
  isAmount ip fp = true ->
  forallb (fun l => negb (isFirstPositionLine l)) pre = true ->
  forallb (fun l => negb (mentionsTotalBalance l)) (pre ++ post) = true ->
  forallb (fun l => negb (mentionsCopy l)) (linesOf text) = true ->
  exists r,
    parsePortfolioResponse now text (Some (ValidDate ms)) = Ok r
    /\ Snap.total_balance (snapshot r) = amountValue ip fp.
Proof.
  intros Hl Ha Hpre Hno Hc.
  destruct (parse_returns_without_copy_lines now text Hc) as [_ H].
  destruct (H ms) as (r & Hr). exists r. split; [exact Hr|].
  apply (parse_totalBalance now text (Some (ValidDate ms)) pre post ip fp r);
    assumption.
Qed.

Example parse_totalBalance_returns_example :
  exists r,
    parsePortfolioResponse 0 (JS.join [JS.LF] (firstn 12 roundTripLines))
      (Some (ValidDate 5)) = Ok r
    /\ Snap.total_balance (snapshot r) = Number.dec 9020 2.
Proof.
  apply (parse_totalBalance_returns 0 5 (JS.join [JS.LF] (firstn 12 roundTripLines))
           [] (skipn 1 (firstn 12 roundTripLines)) `"90" (Some `"20"));
    reflexivity.
Qed.
(* ================================================================== *)
(** * Lines of a message *)
(* ================================================================== *)

Lemma trimStart_head (s : str) : headNot JS.isWhiteSpace (JS.trimStart s).
Proof.
  induction s as [|c s IH]; simpl; [exact I|].
  destruct (JS.isWhiteSpace c) eqn:E; [exact IH|exact E].
Qed.

Lemma trimStart_clean (s : str) : headNot JS.isWhiteSpace s -> JS.trimStart s = s.
Proof. destruct s as [|c s]; simpl; [reflexivity|]. now intros ->. Qed.

Lemma trimStart_snoc (s : str) (c : JS.char) :
  JS.isWhiteSpace c = false -> JS.trimStart (s ++ [c]) = JS.trimStart s ++ [c].
Proof.
  intros Hc. induction s as [|d s IH]; simpl; [now rewrite Hc|].
  destruct (JS.isWhiteSpace d); [exact IH|reflexivity].
Qed.

Lemma trimEnd_cons (c : JS.char) (s : str) :
  JS.isWhiteSpace c = false -> JS.trimEnd (c :: s) = c :: JS.trimEnd s.
Proof.
  intros Hc. unfold JS.trimEnd. simpl.
  rewrite (trimStart_snoc _ _ Hc), rev_app_distr. reflexivity.
Qed.

Lemma trimEnd_idem (s : str) : JS.trimEnd (JS.trimEnd s) = JS.trimEnd s.
Proof.
  unfold JS.trimEnd. rewrite rev_involutive.
  rewrite (trimStart_clean _ (trimStart_head (rev s))). reflexivity.
Qed.

Lemma trim_head (s : str) : headNot JS.isWhiteSpace (JS.trim s).
Proof.
  unfold JS.trim. pose proof (trimStart_head s) as H.
  destruct (JS.trimStart s) as [|c t]; [exact I|].
  simpl in H. rewrite (trimEnd_cons _ _ H). exact H.
Qed.

(** [trim] on a trimmed string changes nothing. *)
Lemma trim_idem (s : str) : JS.trim (JS.trim s) = JS.trim s.
Proof.
  unfold JS.trim at 1. rewrite (trimStart_clean _ (trim_head s)).
  unfold JS.trim. apply trimEnd_idem.
Qed.

Lemma trimStart_In (s : str) (c : JS.char) : In c (JS.trimStart s) -> In c s.
Proof.
  induction s as [|d s IH]; simpl; [tauto|].
  destruct (JS.isWhiteSpace d); simpl; tauto.
Qed.

Lemma trim_In (s : str) (c : JS.char) : In c (JS.trim s) -> In c s.
Proof.
  unfold JS.trim, JS.trimEnd. intros H.
  apply in_rev, trimStart_In, in_rev, trimStart_In in H. exact H.
Qed.

Lemma split_go_no_sep (sep : JS.char) (s : str) :
  forall cur piece,
    ~ In sep cur -> In piece (JS.split_go sep cur s) -> ~ In sep piece.
Proof.
  induction s as [|c s IH]; intros cur piece Hc; simpl.
  - intros [<-|[]]. now rewrite <- in_rev.
  - destruct (c =? sep) eqn:E.
    + intros [<-|H]; [now rewrite <- in_rev|].
      apply (IH [] piece); [tauto|exact H].
    + apply IH. intros [->|H]; [now rewrite N.eqb_refl in E|tauto].
Qed.

Lemma split_go_piece (sep : JS.char) (x : str) :
  ~ In sep x ->
  forall cur, JS.split_go sep cur x = [rev cur ++ x].
Proof.
  induction x as [|c x IH]; intros Hx cur; simpl.
  - now rewrite app_nil_r.
  - destruct (c =? sep) eqn:E.
    + apply N.eqb_eq in E. subst. exfalso. apply Hx. now left.
    + rewrite IH; [|intros H; apply Hx; now right].
      simpl. rewrite <- app_assoc. reflexivity.
Qed.

Lemma split_go_app (sep : JS.char) (x rest : str) :
  ~ In sep x ->
  forall cur,
    JS.split_go sep cur (x ++ sep :: rest) = (rev cur ++ x) :: JS.split_go sep [] rest.
Proof.
  induction x as [|c x IH]; intros Hx cur; simpl.
  - rewrite N.eqb_refl, app_nil_r. reflexivity.
  - destruct (c =? sep) eqn:E.
    + apply N.eqb_eq in E. subst. exfalso. apply Hx. now left.
    + rewrite IH; [|intros H; apply Hx; now right].
      simpl. rewrite <- app_assoc. reflexivity.
Qed.

(** [split] undoes [join] when no piece holds the separator. *)
Lemma split_join (sep : JS.char) (l : list str) :
  l <> [] ->
  (forall x, In x l -> ~ In sep x) ->
  JS.split sep (JS.join [sep] l) = l.
Proof.
  unfold JS.split.
  induction l as [|x l IH]; intros Hne Hl; [congruence|].
  destruct l as [|y l].
  - simpl. rewrite split_go_piece; [reflexivity|]. apply Hl. now left.
  - change (JS.join [sep] (x :: y :: l)) with (x ++ sep :: JS.join [sep] (y :: l)).
    rewrite split_go_app; [|apply Hl; now left].
    simpl rev. rewrite IH; [reflexivity|discriminate|].
    intros z Hz. apply Hl. now right.
Qed.

Lemma isLine_spec (l : str) :
  isLine l = true <-> l <> [] /\ JS.trim l = l /\ ~ In JS.LF l.
Proof.
  unfold isLine. rewrite !andb_true_iff, eqb_spec, negb_true_iff. split.
  - intros [[H1 H2] H3]. split; [|split; [exact H2|]].
    + destruct l; [discriminate|discriminate].
    + intros H. assert (E : existsb (N.eqb JS.LF) l = true); [|congruence].
      apply existsb_exists. exists JS.LF. split; [exact H|apply N.eqb_refl].
  - intros (H1 & H2 & H3). split; [split; [|exact H2]|].
    + destruct l; [congruence|reflexivity].
    + destruct (existsb (N.eqb JS.LF) l) eqn:E; [|reflexivity].
      apply existsb_exists in E as (c & Hc & E). apply N.eqb_eq in E. subst.
      contradiction.
Qed.

(** X6.  The lines that the two loops of the parser read are never empty,
    are trimmed, and hold no line feed, whatever the text of the message. *)
Theorem X6_lines_are_trimmed_and_not_empty :
  forall text : str, forallb isLine (linesOf text) = true.
Proof.
  intros text. apply forallb_forall. intros l Hl. apply isLine_spec.
  unfold linesOf in Hl. apply filter_In in Hl as [Hl Hn].
  apply in_map_iff in Hl as (p & <- & Hp).
  split; [|split].
  - destruct (JS.trim p); [discriminate|discriminate].
  - apply trim_idem.
  - intros H. apply trim_In in H. revert H.
    apply (split_go_no_sep JS.LF text [] p); [tauto|exact Hp].
Qed.

(** X7.  Lines that are not empty, are trimmed and hold no line feed are
    read back as they are from the message that joins them by line
    feeds. *)
Theorem X7_joined_lines_are_read_back :
  forall ls : list str,
    forallb isLine ls = true -> linesOf (JS.join [JS.LF] ls) = ls.
Proof.
  intros ls H. destruct ls as [|l0 ls]; [reflexivity|].
  assert (Hall : forall l, In l (l0 :: ls) ->
                           l <> [] /\ JS.trim l = l /\ ~ In JS.LF l).
  { intros l Hl. apply isLine_spec. revert l Hl. apply forallb_forall. exact H. }
  unfold linesOf. rewrite split_join; [|discriminate|intros x Hx; apply Hall, Hx].
  clear H. induction (l0 :: ls) as [|l rest IH]; [reflexivity|].
  destruct (Hall l (or_introl eq_refl)) as (Hne & Ht & _).
  cbn [map filter]. rewrite Ht.
  destruct l as [|c l]; [congruence|]. cbn [List.length Nat.ltb Nat.leb].
  f_equal. apply IH. intros x Hx. apply Hall. now right.
Qed.

Lemma X7_joined_lines_are_read_back_witness :
  forallb isLine roundTripLines = true
  /\ linesOf (JS.join [JS.LF] roundTripLines) = roundTripLines.
Proof.
  split; [reflexivity|].
  apply (X7_joined_lines_are_read_back roundTripLines). reflexivity.
Defined.
(* ================================================================== *)
(** * The backfill loop of the Express server *)
(* ================================================================== *)

Section BackfillLoop.
Variable env : Env.

(** One round of the loop never rejects.  It counts the message once, as
    saved, skipped or failed, and never touches the event log or the known
    traders.  It writes a snapshot row only for a message with a valid
    date and with data that the database did not find near a stored
    snapshot: the row with all the parsed positions when the message is
    counted as saved, and the row with the accepted positions when a
    position row was rejected and the message is counted as failed. *)
Lemma processMessage_cases (msg : Express.Message) (c : Express.Counters) (w : World) :
  exists w',
    events (db w') = events (db w)
    /\ lastKnownTraders w' = lastKnownTraders w
    /\ ((Express.processMessage env msg c w = (w', Ok (skipOne c))
         /\ db w' = db w)
        \/ (Express.processMessage env msg c w = (w', Ok (errorOne c))
            /\ db w' = db w)
        \/ (exists ms parsed,
              Express.date msg = ValidDate ms
              /\ parsePortfolioResponse 0 (Express.message msg) (Some (ValidDate ms))
                 = Ok parsed
              /\ hasData parsed = true
              /\ snapshotRejected env (snapshot parsed) = false
              /\ (readFails env = false -> nearStored env w (ISO ms) = false)
              /\ ((Express.processMessage env msg c w = (w', Ok (saveOne c))
                   /\ savePortfolioFails env (snapshot parsed) (positions parsed) = false
                   /\ db w' = snd (insertSnapshot (snapshot parsed) (positions parsed)
                                                  (db w)))
                  \/ (Express.processMessage env msg c w = (w', Ok (errorOne c))
                      /\ savePortfolioFails env (snapshot parsed) (positions parsed) = true
                      /\ db w' = snd (insertSnapshot (snapshot parsed)
                                         (acceptedPositions env (positions parsed))
                                         (db w)))))).
Proof.
  destruct (Express.processMessage env msg c w) as [w1 r] eqn:E.
  exists w1. revert E.
  unfold Express.processMessage, tryCatch at 1, bindM at 1, liftResult at 1.
  destruct (Express.date msg) as [ms|] eqn:Hd; simpl toISOString; cbv iota beta.
  2:{ unfold logEntry, bindM, ret. intros E; inversion E; subst; simpl.
      repeat split. right; left. repeat split. }
  assert (Near : exists w0 b,
             Sqlite.snapshotExistsNearTimestamp env (ISO ms) 5 w = (w0, Ok b)
             /\ db w0 = db w /\ lastKnownTraders w0 = lastKnownTraders w
             /\ (readFails env = false -> w0 = w /\ b = nearStored env w (ISO ms))).
  { unfold Sqlite.snapshotExistsNearTimestamp, tryCatch, bindM, logEntry, ret.
    destruct (readFails env).
    - eexists _, _. split; [reflexivity|]. repeat split; discriminate.
    - eexists _, _. split; [reflexivity|]. repeat split. }
  destruct Near as (w0 & b & En & D0 & L0 & Hb).
  unfold bindM at 1. rewrite En. cbv iota beta.
  destruct b.
  { unfold ret. intros E; inversion E; subst. rewrite D0, L0.
    repeat split. left. repeat split. }
  unfold bindM at 1, liftResult at 1.
  destruct (parsePortfolioResponse 0 (Express.message msg) (Some (ValidDate ms)))
    as [parsed|e] eqn:Hp; cbv iota beta.
  2:{ unfold logEntry, bindM, ret. intros E; inversion E; subst; simpl.
      rewrite D0, L0. repeat split. right; left. repeat split. }
  fold (hasData parsed). destruct (hasData parsed) eqn:Hh.
  2:{ unfold ret. intros E; inversion E; subst. rewrite D0, L0.
      repeat split. left. repeat split. }
  unfold bindM at 1.
  destruct (savePortfolioFails env (snapshot parsed) (positions parsed)) eqn:Hs.
  - rewrite (savePortfolio_rejected env _ _ _ Hs).
    unfold logEntry, bindM, ret.
    destruct (snapshotRejected env (snapshot parsed)) eqn:Hsn;
      intros E; inversion E; subst; simpl; rewrite ?D0, ?L0.
    + split; [reflexivity|]. split; [reflexivity|].
      right; left. split; [reflexivity|]. destruct (db w); reflexivity.
    + split; [reflexivity|]. split; [reflexivity|].
      right; right. exists ms, parsed. repeat split; try assumption.
      * intros Hr. destruct (Hb Hr) as [_ <-]. reflexivity.
      * right. repeat split; try assumption; simpl; rewrite ?D0; reflexivity.
  - rewrite (savePortfolio_accepted env _ _ _ Hs).
    assert (Hsn : snapshotRejected env (snapshot parsed) = false)
      by (unfold savePortfolioFails in Hs; now apply orb_false_iff in Hs).
    unfold logEntry, bindM, ret.
    destruct (Nat.modulo (S (Express.saved c)) 10 =? 0)%nat;
      intros E; inversion E; subst; simpl; rewrite ?D0, ?L0;
      (split; [reflexivity|]); (split; [reflexivity|]);
      right; right; exists ms, parsed; repeat split; try assumption;
      try (intros Hr; destruct (Hb Hr) as [_ <-]; reflexivity);
      left; repeat split; try assumption; simpl; rewrite ?D0; reflexivity.
Qed.

End BackfillLoop.

(* ================================================================== *)
(** * The fields that the summary loop never writes *)
(* ================================================================== *)

Lemma summaryLine_keeps (line : str) (snap snap' : Snap.t) :
  summaryLine line snap = Ok snap' ->
  Snap.timestamp snap' = Snap.timestamp snap
  /\ Snap.id snap' = Snap.id snap
  /\ Snap.total_positions snap' = Snap.total_positions snap.
Proof.
  summary_cases; intros H; inversion H; subst; repeat split.
Qed.

Lemma firstPass_keeps (lines : list str) :
  forall snap snap',
    firstPass lines snap = Ok snap' ->
    Snap.timestamp snap' = Snap.timestamp snap
    /\ Snap.id snap' = Snap.id snap
    /\ Snap.total_positions snap' = Snap.total_positions snap.
Proof.
  induction lines as [|line lines IH]; intros snap snap' H; simpl in H.
  - inversion H; subst. repeat split.
  - destruct (isFirstPositionLine line); [inversion H; subst; repeat split|].
    apply bind_Ok in H as (s1 & H1 & H2).
    destruct (IH _ _ H2) as (A & B & C).
    destruct (summaryLine_keeps _ _ _ H1) as (A1 & B1 & C1).
    repeat split; congruence.
Qed.

Lemma parse_timestamp (now : Z) (text : str) (timestamp : option Date)
      (r : ParsedPortfolio) :
  parsePortfolioResponse now text timestamp = Ok r ->
  toISOString (stampDate now timestamp) = Ok (Snap.timestamp (snapshot r))
  /\ Snap.id (snapshot r) = None.
Proof.
  unfold parsePortfolioResponse. intros H.
  apply bind_Ok in H as (ts & Hts & H).
  apply bind_Ok in H as (s1 & H1 & H).
  apply bind_Ok in H as (s2 & H2 & H).
  apply bind_Ok in H as (ps & _ & H). inversion H; subst; simpl.
  destruct (firstPass_keeps _ _ _ H2) as (A & B & _). rewrite A, B.
  assert (E : Snap.timestamp s1 = ts /\ Snap.id s1 = None).
  { destruct (exec true Patterns.positionsHeader text) as [hm|].
    - apply bind_Ok in H1 as (g & _ & H1). inversion H1; subst. split; reflexivity.
    - inversion H1; subst. split; reflexivity. }
  destruct E as [-> ->]. split; [|reflexivity].
  unfold stampDate. destruct timestamp; exact Hts.
Qed.

(* ================================================================== *)
(** * Runs of the backfill *)
(* ================================================================== *)



Lemma nearOne_app (a b : list Z) (ms : Z) :
  nearOne (a ++ b) ms = nearOne a ms || nearOne b ms.
Proof. unfold nearOne. apply existsb_app. Qed.

Lemma spaced_snoc (ts : list Z) (t : Z) :
  spaced (ts ++ [t]) = spaced ts && negb (nearOne ts t).
Proof.
  induction ts as [|u ts IH]; simpl; [reflexivity|].
  rewrite forallb_app, IH. simpl. unfold fiveMinutesApart at 2.
  rewrite (Z.leb_antisym (Z.abs (u - t))).
  change (5 * 60000)%Z with 300000%Z.
  destruct (forallb (fiveMinutesApart u) ts), (spaced ts),
    (Z.abs (u - t) <? 300000)%Z, (nearOne ts t); reflexivity.
Qed.

Lemma timesOf_insert (s : Snap.t) (ps : list Position.t) (d : Db) :
  timesOf (snd (insertSnapshot s ps d)) = timesOf d ++ [isoMs (Snap.timestamp s)].
Proof. unfold timesOf, insertSnapshot. simpl. rewrite map_app. reflexivity. Qed.

Lemma parse_time (text : str) (ms : Z) (parsed : ParsedPortfolio) :
  parsePortfolioResponse 0 text (Some (ValidDate ms)) = Ok parsed ->
  isoMs (Snap.timestamp (snapshot parsed)) = ms.
Proof.
  intros H. apply parse_timestamp in H as [H _]. simpl in H.
  inversion H. reflexivity.
Qed.

Section BackfillRuns.
Variable env : Env.

(** What one round does to the time values of the table: nothing, or one
    more value, which no stored value was less than five minutes away
    from if the table could be read. *)
Lemma processMessage_times (msg : Express.Message) (c : Express.Counters) (w : World) :
  exists w' c',
    Express.processMessage env msg c w = (w', Ok c')
    /\ counted c' = S (counted c)
    /\ ((timesOf (db w') = timesOf (db w) /\ Express.saved c' = Express.saved c)
        \/ exists ms,
             timesOf (db w') = timesOf (db w) ++ [ms]
             /\ Express.date msg = ValidDate ms
             /\ (readFails env = false -> nearOne (timesOf (db w)) ms = false)).
Proof.
  assert (Far : forall ms, (readFails env = false -> nearStored env w (ISO ms) = false) ->
                           readFails env = false -> nearOne (timesOf (db w)) ms = false).
  { intros ms Hn Hr. destruct (nearOne (timesOf (db w)) ms) eqn:E; [|reflexivity].
    apply (nearStored_of_nearOne env) in E. rewrite (Hn Hr) in E. discriminate. }
  destruct (processMessage_cases env msg c w)
    as (w' & _ & _ & [[E D]|[[E D]|(ms & parsed & Hd & Hp & Hh & Hsn & Hn
                                       & [(E & _ & D)|(E & _ & D)])]]).
  - exists w', (skipOne c). split; [exact E|]. split; [unfold counted; simpl; lia|].
    left. rewrite D. split; reflexivity.
  - exists w', (errorOne c). split; [exact E|]. split; [unfold counted; simpl; lia|].
    left. rewrite D. split; reflexivity.
  - exists w', (saveOne c). split; [exact E|]. split; [unfold counted; simpl; lia|].
    right. exists ms. rewrite D, timesOf_insert, (parse_time _ _ _ Hp).
    split; [reflexivity|]. split; [exact Hd|exact (Far ms Hn)].
  - exists w', (errorOne c). split; [exact E|]. split; [unfold counted; simpl; lia|].
    right. exists ms. rewrite D, timesOf_insert, (parse_time _ _ _ Hp).
    split; [reflexivity|]. split; [exact Hd|exact (Far ms Hn)].
Qed.

(** The loop never rejects and counts every message once; the table grows
    by one row per saved message and by at most one row per failed
    message, and the event log and the known traders stay as they were. *)
Lemma processAll_counts (msgs : list Express.Message) :
  forall (c : Express.Counters) (w : World),
    exists w' c',
      Express.processAll env msgs c w = (w', Ok c')
      /\ counted c' = (counted c + List.length msgs)%nat
      /\ (Express.saved c <= Express.saved c')%nat
      /\ (Express.errors c <= Express.errors c')%nat
      /\ (List.length (snapshots (db w)) + (Express.saved c' - Express.saved c)
          <= List.length (snapshots (db w')))%nat
      /\ (List.length (snapshots (db w'))
          <= List.length (snapshots (db w)) + (Express.saved c' - Express.saved c)
             + (Express.errors c' - Express.errors c))%nat
      /\ events (db w') = events (db w)
      /\ lastKnownTraders w' = lastKnownTraders w.
Proof.
  induction msgs as [|msg msgs IH]; intros c w; simpl.
  - exists w, c. repeat split; lia.
  - unfold bindM.
    destruct (processMessage_cases env msg c w)
      as (w1 & V1 & L1 & [[E D]|[[E D]|(ms & parsed & _ & _ & _ & _ & _
                                           & [(E & _ & D)|(E & _ & D)])]]);
      rewrite E;
      match goal with |- context [Express.processAll env msgs ?c1 w1] =>
        destruct (IH c1 w1) as (w' & c' & E' & N & S1 & S2 & R1 & R2 & V & L) end;
      exists w', c'; (split; [exact E'|]);
      unfold counted in *; rewrite D in R1, R2; simpl in *;
      try rewrite length_app in R1, R2; simpl in R1, R2;
      repeat split; try congruence; try lia.
Qed.

(** With a readable table the loop keeps the stored snapshots five
    minutes or more apart. *)
Lemma processAll_spaced (msgs : list Express.Message) :
  readFails env = false ->
  forall (c : Express.Counters) (w : World),
    spaced (timesOf (db w)) = true ->
    spaced (timesOf (db (fst (Express.processAll env msgs c w)))) = true.
Proof.
  intros Hr. induction msgs as [|msg msgs IH]; intros c w Hs; simpl; [exact Hs|].
  destruct (processMessage_times msg c w) as (w1 & c1 & E1 & _ & H).
  unfold bindM. rewrite E1. apply IH.
  destruct H as [[-> _]|(ms & -> & _ & Hn)]; [exact Hs|].
  rewrite spaced_snoc, Hs, (Hn Hr). reflexivity.
Qed.

End BackfillRuns.

Section BackfillTwice.
Variable env : Env.
Hypothesis reads : readFails env = false.






End BackfillTwice.

(** X1.  The backfill of the Express server never rejects, whatever the
    database rejects and whatever the messages hold: every message is
    counted exactly once, as saved, skipped or failed, and neither the
    event log nor the known traders are touched.  The table grows by one
    row per message counted as saved and by at most one row per message
    counted as failed: a save that is rejected after its snapshot row was
    written leaves that row. *)
Theorem X1_backfill_accounts_for_every_message :
  forall (env : Env) (messages : list Express.Message) (w : World),
    exists w' c,
      Express.backfill env messages w = (w', Ok c)
      /\ (Express.saved c + Express.skipped c + Express.errors c
          = List.length messages)%nat
      /\ (List.length (snapshots (db w)) + Express.saved c
          <= List.length (snapshots (db w')))%nat
      /\ (List.length (snapshots (db w'))
          <= List.length (snapshots (db w)) + Express.saved c + Express.errors c)%nat
      /\ events (db w') = events (db w)
      /\ lastKnownTraders w' = lastKnownTraders w.
Proof.
  intros env messages w. unfold Express.backfill.
  destruct (processAll_counts env (rev messages)
              {| Express.saved := 0; Express.skipped := 0; Express.errors := 0 |} w)
    as (w' & c & E & N & _ & _ & R1 & R2 & V & L).
  exists w', c. split; [exact E|].
  unfold counted in N. simpl in N, R1, R2. rewrite length_rev in N.
  repeat split; try assumption; lia.
Qed.

(** X2.  When the table can be read, a backfill keeps the stored
    snapshots five minutes or more apart: if every two of them were so
    before the run, every two of them are so after it, those saved by the
    run included. *)
Theorem X2_backfill_keeps_snapshots_five_minutes_apart :
  forall (env : Env) (messages : list Express.Message) (w : World),
    readFails env = false ->
    spaced (timesOf (db w)) = true ->
    spaced (timesOf (db (fst (Express.backfill env messages w)))) = true.
Proof.
  intros env messages w Hr Hs. unfold Express.backfill.
  apply processAll_spaced; assumption.
Qed.

Lemma X2_backfill_keeps_snapshots_five_minutes_apart_witness :
  readFails (quietEnv (tickingClock 5000)) = false
  /\ spaced (timesOf (db oneSnapshotWorld)) = true
  /\ timesOf (db (fst (Express.backfill (quietEnv (tickingClock 5000))
                         backfillBatch oneSnapshotWorld)))
     = [0; 600000]%Z
  /\ spaced (timesOf (db (fst (Express.backfill (quietEnv (tickingClock 5000))
                                 backfillBatch oneSnapshotWorld)))) = true.
Proof.
  split; [reflexivity|]. split; [reflexivity|]. split; [vm_compute; reflexivity|].
  apply (X2_backfill_keeps_snapshots_five_minutes_apart
           (quietEnv (tickingClock 5000)) backfillBatch oneSnapshotWorld);
    reflexivity.
Defined.



(* ================================================================== *)
(** * Passes of the Express server *)
(* ================================================================== *)

Lemma filter_none {T : Type} (p : T -> bool) (l : list T) :
  forallb p l = true -> filter (fun x => negb (p x)) l = [].
Proof.
  induction l as [|x l IH]; simpl; [reflexivity|].
  destruct (p x); simpl; [exact IH|discriminate].
Qed.

Section ExpressPasses.
Variable env : Env.

(** The detection on traders that are the known ones: nothing is saved,
    whatever the database rejects. *)
Lemma Express_detect_same (snapshotId : N) (positions : list Position.t) (w : World) :
  forallb (StrSet.has (lastKnownTraders w)) (Express.currentTradersOf positions) = true ->
  forallb (StrSet.has (Express.currentTradersOf positions)) (lastKnownTraders w) = true ->
  exists w',
    Express.detectCopyTradingChanges env snapshotId positions w = (w', Ok tt)
    /\ db w' = db w
    /\ lastKnownTraders w' = Express.currentTradersOf positions.
Proof.
  intros Hc Hl.
  destruct (lastKnownTraders w) as [|t0 l0] eqn:EL.
  - rewrite (Express_detect_first env snapshotId positions w EL).
    eexists; repeat split.
  - unfold Express.detectCopyTradingChanges, tryCatch at 1, bindM at 1, bindM at 1,
      getWorld at 1.
    rewrite EL. cbn [List.length Nat.ltb Nat.leb].
    rewrite (filter_none _ _ Hc), (filter_none _ _ Hl).
    unfold bindM at 1, Sqlite.getLatestSnapshot, tryCatch at 1.
    destruct (readFails env).
    + simpl. eexists; repeat split.
    + destruct (latestRow (snapshots (db w)) None) as [r|]; simpl;
        eexists; repeat split.
Qed.

(** A pass on a snapshot without copied positions, with nothing rejected,
    leaves no trader known. *)
Lemma Express_reconcile_clears (parsed : ParsedPortfolio) (w : World) :
  readFails env = false ->
  (forall e, saveEventFails env e = false) ->
  savePortfolioFails env (snapshot parsed) (positions parsed) = false ->
  Express.currentTradersOf (positions parsed) = [] ->
  lastKnownTraders (fst (Express.reconcile env parsed w)) = [].
Proof.
  intros Hr He Hs Hc.
  rewrite (Express_reconcile_unfold env parsed w Hs).
  set (newId := fst (insertSnapshot (snapshot parsed) (positions parsed) (db w))).
  destruct (lastKnownTraders w) as [|t0 l0] eqn:EL.
  - rewrite (Express_detect_first env newId (positions parsed) (afterSave parsed w) EL).
    simpl. exact Hc.
  - destruct (latestRow_nonempty (snapshots (db w))
                {| row_snapshot := Snap.set_id (Some newId) (snapshot parsed);
                   row_positions := positions parsed |}) as (r & Hl).
    destruct (Express_detect_spec env newId (positions parsed) (afterSave parsed w) r)
      as (w' & E & _ & _ & L); try assumption.
    { simpl. rewrite EL. discriminate. }
    rewrite E. simpl. rewrite L.
    replace (forallb (eventSaved env) _) with true; [exact Hc|].
    symmetry. apply forallb_forall. intros e _. unfold eventSaved. now rewrite He.
Qed.

(** A pass that starts with no trader known saves no event. *)
Lemma Express_reconcile_silent (parsed : ParsedPortfolio) (w : World) :
  lastKnownTraders w = [] ->
  events (db (fst (Express.reconcile env parsed w))) = events (db w)
  /\ (savePortfolioFails env (snapshot parsed) (positions parsed) = false ->
      lastKnownTraders (fst (Express.reconcile env parsed w))
      = Express.currentTradersOf (positions parsed)).
Proof.
  intros EL.
  destruct (savePortfolioFails env (snapshot parsed) (positions parsed)) eqn:Hs.
  - rewrite (Express_reconcile_write_fails env parsed w Hs).
    split; [|discriminate].
    cbn [fst]. destruct (snapshotRejected env (snapshot parsed)); reflexivity.
  - rewrite (Express_reconcile_unfold env parsed w Hs).
    rewrite (Express_detect_first env _ (positions parsed) (afterSave parsed w) EL).
    simpl. split; reflexivity.
Qed.

End ExpressPasses.

(** X4.  A pass of the Express server whose snapshot shows exactly the
    known traders saves the snapshot and no event, whatever else the
    database rejects, and the known traders become the current ones. *)
Theorem X4_pass_with_the_known_traders_saves_no_event :
  forall (env : Env) (parsed : ParsedPortfolio) (w : World),
    savePortfolioFails env (snapshot parsed) (positions parsed) = false ->
    forallb (StrSet.has (lastKnownTraders w))
            (Express.currentTradersOf (positions parsed)) = true ->
    forallb (StrSet.has (Express.currentTradersOf (positions parsed)))
            (lastKnownTraders w) = true ->
    exists w',
      Express.reconcile env parsed w
      = (w', Ok (N.of_nat (S (List.length (snapshots (db w))))))
      /\ events (db w') = events (db w)
      /\ List.length (snapshots (db w')) = S (List.length (snapshots (db w)))
      /\ lastKnownTraders w' = Express.currentTradersOf (positions parsed).
Proof.
  intros env parsed w Hs Hc Hl.
  rewrite (Express_reconcile_unfold env parsed w Hs).
  destruct (Express_detect_same env
              (fst (insertSnapshot (snapshot parsed) (positions parsed) (db w)))
              (positions parsed) (afterSave parsed w) Hc Hl) as (w' & E & D & L).
  rewrite E. exists w'. split; [reflexivity|].
  rewrite D. simpl. rewrite length_app. simpl.
  repeat split; [lia|exact L].
Qed.

Lemma X4_pass_with_the_known_traders_saves_no_event_witness :
  lastKnownTraders knownWorld = [alice; bob]
  /\ exists w',
       Express.reconcile carolFails (parsedWith 2000 [bob; alice; bob]) knownWorld
       = (w', Ok 2)
       /\ events (db w') = events (db knownWorld)
       /\ List.length (snapshots (db w')) = 2%nat
       /\ lastKnownTraders w' = [bob; alice].
Proof.
  split; [reflexivity|].
  apply (X4_pass_with_the_known_traders_saves_no_event
           carolFails (parsedWith 2000 [bob; alice; bob]) knownWorld);
    reflexivity.
Defined.

(** X5.  After a pass of the Express server on a snapshot without copied
    positions, with nothing rejected, no trader is known; the pass that
    follows then saves no event, whatever its snapshot shows and whatever
    the database rejects, and the traders it shows become the known ones
    without a "copier_added" event. *)
Theorem X5_pass_after_an_uncopied_snapshot_is_silent :
  forall (env env2 : Env) (parsed1 parsed2 : ParsedPortfolio) (w : World),
    readFails env = false ->
    (forall e, saveEventFails env e = false) ->
    savePortfolioFails env (snapshot parsed1) (positions parsed1) = false ->
    Express.currentTradersOf (positions parsed1) = [] ->
    let w1 := fst (Express.reconcile env parsed1 w) in
    let w2 := fst (Express.reconcile env2 parsed2 w1) in
    lastKnownTraders w1 = []
    /\ events (db w2) = events (db w1)
    /\ (savePortfolioFails env2 (snapshot parsed2) (positions parsed2) = false ->
        lastKnownTraders w2 = Express.currentTradersOf (positions parsed2)).
Proof.
  intros env env2 parsed1 parsed2 w Hr He Hs Hc w1 w2.
  assert (EL : lastKnownTraders w1 = [])
    by (apply Express_reconcile_clears; assumption).
  split; [exact EL|].
  apply Express_reconcile_silent. exact EL.
Qed.

Lemma X5_pass_after_an_uncopied_snapshot_is_silent_witness :
  let env := quietEnv (tickingClock 5000) in
  let w1 := fst (Express.reconcile env (parsedUncopied 2000) knownWorld) in
  let w2 := fst (Express.reconcile env (parsedWith 3000 [carol]) w1) in
  newEvents knownWorld w1 = [removedEvent (ISO 2000) alice; removedEvent (ISO 2000) bob]
  /\ lastKnownTraders w1 = []
  /\ events (db w2) = events (db w1)
  /\ lastKnownTraders w2 = [carol].
Proof.
  intros env w1 w2.
  destruct (X5_pass_after_an_uncopied_snapshot_is_silent
              env env (parsedUncopied 2000) (parsedWith 3000 [carol]) knownWorld
              eq_refl (fun _ => eq_refl) eq_refl eq_refl) as (A & B & C).
  split; [vm_compute; reflexivity|].
  split; [exact A|]. split; [exact B|]. exact (C eq_refl).
Defined.

(* ================================================================== *)
(** * The store read back *)
(* ================================================================== *)

Lemma has_In (s : list str) (x : str) : StrSet.has s x = true <-> In x s.
Proof.
  unfold StrSet.has. rewrite existsb_exists. split.
  - intros (y & Hy & E). apply eqb_spec in E. now subst.
  - intros H. exists x. split; [exact H|]. now apply eqb_spec.
Qed.

Lemma add_known (x : str) (acc rest : list str) :
  NoDup (acc ++ x :: rest) ->
  StrSet.add x acc = acc ++ [x].
Proof.
  intros H. unfold StrSet.add.
  destruct (StrSet.has acc x) eqn:E; [|reflexivity].
  apply has_In in E. apply NoDup_remove_2 in H. exfalso. apply H.
  apply in_or_app. now left.
Qed.

Lemma fold_add_NoDup (l : list str) :
  forall acc, NoDup (acc ++ l) ->
              fold_left (fun s x => StrSet.add x s) l acc = acc ++ l.
Proof.
  induction l as [|x l IH]; intros acc H; simpl; [now rewrite app_nil_r|].
  rewrite (add_known x acc l H), IH; rewrite <- app_assoc; [reflexivity|exact H].
Qed.

Lemma add_NoDup (x : str) (s : list str) : NoDup s -> NoDup (StrSet.add x s).
Proof.
  intros H. unfold StrSet.add. destruct (StrSet.has s x) eqn:E; [exact H|].
  apply NoDup_app; [exact H|constructor; [tauto|constructor]|].
  intros y Hy [<-|[]]. apply has_In in Hy. congruence.
Qed.

Lemma fold_add_keeps_NoDup (l : list str) :
  forall acc, NoDup acc -> NoDup (fold_left (fun s x => StrSet.add x s) l acc).
Proof.
  induction l as [|x l IH]; intros acc H; simpl; [exact H|].
  apply IH, add_NoDup, H.
Qed.

(** A set made from the members of a set is that set. *)
Lemma ofList_ofList (l : list str) : StrSet.ofList (StrSet.ofList l) = StrSet.ofList l.
Proof.
  unfold StrSet.ofList at 1.
  apply (fold_add_NoDup (StrSet.ofList l) []). simpl.
  apply fold_add_keeps_NoDup. constructor.
Qed.

(** On trimmed texts the traders that the Express server collects from
    the parsed positions are the ones that the table gives back. *)
Lemma currentTraders_distinct (ps : list Position.t) :
  tradersTrimmed ps = true ->
  Express.currentTradersOf ps = distinctCopiedFrom ps.
Proof.
  unfold Express.currentTradersOf, distinctCopiedFrom, StrSet.ofList.
  generalize (@nil str) as acc.
  induction ps as [|p ps IH]; intros acc H; [reflexivity|].
  simpl in H. apply andb_true_iff in H as [Hp H].
  cbn [fold_left flat_map]. rewrite fold_left_app, IH by exact H.
  f_equal.
  destruct (Position.copied_from p) as [[|c t]|]; try reflexivity.
  apply eqb_spec in Hp. rewrite Hp. reflexivity.
Qed.

Lemma findRow_app (i : N) (a b : list Row) :
  findRow i (a ++ b)
  = match findRow i a with Some r => Some r | None => findRow i b end.
Proof.
  induction a as [|r a IH]; simpl; [reflexivity|].
  destruct (Snap.id (row_snapshot r)) as [j|]; [|exact IH].
  destruct (j =? i); [reflexivity|exact IH].
Qed.

Lemma findRow_above (rows : list Row) :
  forall (n : nat) (i : N),
    idsFrom n rows = true ->
    (N.of_nat (n + List.length rows) <= i)%N ->
    findRow i rows = None.
Proof.
  induction rows as [|r rows IH]; intros n i H Hi; simpl in *; [reflexivity|].
  apply andb_true_iff in H as [H1 H2].
  destruct (Snap.id (row_snapshot r)) as [j|]; [|discriminate].
  apply N.eqb_eq in H1. subst j.
  destruct (N.of_nat n =? i) eqn:E; [apply N.eqb_eq in E; lia|].
  apply (IH (S n)); [exact H2|lia].
Qed.

Lemma idsFrom_app (a b : list Row) :
  forall n, idsFrom n (a ++ b) = idsFrom n a && idsFrom (n + List.length a) b.
Proof.
  induction a as [|r a IH]; intros n; simpl.
  - now rewrite Nat.add_0_r.
  - rewrite IH, <- andb_assoc, Nat.add_succ_r. reflexivity.
Qed.

(** What an accepted insert does to a table with ids 1, 2, ...: the new
    row gets the next id, is found under it, and the ids stay in order. *)
Lemma insertSnapshot_found (s : Snap.t) (ps : list Position.t) (d : Db) :
  rowIds d = true ->
  let newId := N.of_nat (S (List.length (snapshots d))) in
  let newRow := {| row_snapshot := Snap.set_id (Some newId) s; row_positions := ps |} in
  insertSnapshot s ps d
  = (newId, {| snapshots := snapshots d ++ [newRow]; events := events d |})
  /\ findRow newId (snapshots d ++ [newRow]) = Some newRow
  /\ rowIds {| snapshots := snapshots d ++ [newRow]; events := events d |} = true.
Proof.
  intros H newId newRow. split; [reflexivity|]. split.
  - rewrite findRow_app, (findRow_above _ 1%nat newId H) by (unfold newId; lia).
    unfold findRow, newRow. cbn [row_snapshot Snap.set_id Snap.id].
    now rewrite N.eqb_refl.
  - unfold rowIds in *. cbn [snapshots]. rewrite idsFrom_app, H.
    unfold idsFrom, newRow. cbn [row_snapshot Snap.set_id Snap.id].
    rewrite andb_true_r. apply N.eqb_eq. reflexivity.
Qed.

(** X8.  What [savePortfolio] stores is read back.  On a table whose ids
    are 1, 2, ... in insertion order, an accepted save returns the next
    id and keeps the ids in order; [getUniqueTraders] with that id answers
    the distinct non-empty [copied_from] texts of the saved positions, and
    with any other id what it answered before; and the row that
    [getLatestSnapshot] answers has that id and the saved timestamp when
    every stored snapshot is earlier. *)
Theorem X8_saved_portfolio_is_read_back :
  forall (env : Env) (s : Snap.t) (ps : list Position.t) (w : World),
    rowIds (db w) = true ->
    savePortfolioFails env s ps = false ->
    readFails env = false ->
    let newId := N.of_nat (S (List.length (snapshots (db w)))) in
    exists w',
      Sqlite.savePortfolio env s ps w = (w', Ok newId)
      /\ rowIds (db w') = true
      /\ Sqlite.getUniqueTraders env newId w' = (w', Ok (distinctCopiedFrom ps))
      /\ (forall i, i <> newId ->
            Sqlite.getUniqueTraders env i w'
            = (w', snd (Sqlite.getUniqueTraders env i w)))
      /\ (allEarlier (db w) (Snap.timestamp s) = true ->
          Sqlite.getLatestSnapshot env w'
          = (w', Ok (Some {| latest_id := Some newId;
                             latest_timestamp := Snap.timestamp s |}))).
Proof.
  intros env s ps w Hids Hs Hr newId.
  set (newRow := {| row_snapshot := Snap.set_id (Some newId) s; row_positions := ps |}).
  destruct (insertSnapshot_found s ps (db w) Hids) as (Ei & Hf & Hids').
  fold newId in Ei, Hf, Hids'. fold newRow in Ei, Hf, Hids'.
  rewrite (savePortfolio_accepted env _ _ _ Hs), Ei. cbn [fst snd].
  eexists. split; [reflexivity|]. split; [exact Hids'|].
  unfold Sqlite.getUniqueTraders, Sqlite.getLatestSnapshot, tryCatch.
  rewrite Hr. cbn [db setDb snapshots]. rewrite Hf. cbn [row_positions].
  split; [reflexivity|]. split.
  - intros i Hi. rewrite findRow_app. cbn [snd].
    destruct (findRow i (snapshots (db w))) as [r|]; [reflexivity|].
    unfold findRow, newRow. cbn [row_snapshot Snap.set_id Snap.id].
    destruct (newId =? i) eqn:E; [apply N.eqb_eq in E; congruence|reflexivity].
  - intros Hl. rewrite (latestRow_last (snapshots (db w)) newRow); [reflexivity|].
    intros r Hin. unfold allEarlier in Hl.
    apply (proj1 (forallb_forall _ _) Hl) in Hin. apply Z.ltb_lt in Hin.
    unfold newRow. cbn [row_snapshot Snap.set_id Snap.timestamp]. lia.
Qed.

Lemma X8_saved_portfolio_is_read_back_witness :
  exists w',
    Sqlite.savePortfolio (quietEnv (tickingClock 5000))
      (snapshot (parsedWith 2000 [bob; carol; bob]))
      (positions (parsedWith 2000 [bob; carol; bob])) knownWorld
    = (w', Ok 2)
    /\ Sqlite.getUniqueTraders (quietEnv (tickingClock 5000)) 2 w' = (w', Ok [bob; carol])
    /\ Sqlite.getUniqueTraders (quietEnv (tickingClock 5000)) 1 w' = (w', Ok [alice; bob]).
Proof.
  destruct (X8_saved_portfolio_is_read_back (quietEnv (tickingClock 5000))
              (snapshot (parsedWith 2000 [bob; carol; bob]))
              (positions (parsedWith 2000 [bob; carol; bob])) knownWorld
              eq_refl eq_refl eq_refl) as (w' & E & _ & U & O & _).
  exists w'. split; [exact E|]. split; [exact U|].
  rewrite (O 1); [reflexivity|discriminate].
Defined.

Section Restart.
Variable env : Env.
Hypothesis reads : readFails env = false.

(** [initializeCopyTradingState] in a new process, on a table whose
    latest row is the last one. *)
Lemma Express_initialize_latest (rows : list Row) (s : Snap.t) (ps : list Position.t)
      (w : World) :
  let newId := N.of_nat (S (List.length rows)) in
  let newRow := {| row_snapshot := Snap.set_id (Some newId) s; row_positions := ps |} in
  snapshots (db w) = rows ++ [newRow] ->
  idsFrom 1 rows = true ->
  (forall r, In r rows ->
             (isoMs (Snap.timestamp (row_snapshot r)) <= isoMs (Snap.timestamp s))%Z) ->
  lastKnownTraders (fst (Express.initializeCopyTradingState env w))
  = distinctCopiedFrom ps.
Proof.
  intros newId newRow Hw Hids Hts.
  unfold Express.initializeCopyTradingState, tryCatch at 1, bindM at 1,
    Sqlite.getLatestSnapshot, tryCatch at 1.
  rewrite reads, Hw, (latestRow_last rows newRow Hts).
  cbn [option_map latestOf latest_id row_snapshot newRow Snap.set_id Snap.id].
  replace (0 <? newId) with true by (symmetry; apply N.ltb_lt; unfold newId; lia).
  unfold bindM at 1, Sqlite.getUniqueTraders, tryCatch at 1.
  rewrite reads, Hw.
  rewrite findRow_app, (findRow_above rows 1%nat newId Hids) by (unfold newId; lia).
  unfold findRow. cbn [row_snapshot newRow Snap.set_id Snap.id].
  rewrite N.eqb_refl. cbn [row_positions].
  simpl. apply ofList_ofList.
Qed.

(** The same call changes nothing but the known traders and the
    console. *)
Lemma Express_initialize_world (rows : list Row) (s : Snap.t) (ps : list Position.t)
      (w : World) :
  let newId := N.of_nat (S (List.length rows)) in
  let newRow := {| row_snapshot := Snap.set_id (Some newId) s; row_positions := ps |} in
  snapshots (db w) = rows ++ [newRow] ->
  idsFrom 1 rows = true ->
  (forall r, In r rows ->
             (isoMs (Snap.timestamp (row_snapshot r)) <= isoMs (Snap.timestamp s))%Z) ->
  exists w0,
    Express.initializeCopyTradingState env w = (w0, Ok tt)
    /\ db w0 = db w /\ ticks w0 = ticks w
    /\ lastKnownTraders w0 = distinctCopiedFrom ps.
Proof.
  intros newId newRow Hw Hids Hts.
  unfold Express.initializeCopyTradingState, tryCatch at 1, bindM at 1,
    Sqlite.getLatestSnapshot, tryCatch at 1.
  rewrite reads, Hw, (latestRow_last rows newRow Hts).
  cbn [option_map latestOf latest_id row_snapshot newRow Snap.set_id Snap.id].
  replace (0 <? newId) with true by (symmetry; apply N.ltb_lt; unfold newId; lia).
  unfold bindM at 1, Sqlite.getUniqueTraders, tryCatch at 1.
  rewrite reads, Hw.
  rewrite findRow_app, (findRow_above rows 1%nat newId Hids) by (unfold newId; lia).
  unfold findRow. cbn [row_snapshot newRow Snap.set_id Snap.id].
  rewrite N.eqb_refl. cbn [row_positions].
  eexists. split; [reflexivity|]. simpl. repeat split. apply ofList_ofList.
Qed.

End Restart.

(** X9.  The known traders survive a restart of the Express server.  After
    a pass in which nothing is rejected, on a table with ids in insertion
    order and all snapshots earlier than the new one, and on positions whose
    [copied_from] texts are trimmed, the traders that
    [initializeCopyTradingState] reads from the table in a new process are
    the ones that the pass left in memory, the current traders of the
    pass: a text is among the ones if and only if it is among the
    others. *)
Theorem X9_known_traders_survive_a_restart :
  forall (env : Env) (parsed : ParsedPortfolio) (w : World),
    readFails env = false ->
    (forall e, saveEventFails env e = false) ->
    savePortfolioFails env (snapshot parsed) (positions parsed) = false ->
    rowIds (db w) = true ->
    allEarlier (db w) (Snap.timestamp (snapshot parsed)) = true ->
    tradersTrimmed (positions parsed) = true ->
    let w1 := fst (Express.reconcile env parsed w) in
    let w2 := fst (Express.initializeCopyTradingState env (restart w1)) in
    lastKnownTraders w1 = Express.currentTradersOf (positions parsed)
    /\ forall t : str,
         StrSet.has (lastKnownTraders w2) t = StrSet.has (lastKnownTraders w1) t.
Proof.
  intros env parsed w Hr He Hs Hids Hl Ht w1 w2.
  assert (Hts : forall r, In r (snapshots (db w)) ->
                  (isoMs (Snap.timestamp (row_snapshot r))
                   <= isoMs (Snap.timestamp (snapshot parsed)))%Z).
  { intros r Hin. unfold allEarlier in Hl.
    apply (proj1 (forallb_forall _ _) Hl) in Hin. apply Z.ltb_lt in Hin. lia. }
  assert (L1 : lastKnownTraders w1 = Express.currentTradersOf (positions parsed)).
  { destruct (lastKnownTraders w) as [|t0 l0] eqn:EL.
    - apply (Express_reconcile_silent env parsed w EL). exact Hs.
    - destruct (Express_reconcile_events env parsed w) as (w' & E & _ & L);
        try assumption; [rewrite EL; discriminate|].
      unfold w1. rewrite E. exact L. }
  assert (S1 : snapshots (db w1)
               = snapshots (db w)
                 ++ [{| row_snapshot :=
                          Snap.set_id (Some (N.of_nat (S (List.length (snapshots (db w))))))
                                      (snapshot parsed);
                        row_positions := positions parsed |}]).
  { unfold w1. rewrite (Express_reconcile_unfold env parsed w Hs).
    destruct (Express_detect_total env
                (fst (insertSnapshot (snapshot parsed) (positions parsed) (db w)))
                (positions parsed) (afterSave parsed w)) as (w' & E & S').
    rewrite E. simpl. rewrite S'. reflexivity. }
  split; [exact L1|]. intros t. f_equal.
  rewrite L1, (currentTraders_distinct _ Ht).
  apply (Express_initialize_latest env Hr (snapshots (db w)) (snapshot parsed)
           (positions parsed) (restart w1)); [exact S1|exact Hids|exact Hts].
Qed.

Lemma X9_known_traders_survive_a_restart_witness :
  let env := quietEnv (tickingClock 5000) in
  let w1 := fst (Express.reconcile env (parsedWith 2000 [bob; carol; bob]) knownWorld) in
  let w2 := fst (Express.initializeCopyTradingState env (restart w1)) in
  lastKnownTraders (restart w1) = []
  /\ lastKnownTraders w1 = [bob; carol]
  /\ forall t : str,
       StrSet.has (lastKnownTraders w2) t = StrSet.has (lastKnownTraders w1) t.
Proof.
  intros env w1 w2.
  destruct (X9_known_traders_survive_a_restart env (parsedWith 2000 [bob; carol; bob])
              knownWorld eq_refl (fun _ => eq_refl) eq_refl eq_refl eq_refl eq_refl)
    as (A & B).
  split; [reflexivity|]. split; [exact A|exact B].
Defined.

(* ================================================================== *)
(** * Passes of the Next.js route *)
(* ================================================================== *)

Lemma stamped_app (clock : nat -> Z) (a b : list (isoString -> CopyTradingEvent.t)) :
  forall t, stamped clock t (a ++ b)
            = stamped clock t a ++ stamped clock (t + List.length a) b.
Proof.
  induction a as [|mk a IH]; intros t; simpl.
  - now rewrite Nat.add_0_r.
  - rewrite IH, Nat.add_succ_r. reflexivity.
Qed.

Section NextPasses.
Variable env : Env.
Hypothesis reads : readFails env = false.
Hypothesis eventWrites : forall e, saveEventFails env e = false.

(** The two loops of the detection when no save is rejected: one event
    per trader that passes the test, each stamped with its own reading of
    the clock; nothing but the event log, the console and the clock is
    touched. *)
Lemma Next_added_loop (l : list str) :
  forall w, exists w',
    forEach l
      (fun trader =>
         w <~ getWorld ;;
         if negb (StrSet.has (lastKnownTraders w) trader) then
           logEntry (LogInfo "[COPY-TRADING] New trader detected:" trader) ;;;
           now <~ newDateISO env ;;
           Prisma.saveCopyTradingEvent env (addedEvent now trader) ;;;
           ret tt
         else ret tt) w
    = (w', Ok tt)
    /\ snapshots (db w') = snapshots (db w)
    /\ lastKnownTraders w' = lastKnownTraders w
    /\ events (db w')
       = events (db w)
         ++ stamped (wallClock env) (ticks w)
              (map (fun t ts => addedEvent ts t)
                   (filter (fun t => negb (StrSet.has (lastKnownTraders w) t)) l))
    /\ ticks w'
       = (ticks w
          + List.length (filter (fun t => negb (StrSet.has (lastKnownTraders w) t)) l))%nat.
Proof.
  induction l as [|t l IH]; intros w.
  - exists w. simpl. rewrite app_nil_r, Nat.add_0_r. repeat split.
  - cbn [forEach filter]. unfold bindM at 1, bindM at 1, getWorld at 1.
    destruct (negb (StrSet.has (lastKnownTraders w) t)) eqn:Ht.
    + unfold bindM at 1, logEntry at 1. unfold bindM at 1, newDateISO at 1.
      cbn [db lastKnownTraders tradersInitialized console ticks].
      unfold bindM at 1, Prisma.saveCopyTradingEvent at 1. rewrite eventWrites.
      cbn [insertEvent setDb db lastKnownTraders tradersInitialized console ticks
           events snapshots ret].
      match goal with |- context [forEach l ?f ?w1] =>
        destruct (IH w1) as (w' & E & S1 & L1 & V1 & T1) end.
      exists w'. rewrite E. cbn in S1, L1, V1, T1.
      repeat split; try assumption.
      * rewrite V1. cbn [map stamped List.length]. rewrite <- app_assoc. reflexivity.
      * rewrite T1. cbn [List.length]. unfold StrSet.has. lia.
    + unfold ret at 1.
      destruct (IH w) as (w' & E & S1 & L1 & V1 & T1).
      exists w'. rewrite E. repeat split; assumption.
Qed.

Lemma Next_removed_loop (current : list str) (l : list str) :
  forall w, exists w',
    forEach l
      (fun trader =>
         if negb (StrSet.has current trader) then
           logEntry (LogInfo "[COPY-TRADING] Trader removed:" trader) ;;;
           now <~ newDateISO env ;;
           Prisma.saveCopyTradingEvent env (removedEvent now trader) ;;;
           ret tt
         else ret tt) w
    = (w', Ok tt)
    /\ snapshots (db w') = snapshots (db w)
    /\ events (db w')
       = events (db w)
         ++ stamped (wallClock env) (ticks w)
              (map (fun t ts => removedEvent ts t)
                   (filter (fun t => negb (StrSet.has current t)) l))
    /\ ticks w'
       = (ticks w + List.length (filter (fun t => negb (StrSet.has current t)) l))%nat.
Proof.
  induction l as [|t l IH]; intros w.
  - exists w. simpl. rewrite app_nil_r, Nat.add_0_r. repeat split.
  - cbn [forEach filter]. unfold bindM at 1.
    destruct (negb (StrSet.has current t)) eqn:Ht.
    + unfold bindM at 1, logEntry at 1. unfold bindM at 1, newDateISO at 1.
      cbn [db lastKnownTraders tradersInitialized console ticks].
      unfold bindM at 1, Prisma.saveCopyTradingEvent at 1. rewrite eventWrites.
      cbn [insertEvent setDb db lastKnownTraders tradersInitialized console ticks
           events snapshots ret].
      match goal with |- context [forEach l ?f ?w1] =>
        destruct (IH w1) as (w' & E & S1 & V1 & T1) end.
      exists w'. rewrite E. cbn in S1, V1, T1.
      repeat split; try assumption.
      * rewrite V1. cbn [map stamped List.length]. rewrite <- app_assoc. reflexivity.
      * rewrite T1. cbn [List.length]. unfold StrSet.has. lia.
    + unfold ret at 1.
      destruct (IH w) as (w' & E & S1 & V1 & T1).
      exists w'. rewrite E. repeat split; assumption.
Qed.

End NextPasses.

Section NextFaults.
Variable env : Env.

(** The two loops of the Next.js detection when saves can be rejected:
    the events are saved in order, each stamped with its own reading of
    the clock, up to the first rejected save, where the loop rejects. *)
Lemma Next_added_loop_faults (l : list str) :
  forall w,
    let intended :=
      stamped (wallClock env) (ticks w)
        (map (fun t ts => addedEvent ts t)
             (filter (fun t => negb (StrSet.has (lastKnownTraders w) t)) l)) in
    exists w',
      forEach l
        (fun trader =>
           w <~ getWorld ;;
           if negb (StrSet.has (lastKnownTraders w) trader) then
             logEntry (LogInfo "[COPY-TRADING] New trader detected:" trader) ;;;
             now <~ newDateISO env ;;
             Prisma.saveCopyTradingEvent env (addedEvent now trader) ;;;
             ret tt
           else ret tt) w
      = (w', if forallb (eventSaved env) intended then Ok tt
             else Throw (StorageError "saveCopyTradingEvent"))
      /\ snapshots (db w') = snapshots (db w)
      /\ lastKnownTraders w' = lastKnownTraders w
      /\ events (db w') = events (db w) ++ takeWhile (eventSaved env) intended
      /\ (forallb (eventSaved env) intended = true ->
          ticks w' = (ticks w + List.length intended)%nat).
Proof.
  induction l as [|t l IH]; intros w.
  - exists w. simpl. rewrite app_nil_r, Nat.add_0_r. repeat split.
  - cbn [forEach filter]. unfold bindM at 1, bindM at 1, getWorld at 1.
    destruct (negb (StrSet.has (lastKnownTraders w) t)) eqn:Ht.
    + unfold bindM at 1, logEntry at 1. unfold bindM at 1, newDateISO at 1.
      cbn [db lastKnownTraders tradersInitialized console ticks].
      unfold bindM at 1, Prisma.saveCopyTradingEvent at 1.
      cbn [map stamped forallb takeWhile].
      assert (Hsv : eventSaved env (addedEvent (ISO (wallClock env (ticks w))) t)
                    = negb (saveEventFails env
                              (addedEvent (ISO (wallClock env (ticks w))) t)))
        by reflexivity.
      destruct (saveEventFails env (addedEvent (ISO (wallClock env (ticks w))) t)) eqn:F;
        cbn [negb] in Hsv; rewrite Hsv; cbn [andb].
      * eexists. split; [reflexivity|].
        cbn [db lastKnownTraders tradersInitialized console ticks events snapshots].
        rewrite app_nil_r. repeat split. discriminate.
      * cbn [insertEvent setDb db lastKnownTraders tradersInitialized console ticks
             events snapshots ret].
        match goal with |- context [forEach l ?f ?w1] =>
          destruct (IH w1) as (w' & E & S1 & L1 & V1 & T1) end.
        exists w'. rewrite E. cbn in S1, L1, V1, T1.
        repeat split; try assumption.
        -- rewrite V1. rewrite <- app_assoc. reflexivity.
        -- intros A. rewrite (T1 A). cbn [List.length]. unfold StrSet.has. lia.
    + unfold ret at 1.
      destruct (IH w) as (w' & E & S1 & L1 & V1 & T1).
      exists w'. rewrite E. repeat split; assumption.
Qed.

Lemma Next_removed_loop_faults (current : list str) (l : list str) :
  forall w,
    let intended :=
      stamped (wallClock env) (ticks w)
        (map (fun t ts => removedEvent ts t)
             (filter (fun t => negb (StrSet.has current t)) l)) in
    exists w',
      forEach l
        (fun trader =>
           if negb (StrSet.has current trader) then
             logEntry (LogInfo "[COPY-TRADING] Trader removed:" trader) ;;;
             now <~ newDateISO env ;;
             Prisma.saveCopyTradingEvent env (removedEvent now trader) ;;;
             ret tt
           else ret tt) w
      = (w', if forallb (eventSaved env) intended then Ok tt
             else Throw (StorageError "saveCopyTradingEvent"))
      /\ snapshots (db w') = snapshots (db w)
      /\ lastKnownTraders w' = lastKnownTraders w
      /\ events (db w') = events (db w) ++ takeWhile (eventSaved env) intended.
Proof.
  induction l as [|t l IH]; intros w.
  - exists w. simpl. rewrite app_nil_r. repeat split.
  - cbn [forEach filter]. unfold bindM at 1.
    destruct (negb (StrSet.has current t)) eqn:Ht.
    + unfold bindM at 1, logEntry at 1. unfold bindM at 1, newDateISO at 1.
      cbn [db lastKnownTraders tradersInitialized console ticks].
      unfold bindM at 1, Prisma.saveCopyTradingEvent at 1.
      cbn [map stamped forallb takeWhile].
      assert (Hsv : eventSaved env (removedEvent (ISO (wallClock env (ticks w))) t)
                    = negb (saveEventFails env
                              (removedEvent (ISO (wallClock env (ticks w))) t)))
        by reflexivity.
      destruct (saveEventFails env (removedEvent (ISO (wallClock env (ticks w))) t))
        eqn:F; cbn [negb] in Hsv; rewrite Hsv; cbn [andb].
      * eexists. split; [reflexivity|].
        cbn [db lastKnownTraders tradersInitialized console ticks events snapshots].
        rewrite app_nil_r. repeat split.
      * cbn [insertEvent setDb db lastKnownTraders tradersInitialized console ticks
             events snapshots ret].
        match goal with |- context [forEach l ?f ?w1] =>
          destruct (IH w1) as (w' & E & S1 & L1 & V1) end.
        exists w'. rewrite E. cbn in S1, L1, V1.
        repeat split; try assumption.
        rewrite V1. rewrite <- app_assoc. reflexivity.
    + unfold ret at 1.
      destruct (IH w) as (w' & E & S1 & L1 & V1).
      exists w'. rewrite E. repeat split; assumption.
Qed.

(** A pass of the Next.js route after an accepted save, on a readable
    table with ids in insertion order: a rejected save of an event is not
    caught, the pass rejects with it; the snapshot and the events saved
    before stay, the events after it are not saved, and the known traders
    are replaced only if no save was rejected. *)
Lemma Next_pass_with_faults (parsed : ParsedPortfolio) (w : World) :
  savePortfolioFails env (snapshot parsed) (positions parsed) = false ->
  readFails env = false ->
  rowIds (db w) = true ->
  let newId := N.of_nat (S (List.length (snapshots (db w)))) in
  let newRow := {| row_snapshot := Snap.set_id (Some newId) (snapshot parsed);
                   row_positions := positions parsed |} in
  let current := distinctCopiedFrom (positions parsed) in
  let intended :=
    stamped (wallClock env) (ticks w) (changeMakers (lastKnownTraders w) current) in
  exists w',
    NextApp.reconcile env parsed w
    = (w', if forallb (eventSaved env) intended then Ok newId
           else Throw (StorageError "saveCopyTradingEvent"))
    /\ snapshots (db w') = snapshots (db w) ++ [newRow]
    /\ events (db w') = events (db w) ++ takeWhile (eventSaved env) intended
    /\ lastKnownTraders w'
       = (if forallb (eventSaved env) intended then current else lastKnownTraders w).
Proof.
  intros Hs Hr Hids newId newRow current intended.
  destruct (insertSnapshot_found (snapshot parsed) (positions parsed) (db w) Hids)
    as (Ei & Hf & _).
  unfold NextApp.reconcile, bindM at 1.
  rewrite (Prisma_save_accepted env _ _ _ Hs), Ei. cbn [fst snd].
  unfold bindM at 1, NextApp.detectCopyTradingChanges, bindM at 1,
    Prisma.getUniqueTraders at 1.
  rewrite Hr. cbn [setDb db snapshots]. rewrite Hf. cbn [row_positions].
  fold current. fold newId. fold newRow.
  replace (StrSet.ofList current) with current
    by (symmetry; apply ofList_ofList).
  unfold bindM at 1.
  match goal with |- context [forEach current ?f ?w1] =>
    destruct (Next_added_loop_faults current w1) as (w2 & E2 & S2 & L2 & V2 & T2) end.
  rewrite E2. clear E2.
  cbn [lastKnownTraders ticks db events snapshots setDb] in *.
  unfold intended, changeMakers. rewrite stamped_app, forallb_app, takeWhile_app.
  rewrite length_map.
  set (A := stamped (wallClock env) (ticks w)
              (map (fun t ts => addedEvent ts t)
                   (filter (fun t => negb (StrSet.has (lastKnownTraders w) t)) current)))
    in *.
  destruct (forallb (eventSaved env) A) eqn:HA; cbn [andb].
  - unfold bindM at 1, getWorld at 1. unfold bindM at 1.
    destruct (Next_removed_loop_faults current (lastKnownTraders w2) w2)
      as (w3 & E3 & S3 & L3 & V3).
    rewrite E3. clear E3. rewrite L2, (T2 eq_refl) in *.
    rewrite (takeWhile_all _ _ HA) in V2.
    replace (List.length A)
      with (List.length (filter (fun t => negb (StrSet.has (lastKnownTraders w) t))
                                current)) in *.
    2:{ unfold A. clear. generalize (ticks w).
        induction (filter _ current) as [|x l IH]; intros n; [reflexivity|].
        cbn [map stamped List.length]. now rewrite <- IH. }
    match goal with |- context [forallb (eventSaved env) ?R] =>
      destruct (forallb (eventSaved env) R) eqn:HR end.
    + cbn [setLastKnownTraders ret bindM]. unfold bindM, setLastKnownTraders, ret.
      eexists. split; [reflexivity|]. cbn [db lastKnownTraders snapshots events].
      rewrite S3, S2, V3, V2, <- app_assoc. repeat split.
    + eexists. split; [reflexivity|].
      rewrite S3, S2, V3, V2, L3, <- app_assoc. repeat split.
  - eexists. split; [reflexivity|]. rewrite S2, V2, L2. repeat split.
Qed.

End NextFaults.

(** C7.  What a rejected write does to a reconciliation pass, in both
    servers.  Neither catches per trader.

    The snapshot write.  In the Express server a rejected save of the
    snapshot or of one of its positions reaches the caller as it is; no
    event is saved, nothing is logged and the known traders stay.  The
    save is not a transaction: when the snapshot row was accepted and a
    position was rejected, the row stays in the table with the positions
    that were accepted.  In the Next.js route a rejected create reaches
    the caller and writes nothing.

    The events, after an accepted save.  In the Express server the pass
    resolves with the new id and the snapshot stays; when the table can be
    read and traders are known, the events of the change are saved in
    order up to the first rejected one, whose rejection is caught by the
    one [try] block around the detection and logged once: the events
    after it are not saved and [lastKnownTraders] keeps its value.  In
    the Next.js route nothing catches it: the pass rejects with the
    rejection of the event, the snapshot and the events saved before it
    stay, the events after it are not saved and [lastKnownTraders] keeps
    its value. *)
Theorem C7_event_failure_ends_the_detection :
  forall (env : Env) (parsed : ParsedPortfolio) (w : World),
    let newId := N.of_nat (S (List.length (snapshots (db w)))) in
    let newRow := {| row_snapshot := Snap.set_id (Some newId) (snapshot parsed);
                     row_positions := positions parsed |} in
    (savePortfolioFails env (snapshot parsed) (positions parsed) = true ->
     exists w',
       Express.reconcile env parsed w = (w', Throw (StorageError "savePortfolio"))
       /\ events (db w') = events (db w)
       /\ lastKnownTraders w' = lastKnownTraders w
       /\ console w' = console w
       /\ snapshots (db w')
          = (if snapshotRejected env (snapshot parsed) then snapshots (db w)
             else snapshots (db w)
                  ++ [{| row_snapshot := Snap.set_id (Some newId) (snapshot parsed);
                         row_positions := acceptedPositions env (positions parsed) |}]))
    /\ (snapshotInsertFails env (snapshot parsed)
        || existsb (positionInsertFails env) (positions parsed) = true ->
        NextApp.reconcile env parsed w = (w, Throw (StorageError "savePortfolio")))
    /\ (savePortfolioFails env (snapshot parsed) (positions parsed) = false ->
        (exists w',
            Express.reconcile env parsed w = (w', Ok newId)
            /\ snapshots (db w') = snapshots (db w) ++ [newRow]
            /\ (readFails env = false -> lastKnownTraders w <> [] ->
                exists r,
                  latestRow (snapshots (db w')) None = Some r
                  /\ let intended :=
                       changeEvents (Snap.timestamp (row_snapshot r))
                                    (lastKnownTraders w)
                                    (Express.currentTradersOf (positions parsed)) in
                     events (db w') = events (db w) ++ takeWhile (eventSaved env) intended
                     /\ lastKnownTraders w'
                        = (if forallb (eventSaved env) intended
                           then Express.currentTradersOf (positions parsed)
                           else lastKnownTraders w)
                     /\ console w'
                        = console w
                          ++ map detectedLine (takeWhile (eventSaved env) intended)
                          ++ (if forallb (eventSaved env) intended then []
                              else [LogError "Error detecting copy trading changes:"
                                             (StorageError "saveCopyTradingEvent")])))
        /\ (readFails env = false -> rowIds (db w) = true ->
            let current := distinctCopiedFrom (positions parsed) in
            let intended :=
              stamped (wallClock env) (ticks w)
                      (changeMakers (lastKnownTraders w) current) in
            exists w',
              NextApp.reconcile env parsed w
              = (w', if forallb (eventSaved env) intended then Ok newId
                     else Throw (StorageError "saveCopyTradingEvent"))
              /\ snapshots (db w') = snapshots (db w) ++ [newRow]
              /\ events (db w') = events (db w) ++ takeWhile (eventSaved env) intended
              /\ lastKnownTraders w'
                 = (if forallb (eventSaved env) intended
                    then current else lastKnownTraders w))).
Proof.
  intros env parsed w newId newRow. split; [|split].
  - intros H. rewrite (Express_reconcile_write_fails env parsed w H).
    eexists. split; [reflexivity|].
    destruct (snapshotRejected env (snapshot parsed)); repeat split.
  - intros H. unfold NextApp.reconcile, bindM, Prisma.savePortfolio.
    rewrite H. reflexivity.
  - intros H. split.
    + exact (Express_pass_with_faults env parsed w H).
    + intros Hr Hids. exact (Next_pass_with_faults env parsed w H Hr Hids).
Qed.

Lemma C7_event_failure_ends_the_detection_witness :
  (parsePortfolioResponse 0 garbledPnlText (Some (ValidDate 2000)) = Ok garbledPnl
   /\ map Position.pnl_usd (positions garbledPnl) = [NaN]
   /\ exists w',
        Express.reconcile carolFails garbledPnl knownWorld
        = (w', Throw (StorageError "savePortfolio"))
        /\ events (db w') = events (db knownWorld)
        /\ lastKnownTraders w' = [alice; bob]
        /\ map (fun r => List.length (row_positions r)) (snapshots (db w'))
           = [2%nat; 0%nat])
  /\ (exists w',
         Express.reconcile carolFails (parsedWith 2000 [dave; carol; alice]) knownWorld
         = (w', Ok 2)
         /\ List.length (snapshots (db w')) = 2%nat
         /\ events (db w') = events (db knownWorld) ++ [addedEvent (ISO 2000) dave]
         /\ lastKnownTraders w' = [alice; bob]
         /\ console w'
            = console knownWorld
              ++ [detectedLine (addedEvent (ISO 2000) dave);
                  LogError "Error detecting copy trading changes:"
                           (StorageError "saveCopyTradingEvent")])
  /\ (exists w',
         NextApp.reconcile carolFails (parsedWith 2000 [dave; carol; alice]) knownWorld
         = (w', Throw (StorageError "saveCopyTradingEvent"))
         /\ List.length (snapshots (db w')) = 2%nat
         /\ events (db w')
            = events (db knownWorld)
              ++ [addedEvent (ISO (wallClock carolFails (ticks knownWorld))) dave]
         /\ lastKnownTraders w' = [alice; bob]).
Proof.
  split; [|split].
  - split; [vm_compute; reflexivity|]. split; [vm_compute; reflexivity|].
    destruct (C7_event_failure_ends_the_detection carolFails garbledPnl knownWorld)
      as (A & _ & _).
    destruct (A ltac:(vm_compute; reflexivity)) as (w' & E & V & L & _ & S1).
    exists w'. split; [exact E|]. split; [exact V|]. split; [exact L|].
    rewrite S1. vm_compute. reflexivity.
  - destruct (C7_event_failure_ends_the_detection
                carolFails (parsedWith 2000 [dave; carol; alice]) knownWorld)
      as (_ & _ & B).
    destruct (B eq_refl) as ((w' & E & S1 & D) & _).
    destruct (D eq_refl ltac:(discriminate)) as (r & Hl & V & L & C).
    rewrite S1 in Hl. vm_compute in Hl. inversion Hl; subst r. clear Hl.
    exists w'. split; [exact E|]. split; [rewrite S1; reflexivity|].
    split; [rewrite V; vm_compute; reflexivity|].
    split; [rewrite L; vm_compute; reflexivity|].
    rewrite C. vm_compute. reflexivity.
  - destruct (C7_event_failure_ends_the_detection
                carolFails (parsedWith 2000 [dave; carol; alice]) knownWorld)
      as (_ & _ & B).
    destruct (B eq_refl) as (_ & N1).
    destruct (N1 eq_refl eq_refl) as (w' & E & S1 & V & L).
    exists w'. split; [exact E|]. split; [rewrite S1; reflexivity|].
    split; [rewrite V; vm_compute; reflexivity|].
    rewrite L. vm_compute. reflexivity.
Defined.

(** A pass of the Next.js route in which nothing is rejected. *)
Lemma Next_reconcile_events :
  forall (env : Env) (parsed : ParsedPortfolio) (w : World),
    readFails env = false ->
    (forall e, saveEventFails env e = false) ->
    savePortfolioFails env (snapshot parsed) (positions parsed) = false ->
    rowIds (db w) = true ->
    let current := distinctCopiedFrom (positions parsed) in
    let makers := changeMakers (lastKnownTraders w) current in
    exists w',
      NextApp.reconcile env parsed w
      = (w', Ok (N.of_nat (S (List.length (snapshots (db w))))))
      /\ newEvents w w' = stamped (wallClock env) (ticks w) makers
      /\ ticks w' = (ticks w + List.length makers)%nat
      /\ lastKnownTraders w' = current.
Proof.
  intros env parsed w Hr He Hs Hids current makers.
  destruct (insertSnapshot_found (snapshot parsed) (positions parsed) (db w) Hids)
    as (Ei & Hf & _).
  unfold NextApp.reconcile, bindM at 1.
  rewrite (Prisma_save_accepted env _ _ _ Hs), Ei. cbn [fst snd].
  unfold bindM at 1, NextApp.detectCopyTradingChanges, bindM at 1,
    Prisma.getUniqueTraders at 1.
  rewrite Hr. cbn [setDb db snapshots]. rewrite Hf. cbn [row_positions].
  fold current.
  replace (StrSet.ofList current) with current
    by (symmetry; apply ofList_ofList).
  unfold bindM at 1.
  match goal with |- context [forEach current ?f ?w1] =>
    destruct (Next_added_loop env He current w1) as (w2 & E2 & S2 & L2 & V2 & T2) end.
  rewrite E2. unfold bindM at 1, getWorld at 1. unfold bindM at 1.
  destruct (Next_removed_loop env He current (lastKnownTraders w2) w2)
    as (w3 & E3 & S3 & V3 & T3).
  rewrite E3. cbn [setLastKnownTraders ret].
  eexists. split; [reflexivity|].
  cbn [db lastKnownTraders ticks setDb events snapshots] in *.
  unfold makers, changeMakers. rewrite stamped_app, length_app, !length_map.
  rewrite L2 in V3, T3. rewrite T2 in V3.
  split; [|split; [|reflexivity]].
  - unfold newEvents. cbn [db events]. rewrite V3, V2, <- app_assoc.
    cbn [events]. rewrite skipn_app_exact. reflexivity.
  - cbn [ticks]. rewrite T3, T2. lia.
Qed.

(** X10.  A pass of the Next.js route in which nothing is rejected, on a
    table with ids in insertion order, saves the snapshot and then one
    event per trader that was added and one per trader that was removed,
    the added ones first, whether or not any trader was known before; the
    n-th of these events carries the n-th reading of the wall clock made
    during the pass, not the timestamp of the snapshot.  The known traders
    become the distinct [copied_from] texts of the stored positions. *)
Theorem X10_next_pass_stamps_events_with_the_clock :
  forall (env : Env) (parsed : ParsedPortfolio) (w : World),
    readFails env = false ->
    (forall e, saveEventFails env e = false) ->
    savePortfolioFails env (snapshot parsed) (positions parsed) = false ->
    rowIds (db w) = true ->
    let current := distinctCopiedFrom (positions parsed) in
    let makers := changeMakers (lastKnownTraders w) current in
    exists w',
      NextApp.reconcile env parsed w
      = (w', Ok (N.of_nat (S (List.length (snapshots (db w))))))
      /\ newEvents w w' = stamped (wallClock env) (ticks w) makers
      /\ ticks w' = (ticks w + List.length makers)%nat
      /\ lastKnownTraders w' = current.
Proof.
  intros env parsed w Hr He Hs Hids.
  exact (Next_reconcile_events env parsed w Hr He Hs Hids).
Qed.

Lemma X10_next_pass_stamps_events_with_the_clock_witness :
  let env := quietEnv (tickingClock 5000) in
  let w1 := fst (NextApp.reconcile env (parsedWith 1000 [alice; bob]) freshWorld) in
  exists w',
    NextApp.reconcile env (parsedWith 2000 [bob; carol]) w1 = (w', Ok 2)
    /\ newEvents w1 w'
       = [addedEvent (ISO 5002) carol; removedEvent (ISO 5003) alice]
    /\ ticks w' = 4%nat
    /\ lastKnownTraders w' = [bob; carol].
Proof.
  intros env w1.
  apply (X10_next_pass_stamps_events_with_the_clock
           env (parsedWith 2000 [bob; carol]) w1);
    reflexivity.
Defined.

(* ================================================================== *)
(** * The backfill loop of the Next.js route *)
(* ================================================================== *)

Lemma window_abs (t ms : Z) :
  ((ms - 5 * 60 * 1000 <=? t) && (t <=? ms + 5 * 60 * 1000))%Z
  = (Z.abs (t - ms) <=? 300000)%Z.
Proof.
  destruct (Z.abs (t - ms) <=? 300000)%Z eqn:E.
  - apply Z.leb_le in E. apply andb_true_iff. split; apply Z.leb_le; lia.
  - apply Z.leb_gt in E. apply andb_false_iff.
    destruct (Z.leb_spec (ms - 5 * 60 * 1000) t); [right|left; reflexivity].
    apply Z.leb_gt. lia.
Qed.

Lemma spacedWide_snoc (ts : list Z) (t : Z) :
  spacedWide (ts ++ [t]) = spacedWide ts && negb (withinWindow ts t).
Proof.
  induction ts as [|u ts IH]; simpl; [reflexivity|].
  rewrite forallb_app, IH. simpl.
  rewrite (Z.ltb_antisym (Z.abs (u - t)) 300000).
  destruct (forallb (fun u0 => (300000 <? Z.abs (u - u0))%Z) ts), (spacedWide ts),
    (Z.abs (u - t) <=? 300000)%Z, (withinWindow ts t); reflexivity.
Qed.

Section NextBackfill.
Variable env : Env.

(** One round of the loop never rejects.  It skips, or fails and logs the
    failure, or saves the message under its own date with whatever was
    parsed; it saves only after the table was read and showed no snapshot
    within the window. *)
Lemma Next_processMessage_cases (msg : Express.Message) (c : NextHistorical.Tally)
      (w : World) :
  exists w' c',
    NextHistorical.processMessage env msg c w = (w', Ok c')
    /\ events (db w') = events (db w)
    /\ ((timesOf (db w') = timesOf (db w)
         /\ console w' = console w
         /\ c' = {| NextHistorical.savedCount := NextHistorical.savedCount c;
                    NextHistorical.skippedCount := S (NextHistorical.skippedCount c) |})
        \/ (timesOf (db w') = timesOf (db w)
            /\ List.length (console w') = S (List.length (console w))
            /\ c' = c)
        \/ (exists ms parsed,
              Express.date msg = ValidDate ms
              /\ parsePortfolioResponse 0 (Express.message msg) (Some (ValidDate ms))
                 = Ok parsed
              /\ withinWindow (timesOf (db w)) ms = false
              /\ db w' = snd (insertSnapshot (snapshot parsed) (positions parsed) (db w))
              /\ timesOf (db w') = timesOf (db w) ++ [ms]
              /\ console w' = console w
              /\ c' = {| NextHistorical.savedCount := S (NextHistorical.savedCount c);
                         NextHistorical.skippedCount := NextHistorical.skippedCount c |})).
Proof.
  destruct (NextHistorical.processMessage env msg c w) as [w1 r] eqn:E.
  revert E.
  unfold NextHistorical.processMessage, tryCatch, bindM, liftResult,
    Prisma.snapshotExistsNearTimestamp, Prisma.savePortfolio, logEntry, ret.
  destruct (Express.date msg) as [ms|] eqn:Hd; simpl toISOString; cbv iota beta.
  2:{ intros E; inversion E; subst. eexists _, _. split; [reflexivity|].
      split; [reflexivity|]. right; left. simpl. rewrite length_app. simpl.
      repeat split. lia. }
  destruct (readFails env) eqn:Hr; cbv iota beta.
  { intros E; inversion E; subst. eexists _, _. split; [reflexivity|].
    split; [reflexivity|]. right; left. simpl. rewrite length_app. simpl.
    repeat split. lia. }
  cbv zeta. cbn [isoMs].
  assert (Hw : existsb
                 (fun r => ((ms - 5 * 60 * 1000 <=? isoMs (Snap.timestamp (row_snapshot r)))
                            && (isoMs (Snap.timestamp (row_snapshot r))
                                <=? ms + 5 * 60 * 1000))%Z)
                 (snapshots (db w))
               = withinWindow (timesOf (db w)) ms).
  { unfold withinWindow, timesOf.
    induction (snapshots (db w)) as [|r0 rows IH]; [reflexivity|].
    cbn [existsb map]. rewrite IH, window_abs. reflexivity. }
  rewrite Hw.
  destruct (withinWindow (timesOf (db w)) ms) eqn:Hn; cbv iota beta.
  { intros E; inversion E; subst. eexists _, _. split; [reflexivity|].
    split; [reflexivity|]. left. repeat split. }
  destruct (parsePortfolioResponse 0 (Express.message msg) (Some (ValidDate ms)))
    as [parsed|e] eqn:Hp; cbv iota beta.
  2:{ intros E; inversion E; subst. eexists _, _. split; [reflexivity|].
      split; [reflexivity|]. right; left. simpl. rewrite length_app. simpl.
      repeat split. lia. }
  destruct (snapshotInsertFails env (snapshot parsed)
            || existsb (positionInsertFails env) (positions parsed)) eqn:Hs;
    cbv iota beta.
  { intros E; inversion E; subst. eexists _, _. split; [reflexivity|].
    split; [reflexivity|]. right; left. simpl. rewrite length_app. simpl.
    repeat split. lia. }
  intros E; inversion E; subst. eexists _, _. split; [reflexivity|].
  split; [reflexivity|]. right; right. exists ms, parsed.
  repeat split; try assumption.
  unfold timesOf. simpl. rewrite map_app. simpl.
  rewrite (parse_time _ _ _ Hp). reflexivity.
Qed.

Lemma Next_processAll_counts (msgs : list Express.Message) :
  forall (c : NextHistorical.Tally) (w : World),
    exists w' c',
      NextHistorical.processAll env msgs c w = (w', Ok c')
      /\ (NextHistorical.savedCount c' + NextHistorical.skippedCount c'
          + List.length (console w')
          = NextHistorical.savedCount c + NextHistorical.skippedCount c
            + List.length (console w) + List.length msgs)%nat
      /\ (List.length (timesOf (db w')) + NextHistorical.savedCount c
          = List.length (timesOf (db w)) + NextHistorical.savedCount c')%nat
      /\ (List.length (console w) <= List.length (console w'))%nat
      /\ events (db w') = events (db w).
Proof.
  induction msgs as [|msg msgs IH]; intros c w; simpl.
  - exists w, c. repeat split; lia.
  - unfold bindM.
    destruct (Next_processMessage_cases msg c w)
      as (w1 & c1 & E1 & V1 &
          [(T1 & C1 & ->)|[(T1 & C1 & ->)|(ms & parsed & _ & _ & _ & _ & T1 & C1 & ->)]]);
      rewrite E1;
      match goal with |- context [NextHistorical.processAll env msgs ?c1 w1] =>
        destruct (IH c1 w1) as (w' & c' & E' & N & R & K & V) end;
      exists w', c'; (split; [exact E'|]);
      rewrite T1 in R; rewrite C1 in N, K; try rewrite length_app in R; simpl in *;
      repeat split; try congruence; try lia.
Qed.

Lemma Next_processAll_spaced (msgs : list Express.Message) :
  forall (c : NextHistorical.Tally) (w : World),
    spacedWide (timesOf (db w)) = true ->
    spacedWide (timesOf (db (fst (NextHistorical.processAll env msgs c w)))) = true.
Proof.
  induction msgs as [|msg msgs IH]; intros c w Hs; simpl; [exact Hs|].
  destruct (Next_processMessage_cases msg c w)
    as (w1 & c1 & E1 & _ &
        [(T1 & _)|[(T1 & _)|(ms & parsed & _ & _ & Hn & _ & T1 & _)]]);
    unfold bindM; rewrite E1; apply IH; rewrite T1; try exact Hs.
  rewrite spacedWide_snoc, Hs, Hn. reflexivity.
Qed.

End NextBackfill.

(** X11.  The backfill of the Next.js route never rejects.  Every message
    is saved, skipped or fails, and a failure is logged but not counted:
    the two counts and the new console lines add up to the number of
    messages.  The table grows by one row per saved message, and the event
    log is not touched. *)
Theorem X11_next_backfill_counts_no_failures :
  forall (env : Env) (messages : list Express.Message) (w : World),
    exists w' c,
      NextHistorical.backfill env messages w = (w', Ok c)
      /\ (NextHistorical.savedCount c + NextHistorical.skippedCount c
          + (List.length (console w') - List.length (console w))
          = List.length messages)%nat
      /\ (List.length (console w) <= List.length (console w'))%nat
      /\ List.length (snapshots (db w'))
         = (List.length (snapshots (db w)) + NextHistorical.savedCount c)%nat
      /\ events (db w') = events (db w).
Proof.
  intros env messages w. unfold NextHistorical.backfill.
  destruct (Next_processAll_counts env messages
              {| NextHistorical.savedCount := 0; NextHistorical.skippedCount := 0 |} w)
    as (w' & c & E & N & R & K & V).
  exists w', c. split; [exact E|].
  unfold timesOf in R. rewrite !length_map in R. simpl in N, R.
  repeat split; try assumption; lia.
Qed.

(** X12.  A backfill of the Next.js route keeps the stored snapshots more
    than five minutes apart, whatever the database rejects: a message is
    saved only after the table was read and showed no snapshot within five
    minutes of its date. *)
Theorem X12_next_backfill_keeps_snapshots_apart :
  forall (env : Env) (messages : list Express.Message) (w : World),
    spacedWide (timesOf (db w)) = true ->
    spacedWide (timesOf (db (fst (NextHistorical.backfill env messages w)))) = true.
Proof.
  intros env messages w Hs. unfold NextHistorical.backfill.
  apply Next_processAll_spaced. exact Hs.
Qed.

Lemma X12_next_backfill_keeps_snapshots_apart_witness :
  spacedWide (timesOf (db oneSnapshotWorld)) = true
  /\ snd (NextHistorical.backfill (quietEnv (tickingClock 5000)) backfillBatch
            oneSnapshotWorld)
     = Ok {| NextHistorical.savedCount := 1; NextHistorical.skippedCount := 2 |}
  /\ timesOf (db (fst (NextHistorical.backfill (quietEnv (tickingClock 5000))
                         backfillBatch oneSnapshotWorld)))
     = [0; 600000]%Z
  /\ spacedWide (timesOf (db (fst (NextHistorical.backfill (quietEnv (tickingClock 5000))
                                     backfillBatch oneSnapshotWorld)))) = true.
Proof.
  split; [reflexivity|]. split; [vm_compute; reflexivity|].
  split; [vm_compute; reflexivity|].
  apply (X12_next_backfill_keeps_snapshots_apart
           (quietEnv (tickingClock 5000)) backfillBatch oneSnapshotWorld).
  reflexivity.
Defined.

Lemma window_near (ts : list Z) (ms : Z) :
  withinWindow ts ms = false -> nearOne ts ms = false.
Proof.
  unfold withinWindow, nearOne. induction ts as [|t ts IH]; [reflexivity|].
  cbn [existsb]. intros H. apply orb_false_iff in H as [H1 H2].
  rewrite (IH H2), orb_false_r.
  apply Z.leb_gt in H1. apply Z.ltb_ge. lia.
Qed.

(** A round of the Next.js loop on a message with a valid date, no stored
    snapshot within the window, and a parse that returns: the message is
    saved, whatever was parsed. *)
Lemma Next_processMessage_far (env : Env) (msg : Express.Message)
      (c : NextHistorical.Tally) (w : World) (ms : Z) (parsed : ParsedPortfolio) :
  readFails env = false ->
  Express.date msg = ValidDate ms ->
  withinWindow (timesOf (db w)) ms = false ->
  parsePortfolioResponse 0 (Express.message msg) (Some (ValidDate ms)) = Ok parsed ->
  savePortfolioFails env (snapshot parsed) (positions parsed) = false ->
  NextHistorical.processMessage env msg c w
  = (setDb (snd (insertSnapshot (snapshot parsed) (positions parsed) (db w))) w,
     Ok {| NextHistorical.savedCount := S (NextHistorical.savedCount c);
           NextHistorical.skippedCount := NextHistorical.skippedCount c |}).
Proof.
  intros Hr Hd Hn Hp Hs.
  unfold NextHistorical.processMessage, tryCatch, bindM, liftResult,
    Prisma.snapshotExistsNearTimestamp, logEntry, ret.
  rewrite Hd. simpl toISOString. cbv iota beta. rewrite Hr. cbv zeta. cbn [isoMs].
  replace (existsb _ (snapshots (db w))) with (withinWindow (timesOf (db w)) ms).
  2:{ unfold withinWindow, timesOf.
      induction (snapshots (db w)) as [|r0 rows IH]; [reflexivity|].
      cbn [existsb map]. rewrite IH, window_abs. reflexivity. }
  rewrite Hn, Hp. cbv iota beta.
  rewrite (Prisma_save_accepted env _ _ _ Hs). reflexivity.
Qed.

(** X13.  The two backfills differ on a reply without data.  For a message
    with a valid date whose parse returns but finds no positive balance,
    no position and no reported count, with no stored snapshot within five
    minutes and nothing rejected: the Express server counts it as skipped
    and writes nothing, the Next.js route saves it and counts it as
    saved. *)
Theorem X13_reply_without_data_skipped_by_express_saved_by_next :
  forall (env : Env) (msg : Express.Message) (ms : Z) (parsed : ParsedPortfolio)
         (w : World) (c : Express.Counters) (c' : NextHistorical.Tally),
    readFails env = false ->
    savePortfolioFails env (snapshot parsed) (positions parsed) = false ->
    Express.date msg = ValidDate ms ->
    parsePortfolioResponse 0 (Express.message msg) (Some (ValidDate ms)) = Ok parsed ->
    hasData parsed = false ->
    withinWindow (timesOf (db w)) ms = false ->
    (exists w1,
       Express.processMessage env msg c w = (w1, Ok (skipOne c)) /\ db w1 = db w)
    /\ NextHistorical.processMessage env msg c' w
       = (setDb (snd (insertSnapshot (snapshot parsed) (positions parsed) (db w))) w,
          Ok {| NextHistorical.savedCount := S (NextHistorical.savedCount c');
                NextHistorical.skippedCount := NextHistorical.skippedCount c' |}).
Proof.
  intros env msg ms parsed w c c' Hr Hs Hd Hp Hh Hn. split.
  - destruct (processMessage_far env msg c w ms parsed) as (w1 & E & D);
      try assumption.
    + apply nearStored_outside. exact Hn.
    + rewrite Hd. exact Hp.
    + rewrite Hh in E, D. exists w1. split; assumption.
  - apply Next_processMessage_far with (ms := ms); assumption.
Qed.

Lemma X13_reply_without_data_skipped_by_express_saved_by_next_witness :
  let env := quietEnv (tickingClock 5000) in
  (exists w1,
     Express.processMessage env emptyAccountMessage noCounts freshWorld
     = (w1, Ok (skipOne noCounts)) /\ snapshots (db w1) = [])
  /\ List.length
       (snapshots (db (fst (NextHistorical.processMessage env emptyAccountMessage
                              {| NextHistorical.savedCount := 0;
                                 NextHistorical.skippedCount := 0 |} freshWorld))))
     = 1%nat.
Proof.
  intros env.
  destruct (X13_reply_without_data_skipped_by_express_saved_by_next
              env emptyAccountMessage 600000 {| snapshot := emptySnapshot (ISO 600000);
                                                positions := [] |}
              freshWorld noCounts
              {| NextHistorical.savedCount := 0; NextHistorical.skippedCount := 0 |}
              eq_refl eq_refl eq_refl eq_refl eq_refl eq_refl) as ((w1 & E & D) & N).
  split.
  - exists w1. split; [exact E|]. rewrite D. reflexivity.
  - rewrite N. reflexivity.
Defined.

(* ================================================================== *)
(** * Where the parser returns *)
(* ================================================================== *)

(** The lines before the first position line do nothing in the second
    loop. *)
Lemma secondPassFrom_section (lines : list str) :
  forall st,
    inPositionsSection st = false ->
    secondPassFrom lines st = secondPassFrom (positionsSection lines) st.
Proof.
  induction lines as [|line lines IH]; intros st Hs; [reflexivity|].
  cbn [positionsSection].
  destruct (isFirstPositionLine line) eqn:E; [reflexivity|].
  cbn [secondPassFrom]. unfold positionLine. rewrite Hs, E. cbn [andb orb negb bind].
  rewrite <- (IH st Hs). destruct st as [c p i]. simpl in Hs. subst i. reflexivity.
Qed.

Lemma header_returns (text : str) (ts : isoString) :
  exists s1,
    match exec true Patterns.positionsHeader text with
    | Some headerMatch =>
        g <- getGroup 1 headerMatch ;;
        Ok (Snap.set_total_positions (Number.parseInt g) (emptySnapshot ts))
    | None => Ok (emptySnapshot ts)
    end = Ok s1.
Proof.
  destruct (exec true Patterns.positionsHeader text) as [hm|] eqn:E; [|eauto].
  destruct (exec_binds _ _ _ _ 1%nat E eq_refl) as (g & ->). cbn [bind]. eauto.
Qed.

Lemma parse_returns_when_positions_return (now : Z) (text : str) (timestamp : option Date)
      (ts : isoString) (ps : list Position.t) :
  toISOString (stampDate now timestamp) = Ok ts ->
  secondPass (linesOf text) = Ok ps ->
  exists s, parsePortfolioResponse now text timestamp
            = Ok {| snapshot := s; positions := ps |}.
Proof.
  intros Hts Hps. unfold parsePortfolioResponse.
  replace (match timestamp with
           | Some d => toISOString d
           | None => toISOString (ValidDate now)
           end) with (Ok ts)
    by (rewrite <- Hts; destruct timestamp; reflexivity).
  cbn [bind]. destruct (header_returns text ts) as (s1 & ->). cbn [bind].
  destruct (firstPass_returns (linesOf text) s1) as (s2 & ->). cbn [bind].
  rewrite Hps. cbn [bind]. eauto.
Qed.

(** X14.  A text makes the parser throw only by a line of the positions
    section that mentions "copied", "from" or "copy trade by".  When no
    line from the first position line on mentions them, the parser returns
    a result, without a timestamp and with every valid one; such lines
    before the first position line do no harm.  A message without a
    position line has no positions. *)
Theorem X14_parser_returns_unless_the_positions_section_has_a_copy_line :
  forall (now : Z) (text : str) (timestamp : option Date) (ts : isoString),
    toISOString (stampDate now timestamp) = Ok ts ->
    forallb (fun l => negb (mentionsCopy l)) (positionsSection (linesOf text)) = true ->
    exists r,
      parsePortfolioResponse now text timestamp = Ok r
      /\ (positionsSection (linesOf text) = [] -> positions r = []).
Proof.
  intros now text timestamp ts Hts Hc.
  destruct (secondPassFrom_returns _ Hc initialPass) as (ps & Hps).
  rewrite <- secondPassFrom_section in Hps by reflexivity.
  destruct (parse_returns_when_positions_return now text timestamp ts ps Hts Hps)
    as (s & E).
  eexists. split; [exact E|]. cbn [positions].
  intros He. unfold secondPass in Hps.
  rewrite secondPassFrom_section, He in Hps by reflexivity.
  simpl in Hps. inversion Hps. reflexivity.
Qed.

Lemma X14_parser_returns_unless_the_positions_section_has_a_copy_line_witness :
  existsb mentionsCopy (linesOf copyLineFirstText) = true
  /\ positionsSection (linesOf copyLineFirstText) = [`"#1. Will X happen?"]
  /\ exists r,
       parsePortfolioResponse 0 copyLineFirstText (Some (ValidDate 5)) = Ok r
       /\ (positionsSection (linesOf copyLineFirstText) = [] -> positions r = []).
Proof.
  split; [reflexivity|]. split; [reflexivity|].
  apply (X14_parser_returns_unless_the_positions_section_has_a_copy_line
           0 copyLineFirstText (Some (ValidDate 5)) (ISO 5));
    reflexivity.
Defined.

(* ================================================================== *)
(** * The positions that the parser returns *)
(* ================================================================== *)

Lemma orZero_isNumber (v : option number) : isNumber (Number.orZero v) = true.
Proof.
  destruct v as [[|q]|]; simpl; try reflexivity.
  destruct (negb (Qeq_bool q 0)); reflexivity.
Qed.

Lemma eqb_refl (s : str) : JS.eqb s s = true.
Proof. now apply eqb_spec. Qed.

Lemma extractTextAfter_trimmed (line : str) (t : option str) :
  extractTextAfter line = Ok t ->
  match orNull t with
  | Some c => (0 <? List.length c)%nat && JS.eqb (JS.trim c) c
  | None => true
  end = true.
Proof.
  unfold extractTextAfter.
  destruct (exec true Patterns.textAfterKeyword line) as [r|];
    [|intros H; inversion H; reflexivity].
  destruct (getGroup 1 r) as [g|e]; cbn [bind]; intros H; inversion H; subst.
  unfold orNull. destruct (JS.trim g) as [|c s] eqn:E; [reflexivity|].
  rewrite <- E, trim_idem, eqb_refl, E. reflexivity.
Qed.

(** A detail line keeps the question and keeps the filled fields filled. *)
Lemma detailLine_filled (line : str) (p p' : Position.t) :
  detailLine line p = Ok p' ->
  Position.market_question p' = Position.market_question p
  /\ (fieldsFilled p = true -> fieldsFilled p' = true).
Proof.
  unfold detailLine, fieldsFilled.
  destruct (extractNumber_returns line) as (v & ->). cbn [bind].
  pose proof (orZero_isNumber v) as Hv.
  repeat match goal with
         | |- context [if ?b then _ else _] => destruct b
         end;
    try (intros H; inversion H; subst; cbn; split; [reflexivity|];
         intros F; repeat (apply andb_true_iff in F as [F ?]);
         repeat (apply andb_true_iff; split); assumption).
  - destruct (exec false Patterns.positionPnl line) as [r|].
    + destruct (getGroup 1 r); cbn [bind]; [|discriminate].
      destruct (getGroup 2 r); cbn [bind]; [|discriminate].
      intros H; inversion H; subst; cbn; split; [reflexivity|exact (fun F => F)].
    + cbn [bind]. intros H; inversion H; subst; cbn; split;
        [reflexivity|exact (fun F => F)].
  - destruct (extractTextAfter line) as [t|e] eqn:E; cbn [bind]; [|discriminate].
    intros H; inversion H; subst.
    unfold Position.set_copied_from.
    cbn [Position.entry_price Position.invested Position.shares Position.value
         Position.copied_from Position.market_question].
    split; [reflexivity|].
    intros F. repeat (apply andb_true_iff in F as [F ?]).
    rewrite (extractTextAfter_trimmed _ _ E).
    repeat (apply andb_true_iff; split); try assumption; reflexivity.
Qed.

Lemma newPosition_filled (line : str) :
  fieldsFilled (newPosition line) = true
  /\ JS.trim (Position.market_question (newPosition line))
     = Position.market_question (newPosition line).
Proof. split; [reflexivity|]. unfold newPosition. cbn. apply trim_idem. Qed.

Lemma pushOpen_ok (st : PassState) :
  passOk st -> forallb wellFormedPosition (pushOpen st) = true.
Proof.
  intros [Hc Hp]. unfold pushOpen.
  destruct (currentPosition st) as [p|]; [|exact Hc].
  destruct (Position.market_question p) as [|c q] eqn:E; [exact Hc|].
  rewrite forallb_app, Hc. cbn [forallb]. unfold wellFormedPosition.
  destruct Hp as [Hf Ht]. rewrite E, Hf, Ht, eqb_refl. reflexivity.
Qed.

Lemma positionLine_ok (line : str) (st st' : PassState) :
  passOk st -> positionLine line st = Ok (Continue st') -> passOk st'.
Proof.
  intros Hok. unfold positionLine.
  destruct (inPositionsSection st && isControlLine line); [discriminate|].
  destruct (negb (inPositionsSection st || isFirstPositionLine line));
    [intros H; inversion H; subst; exact Hok|].
  destruct (isSkippedLine line); [intros H; inversion H; subst; exact Hok|].
  destruct (startsPosition line).
  - intros H; inversion H; subst. split.
    + cbn [collected]. apply (pushOpen_ok {| collected := collected st;
                                            currentPosition := currentPosition st;
                                            inPositionsSection := _ |}). exact Hok.
    + cbn [currentPosition]. apply newPosition_filled.
  - cbn [currentPosition collected]. destruct Hok as [Hc Hp].
    destruct (currentPosition st) as [p|].
    + destruct (detailLine line p) as [p'|e] eqn:E; cbn [bind]; [|discriminate].
      intros H; inversion H; subst. split; [exact Hc|]. cbn [currentPosition].
      destruct (detailLine_filled _ _ _ E) as [Q F]. destruct Hp as [Hf Ht].
      split; [exact (F Hf)|]. rewrite Q. exact Ht.
    + intros H; inversion H; subst. split; [exact Hc|exact I].
Qed.

Lemma secondPassFrom_ok (lines : list str) :
  forall st ps,
    passOk st -> secondPassFrom lines st = Ok ps ->
    forallb wellFormedPosition ps = true.
Proof.
  induction lines as [|line lines IH]; intros st ps Hok H; simpl in H.
  - inversion H; subst. apply pushOpen_ok, Hok.
  - destruct (positionLine line st) as [[|st']|e] eqn:E; cbn [bind] in H;
      [|apply (IH st' ps); [apply (positionLine_ok _ _ _ Hok E)|exact H]|discriminate].
    inversion H; subst. apply pushOpen_ok, Hok.
Qed.

(** X15.  Every position that the parser returns has a market question
    that is trimmed and not empty; its entry price, invested amount,
    shares and value are numbers, never [NaN]; and its [copied_from] is
    absent or a trimmed text that is not empty. *)
Theorem X15_returned_positions_are_well_formed :
  forall (now : Z) (text : str) (timestamp : option Date) (r : ParsedPortfolio),
    parsePortfolioResponse now text timestamp = Ok r ->
    forallb wellFormedPosition (positions r) = true
    /\ tradersTrimmed (positions r) = true.
Proof.
  intros now text timestamp r H. unfold parsePortfolioResponse in H.
  apply bind_Ok in H as (ts & _ & H).
  apply bind_Ok in H as (s1 & _ & H).
  apply bind_Ok in H as (s2 & _ & H).
  apply bind_Ok in H as (ps & Hps & H). inversion H; subst; cbn [positions].
  assert (W : forallb wellFormedPosition ps = true).
  { apply (secondPassFrom_ok (linesOf text) initialPass ps); [|exact Hps].
    split; [reflexivity|exact I]. }
  split; [exact W|].
  unfold tradersTrimmed. apply forallb_forall. intros p Hp.
  apply (proj1 (forallb_forall _ _) W) in Hp.
  unfold wellFormedPosition, fieldsFilled in Hp.
  apply andb_true_iff in Hp as [_ Hp]. apply andb_true_iff in Hp as [_ Hp].
  destruct (Position.copied_from p) as [c|]; [|reflexivity].
  apply andb_true_iff in Hp as [_ Hp]. exact Hp.
Qed.

Lemma X15_returned_positions_are_well_formed_witness :
  parsePortfolioResponse 0 copyTradeByText (Some (ValidDate 5))
  = Ok (copyTradeByResult (ISO 5))
  /\ forallb wellFormedPosition (positions (copyTradeByResult (ISO 5))) = true
  /\ tradersTrimmed (positions (copyTradeByResult (ISO 5))) = true.
Proof.
  split; [vm_compute; reflexivity|].
  apply (X15_returned_positions_are_well_formed
           0 copyTradeByText (Some (ValidDate 5)) (copyTradeByResult (ISO 5))).
  vm_compute. reflexivity.
Defined.

(* ================================================================== *)
(** * The timestamp of the snapshot *)
(* ================================================================== *)

(** X16.  The snapshot that the parser returns carries the date it was
    given, or the reading of the clock when it was given none, and no id;
    no line of the text changes either.  With an invalid date the parser
    throws a RangeError on every text. *)
Theorem X16_snapshot_carries_the_given_date :
  (forall (now : Z) (text : str) (timestamp : option Date) (r : ParsedPortfolio),
      parsePortfolioResponse now text timestamp = Ok r ->
      toISOString (stampDate now timestamp) = Ok (Snap.timestamp (snapshot r))
      /\ Snap.id (snapshot r) = None)
  /\ (forall (now : Z) (text : str),
         parsePortfolioResponse now text (Some InvalidDate) = Throw RangeError).
Proof.
  split; [exact parse_timestamp|]. intros. reflexivity.
Qed.

Lemma X16_snapshot_carries_the_given_date_witness :
  Snap.timestamp (snapshot (copyTradeByResult (ISO 5))) = ISO 5
  /\ toISOString (stampDate 0 (Some (ValidDate 5)))
     = Ok (Snap.timestamp (snapshot (copyTradeByResult (ISO 5))))
  /\ toISOString (stampDate 7 None)
     = Ok (Snap.timestamp (snapshot (copyTradeByResult (ISO 7)))).
Proof.
  split; [reflexivity|]. split.
  - apply (proj1 X16_snapshot_carries_the_given_date
             0%Z copyTradeByText (Some (ValidDate 5)) (copyTradeByResult (ISO 5))).
    vm_compute. reflexivity.
  - apply (proj1 X16_snapshot_carries_the_given_date
             7%Z copyTradeByText None (copyTradeByResult (ISO 7))).
    vm_compute. reflexivity.
Defined.

(* ================================================================== *)
(** * What a match consists of *)
(* ================================================================== *)

Section Soundness.
Variable A : Type.
Variable ci : bool.

Lemma starLoop_sound (a : re) :
  sound A ci a ->
  forall (fuel pos : nat) (s : str) (cs : caps) (k : cont A) (x : A),
    starLoop (m ci a) k fuel pos s cs = Some x ->
    exists g s' cs',
      s = g ++ s' /\ lang ci (Star a) g /\ k (pos + List.length g)%nat s' cs' = Some x.
Proof.
  intros Ha. induction fuel as [|fuel IH]; intros pos s cs k x H; simpl in H.
  - exists [], s, cs. rewrite Nat.add_0_r. repeat split; [constructor|exact H].
  - match type of H with
    | match ?e with _ => _ end = _ => destruct e as [y|] eqn:E
    end.
    + inversion H; subst y. apply Ha in E as (g1 & s1 & cs1 & -> & L1 & E).
      destruct (List.length s1 <? List.length (g1 ++ s1))%nat; [|discriminate].
      apply IH in E as (g2 & s2 & cs2 & -> & L2 & E).
      exists (g1 ++ g2), s2, cs2. rewrite <- app_assoc. split; [reflexivity|].
      split; [constructor; assumption|].
      rewrite length_app, Nat.add_assoc. exact E.
    + exists [], s, cs. rewrite Nat.add_0_r. repeat split; [constructor|exact H].
Qed.

Lemma m_sound (r : re) : sound A ci r.
Proof.
  induction r as [|c|p|a IHa b IHb|a IHa b IHb|a IHa|n a IHa| |];
    intros pos s cs k x H.
  - exists [], s, cs. rewrite Nat.add_0_r. repeat split; [constructor|exact H].
  - simpl in H. destruct s as [|d s]; [discriminate|].
    destruct (chrMatches ci c d) eqn:E; [|discriminate].
    exists [d], s, cs. rewrite Nat.add_1_r. repeat split; [now constructor|exact H].
  - simpl in H. destruct s as [|d s]; [discriminate|].
    destruct (p d) eqn:E; [|discriminate].
    exists [d], s, cs. rewrite Nat.add_1_r. repeat split; [now constructor|exact H].
  - rewrite m_Seq in H. apply IHa in H as (g1 & s1 & cs1 & -> & L1 & H).
    apply IHb in H as (g2 & s2 & cs2 & -> & L2 & H).
    exists (g1 ++ g2), s2, cs2. rewrite <- app_assoc. split; [reflexivity|].
    split; [constructor; assumption|].
    rewrite length_app, Nat.add_assoc. exact H.
  - rewrite m_Alt in H. destruct (m ci a pos s cs k) as [y|] eqn:E.
    + inversion H; subst y. apply IHa in E as (g & s' & cs' & -> & L & E).
      exists g, s', cs'. repeat split; [now apply lang_Alt_l|exact E].
    + apply IHb in H as (g & s' & cs' & -> & L & E').
      exists g, s', cs'. repeat split; [now apply lang_Alt_r|exact E'].
  - rewrite m_Star in H. apply (starLoop_sound a IHa) in H. exact H.
  - rewrite m_Grp in H. apply IHa in H as (g & s' & cs' & -> & L & H).
    eexists g, s', _. repeat split; [now constructor|exact H].
  - simpl in H. destruct (Nat.eqb pos 0); [|discriminate].
    exists [], s, cs. rewrite Nat.add_0_r. repeat split; [constructor|exact H].
  - simpl in H. destruct s; [|discriminate].
    exists [], [], cs. rewrite Nat.add_0_r. repeat split; [constructor|exact H].
Qed.

End Soundness.

Lemma matchAt_sound (ci : bool) (r : re) (pos : nat) (s : str) (res : matchResult) :
  matchAt ci r pos s = Some res ->
  s = whole res ++ after res /\ lang ci r (whole res) /\ index res = pos.
Proof.
  unfold matchAt. intros H.
  apply m_sound in H as (g & s' & cs' & -> & L & H).
  inversion H; subst res. cbn [whole after index].
  rewrite firstn_app_exact. repeat split. exact L.
Qed.

(** What [match] finds is a piece of the text, and a text of the pattern. *)
Lemma exec_sound (ci : bool) (r : re) (s : str) (res : matchResult) :
  exec ci r s = Some res ->
  exists pre, s = pre ++ whole res ++ after res
              /\ lang ci r (whole res) /\ index res = List.length pre.
Proof.
  unfold exec.
  assert (G : forall s pos,
             searchFrom ci r pos s = Some res ->
             exists pre, s = pre ++ whole res ++ after res /\ lang ci r (whole res)
                         /\ index res = (pos + List.length pre)%nat).
  { clear s. induction s as [|c s IH]; intros pos H; rewrite searchFrom_eq in H.
    - destruct (matchAt ci r pos []) as [y|] eqn:E; [|discriminate].
      inversion H; subst y. apply matchAt_sound in E as (E & L & I).
      exists []. rewrite Nat.add_0_r. repeat split; assumption.
    - destruct (matchAt ci r pos (c :: s)) as [y|] eqn:E.
      + inversion H; subst y. apply matchAt_sound in E as (E & L & I).
        exists []. rewrite Nat.add_0_r. repeat split; assumption.
      + apply IH in H as (pre & -> & L & I).
        exists (c :: pre). repeat split; [exact L|]. rewrite I. simpl. lia. }
  intros H. apply G in H as (pre & E & L & I). exists pre. repeat split; assumption.
Qed.

(** A match that starts later in the text is found, or an earlier one. *)
Lemma searchFrom_finds (ci : bool) (r : re) (pre s : str) (res : matchResult) :
  forall pos,
    matchAt ci r (pos + List.length pre) s = Some res ->
    exists res', searchFrom ci r pos (pre ++ s) = Some res'.
Proof.
  induction pre as [|c pre IH]; intros pos H.
  - simpl in *. rewrite Nat.add_0_r in H. rewrite searchFrom_eq, H. eauto.
  - cbn [app]. rewrite searchFrom_eq.
    destruct (matchAt ci r pos (c :: pre ++ s)) as [y|]; [eauto|].
    apply IH. simpl in H. rewrite <- Nat.add_succ_comm in H. exact H.
Qed.

Lemma lang_Seq_inv (ci : bool) (a b : re) (g : str) :
  lang ci (Seq a b) g -> exists g1 g2, g = g1 ++ g2 /\ lang ci a g1 /\ lang ci b g2.
Proof. intros H. inversion H; subst. eauto. Qed.

Lemma lang_Cls_inv (ci : bool) (p : JS.char -> bool) (g : str) :
  lang ci (Cls p) g -> exists d, g = [d] /\ p d = true.
Proof. intros H. inversion H; subst. eauto. Qed.

Lemma lang_Chr_inv (ci : bool) (c : JS.char) (g : str) :
  lang ci (Chr c) g -> exists d, g = [d] /\ chrMatches ci c d = true.
Proof. intros H. inversion H; subst. eauto. Qed.

Lemma lang_Alt_inv (ci : bool) (a b : re) (g : str) :
  lang ci (Alt a b) g -> lang ci a g \/ lang ci b g.
Proof. intros H. inversion H; subst; tauto. Qed.

Lemma lang_Eps_inv (ci : bool) (g : str) : lang ci Eps g -> g = [].
Proof. intros H. inversion H; subst. reflexivity. Qed.

Lemma lang_Grp_inv (ci : bool) (n : nat) (a : re) (g : str) :
  lang ci (Grp n a) g -> lang ci a g.
Proof. intros H. inversion H; subst. assumption. Qed.

Ltac invert_lang :=
  repeat match goal with
         | H : lang _ (Seq _ _) _ |- _ =>
             apply lang_Seq_inv in H as (? & ? & -> & ? & ?)
         | H : lang _ (Cls _) _ |- _ => apply lang_Cls_inv in H as (? & -> & ?)
         | H : lang _ (Chr _) _ |- _ => apply lang_Chr_inv in H as (? & -> & ?)
         | H : lang _ (Grp _ _) _ |- _ => apply lang_Grp_inv in H
         | H : lang _ Eps _ |- _ => apply lang_Eps_inv in H as ->
         | H : lang _ (Alt _ _) _ |- _ => apply lang_Alt_inv in H as [H|H]
         | H : chrMatches false _ _ = true |- _ =>
             unfold chrMatches in H; apply N.eqb_eq in H; subst
         end.

(* ================================================================== *)
(** * Dates *)
(* ================================================================== *)

Lemma isoDate_shape (d : str) : lang false Patterns.isoDate d -> isIsoDate d.
Proof.
  unfold Patterns.isoDate. cbn [Patterns.seq Patterns.rep]. unfold digit.
  intros H. invert_lang. cbn [app].
  match goal with
  | |- isIsoDate [?a; ?b; ?c; ?e; _; ?f; ?g; _; ?h; ?i] =>
      exists [a; b; c; e], [f; g], [h; i]
  end.
  unfold isDigits. cbn [List.length Nat.eqb forallb andb].
  repeat match goal with H : JS.isDigit _ = true |- _ => rewrite H; clear H end.
  repeat split.
Qed.

Lemma slashDate_shape (d : str) :
  lang false Patterns.anyDate d -> isSlashDate d \/ isIsoDate d.
Proof.
  unfold Patterns.anyDate. intros H. apply lang_Alt_inv in H as [H|H].
  - left. apply lang_Grp_inv in H. revert H.
    cbn [Patterns.seq Patterns.rep]. unfold digit, Opt. intros H.
    invert_lang; cbn [app];
      match goal with
      | |- isSlashDate [?a; ?a2; ch "/"; ?b; ?b2; ch "/"; ?y1; ?y2; ?y3; ?y4] =>
          exists [a; a2], [b; b2], [y1; y2; y3; y4]
      | |- isSlashDate [?a; ?a2; ch "/"; ?b; ch "/"; ?y1; ?y2; ?y3; ?y4] =>
          exists [a; a2], [b], [y1; y2; y3; y4]
      | |- isSlashDate [?a; ch "/"; ?b; ?b2; ch "/"; ?y1; ?y2; ?y3; ?y4] =>
          exists [a], [b; b2], [y1; y2; y3; y4]
      | |- isSlashDate [?a; ch "/"; ?b; ch "/"; ?y1; ?y2; ?y3; ?y4] =>
          exists [a], [b], [y1; y2; y3; y4]
      end;
      unfold isDigits; cbn [List.length Nat.eqb forallb andb app];
      repeat match goal with H : JS.isDigit _ = true |- _ => rewrite H; clear H end;
      (split; [reflexivity|]); cbn; tauto.
  - right. apply lang_Grp_inv in H. apply isoDate_shape. exact H.
Qed.

Lemma isDigits_2 (s : str) :
  isDigits 2 s = true ->
  exists a b, s = [a; b] /\ JS.isDigit a = true /\ JS.isDigit b = true.
Proof.
  unfold isDigits. destruct s as [|a [|b [|c s]]]; try discriminate.
  cbn. intros H. apply andb_true_iff in H as [Ha H].
  apply andb_true_iff in H as [Hb _]. eauto.
Qed.

Lemma isDigits_4 (s : str) :
  isDigits 4 s = true ->
  exists a b c d, s = [a; b; c; d]
                  /\ JS.isDigit a = true /\ JS.isDigit b = true
                  /\ JS.isDigit c = true /\ JS.isDigit d = true.
Proof.
  unfold isDigits. destruct s as [|a [|b [|c [|d [|e s]]]]]; try discriminate.
  cbn. intros H. apply andb_true_iff in H as [Ha H].
  apply andb_true_iff in H as [Hb H]. apply andb_true_iff in H as [Hc H].
  apply andb_true_iff in H as [Hd _]. exists a, b, c, d. repeat split; assumption.
Qed.

Lemma isoDate_matches (iso post : str) (pos : nat) :
  isIsoDate iso ->
  exists res, matchAt false Patterns.isoDate pos (iso ++ post) = Some res.
Proof.
  intros (y & mo & day & -> & Hy & Hm & Hd).
  apply isDigits_4 in Hy as (y1 & y2 & y3 & y4 & -> & Y1 & Y2 & Y3 & Y4).
  apply isDigits_2 in Hm as (m1 & m2 & -> & M1 & M2).
  apply isDigits_2 in Hd as (d1 & d2 & -> & D1 & D2).
  unfold matchAt, Patterns.isoDate. cbn [Patterns.seq Patterns.rep].
  unfold digit. cbn [app JS.lit map list_ascii_of_string].
  repeat (rewrite m_Seq || rewrite m_Cls || rewrite m_Chr).
  rewrite Y1, Y2, Y3, Y4, M1, M2, D1, D2.
  unfold chrMatches. cbn [N_of_ascii]. change (ch "-") with 45.
  rewrite !N.eqb_refl. eauto.
Qed.

(** X18.  [extractDate] answers a piece of the text that reads as a date,
    "2025-12-31" or "12/31/2025" (with one or two digits for each of the
    first two numbers); and whenever the text holds a date of the first
    form, the answer is of that form, even when a date of the second form
    stands before it. *)
Theorem X18_extractDate_finds_a_date_and_prefers_the_iso_form :
  (forall (text d : str),
      extractDate text = Some d ->
      (isIsoDate d \/ isSlashDate d)
      /\ exists pre post, text = pre ++ d ++ post)
  /\ (forall (pre iso post : str),
         isIsoDate iso ->
         exists d, extractDate (pre ++ iso ++ post) = Some d /\ isIsoDate d).
Proof.
  split.
  - intros text d. unfold extractDate.
    destruct (exec false Patterns.isoDate text) as [r|] eqn:E.
    + intros H; inversion H; subst d.
      apply exec_sound in E as (pre & E & L & _).
      split; [left; apply isoDate_shape, L|]. eauto.
    + destruct (exec false Patterns.anyDate text) as [r|] eqn:E2; [|discriminate].
      intros H; inversion H; subst d.
      apply exec_sound in E2 as (pre & E2 & L & _).
      split; [|eauto]. apply slashDate_shape in L. tauto.
  - intros pre iso post Hiso. unfold extractDate.
    destruct (isoDate_matches iso post (0 + List.length pre) Hiso) as (res & Hm).
    destruct (searchFrom_finds false Patterns.isoDate pre (iso ++ post) res 0 Hm)
      as (res' & E).
    unfold exec. rewrite E. eexists. split; [reflexivity|].
    apply exec_sound in E as (_ & _ & L & _). apply isoDate_shape, L.
Qed.

Lemma X18_extractDate_finds_a_date_and_prefers_the_iso_form_witness :
  extractDate `"Expires 1/2/2026 (was 2025-12-31)" = Some `"2025-12-31"
  /\ isIsoDate `"2025-12-31"
  /\ (isIsoDate `"2025-12-31" \/ isSlashDate `"2025-12-31")
  /\ exists d, extractDate (`"Expires 1/2/2026 (was " ++ `"2025-12-31" ++ `")") = Some d
               /\ isIsoDate d.
Proof.
  assert (I : isIsoDate `"2025-12-31").
  { exists `"2025", `"12", `"31". repeat split. }
  split; [reflexivity|]. split; [exact I|]. split.
  - apply (proj1 X18_extractDate_finds_a_date_and_prefers_the_iso_form
             `"Expires 1/2/2026 (was 2025-12-31)" `"2025-12-31" eq_refl).
  - apply (proj2 X18_extractDate_finds_a_date_and_prefers_the_iso_form
             `"Expires 1/2/2026 (was " `"2025-12-31" `")" I).
Defined.

(* ================================================================== *)
(** * The text after a keyword *)
(* ================================================================== *)

Lemma searchFrom_skip (ci : bool) (r : re) (prefix s : str) :
  (forall c t pos, In c prefix -> matchAt ci r pos (c :: t) = None) ->
  forall pos,
    searchFrom ci r pos (prefix ++ s)
    = searchFrom ci r (pos + List.length prefix)%nat s.
Proof.
  induction prefix as [|c prefix IH]; intros H pos.
  - simpl. now rewrite Nat.add_0_r.
  - cbn [app]. rewrite searchFrom_eq, H by (left; reflexivity).
    rewrite IH by (intros; apply H; right; assumption).
    f_equal. simpl. lia.
Qed.

(** A literal under the [i] flag matches every spelling of its letters. *)
Lemma Lit_folded (A : Type) (kw : str) :
  kw <> [] ->
  forall (w rest : str) (pos : nat) (cs : caps) (k : cont A),
    map upperAscii w = map upperAscii kw ->
    m true (Lit kw) pos (w ++ rest) cs k = k (pos + List.length w)%nat rest cs.
Proof.
  induction kw as [|c kw IH]; intros Hne w rest pos cs k Hw; [congruence|].
  destruct w as [|d w]; [discriminate|]. simpl in Hw. injection Hw as Hd Hw.
  destruct kw as [|c2 kw].
  - destruct w; [|discriminate]. cbn [Lit app List.length].
    rewrite m_Chr. unfold chrMatches. rewrite Hd, N.eqb_refl, Nat.add_1_r.
    reflexivity.
  - change (Lit (c :: c2 :: kw)) with (Seq (Chr c) (Lit (c2 :: kw))).
    cbn [app]. rewrite m_Seq, m_Chr. unfold chrMatches.
    rewrite Hd, N.eqb_refl, IH by (discriminate || exact Hw).
    cbn [List.length]. rewrite Nat.add_succ_comm. reflexivity.
Qed.

Lemma Lit_mismatch (A : Type) (c : JS.char) (kw : str) (d : JS.char) (s : str)
      (pos : nat) (cs : caps) (k : cont A) :
  (upperAscii c =? upperAscii d) = false ->
  m true (Lit (c :: kw)) pos (d :: s) cs k = None.
Proof.
  intros H. destruct kw as [|c2 kw].
  - cbn [Lit]. rewrite m_Chr. unfold chrMatches. now rewrite H.
  - change (Lit (c :: c2 :: kw)) with (Seq (Chr c) (Lit (c2 :: kw))).
    rewrite m_Seq, m_Chr. unfold chrMatches. now rewrite H.
Qed.

Lemma Lit_cons (A : Type) (c : JS.char) (kw : str) (d : JS.char) (s : str)
      (pos : nat) (cs : caps) (k : cont A) :
  kw <> [] ->
  upperAscii d = upperAscii c ->
  m true (Lit (c :: kw)) pos (d :: s) cs k = m true (Lit kw) (S pos) s cs k.
Proof.
  intros Hne H. destruct kw as [|c2 kw]; [congruence|].
  change (Lit (c :: c2 :: kw)) with (Seq (Chr c) (Lit (c2 :: kw))).
  rewrite m_Seq, m_Chr. unfold chrMatches. now rewrite H, N.eqb_refl.
Qed.

(** No keyword begins at a code unit that is neither 'c' nor 'f'. *)
Lemma keyword_skip (c : JS.char) (s : str) (pos : nat) :
  startsKeyword c = false ->
  matchAt true Patterns.textAfterKeyword pos (c :: s) = None.
Proof.
  unfold startsKeyword. intros H. apply orb_false_iff in H as [Hc Hf].
  unfold matchAt, Patterns.textAfterKeyword.
  cbn [JS.lit map list_ascii_of_string Patterns.seq].
  rewrite !m_Alt, m_Seq.
  rewrite !Lit_mismatch; [reflexivity| | |];
    rewrite N.eqb_sym; assumption.
Qed.

Lemma sameLetters_spec (w kw : str) :
  sameLetters w kw = true -> map upperAscii w = map upperAscii kw.
Proof. unfold sameLetters. apply eqb_spec. Qed.

Lemma exec_after_prefix (pre s : str) :
  noKeywordStart pre = true ->
  exec true Patterns.textAfterKeyword (pre ++ s)
  = searchFrom true Patterns.textAfterKeyword (List.length pre) s.
Proof.
  intros H. unfold exec. rewrite searchFrom_skip; [reflexivity|].
  intros c t pos Hin. apply keyword_skip.
  unfold noKeywordStart in H. apply (proj1 (forallb_forall _ _) H) in Hin.
  now apply negb_true_iff.
Qed.

(** No keyword in the text: no match. *)
Lemma extractTextAfter_none (pre : str) :
  noKeywordStart pre = true -> extractTextAfter pre = Ok None.
Proof.
  intros H. unfold extractTextAfter.
  rewrite <- (app_nil_r pre), exec_after_prefix by exact H.
  reflexivity.
Qed.

(** "copied" or "from" as the first keyword: the match has no group. *)
Lemma extractTextAfter_copied (pre w rest : str) :
  noKeywordStart pre = true ->
  sameLetters w `"copied" = true ->
  extractTextAfter (pre ++ w ++ rest) = Throw TypeError.
Proof.
  intros Hp Hw. apply sameLetters_spec in Hw. unfold extractTextAfter.
  rewrite exec_after_prefix by exact Hp.
  rewrite searchFrom_eq. unfold matchAt, Patterns.textAfterKeyword.
  rewrite m_Alt, Lit_folded by (discriminate || exact Hw).
  reflexivity.
Qed.

Lemma extractTextAfter_From (pre w rest : str) :
  noKeywordStart pre = true ->
  sameLetters w `"from" = true ->
  extractTextAfter (pre ++ w ++ rest) = Throw TypeError.
Proof.
  intros Hp Hw. apply sameLetters_spec in Hw. unfold extractTextAfter.
  rewrite exec_after_prefix by exact Hp.
  rewrite searchFrom_eq. unfold matchAt, Patterns.textAfterKeyword.
  rewrite m_Alt.
  destruct w as [|w1 w]; [discriminate|]. pose proof Hw as Hw'.
  cbn [map JS.lit list_ascii_of_string] in Hw'. injection Hw' as H1 _.
  cbn [app]. cbn [JS.lit map list_ascii_of_string].
  rewrite Lit_mismatch by (rewrite H1; reflexivity).
  rewrite m_Alt.
  change (w1 :: w ++ rest) with ((w1 :: w) ++ rest).
  change [N_of_ascii "f"; N_of_ascii "r"; N_of_ascii "o"; N_of_ascii "m"]
    with `"from".
  rewrite Lit_folded by (discriminate || exact Hw).
  reflexivity.
Qed.

(** "copy trade by" as the first keyword, then white space, a colon,
    white space and a name: the group is the name. *)
Lemma extractTextAfter_name (pre w ws1 ws2 name : str) :
  noKeywordStart pre = true ->
  sameLetters w `"copy trade by" = true ->
  allSpace ws1 = true ->
  allSpace ws2 = true ->
  name <> [] ->
  headNot JS.isWhiteSpace name ->
  oneLine name = true ->
  extractTextAfter (pre ++ w ++ ws1 ++ `":" ++ ws2 ++ name) = Ok (Some (JS.trim name)).
Proof.
  intros Hp Hw H1 H2 Hne Hh Hl. apply sameLetters_spec in Hw.
  unfold extractTextAfter.
  rewrite exec_after_prefix by exact Hp.
  rewrite searchFrom_eq.
  set (s := w ++ ws1 ++ `":" ++ ws2 ++ name).
  assert (E : matchAt true Patterns.textAfterKeyword (List.length pre) s
              = Some {| index := List.length pre; whole := s;
                        groups := [(1%nat, name)]; after := [] |}).
  { unfold matchAt, Patterns.textAfterKeyword.
    (* the first two alternatives fail *)
    assert (F1 : forall k, m true (Lit `"copied") (List.length pre) s []
                             k = @None matchResult).
    { intros k. unfold s.
      destruct w as [|w1 [|w2 [|w3 [|w4 w]]]]; try discriminate.
      pose proof Hw as Hw'. cbn [map JS.lit list_ascii_of_string] in Hw'.
      injection Hw' as A1 A2 A3 A4 _.
      cbn [app JS.lit map list_ascii_of_string].
      rewrite !Lit_cons by (discriminate || assumption).
      apply Lit_mismatch. rewrite A4. reflexivity. }
    assert (F2 : forall k, m true (Lit `"from") (List.length pre) s []
                             k = @None matchResult).
    { intros k. unfold s.
      destruct w as [|w1 w]; try discriminate.
      pose proof Hw as Hw'. cbn [map JS.lit list_ascii_of_string] in Hw'.
      injection Hw' as A1 _.
      cbn [app JS.lit map list_ascii_of_string].
      apply Lit_mismatch. rewrite A1. reflexivity. }
    rewrite m_Alt, F1, m_Alt, F2.
    cbn [Patterns.seq]. rewrite m_Seq. unfold s.
    rewrite Lit_folded by (discriminate || exact Hw).
    (* white space, the colon, white space *)
    rewrite m_Seq. unfold space.
    apply star_class; [exact H1|reflexivity|]. intros pos1.
    rewrite m_Seq. apply alt_first.
    cbn [JS.lit map list_ascii_of_string app].
    rewrite m_Chr. unfold chrMatches. change (ch ":") with (N_of_ascii ":").
    rewrite N.eqb_refl.
    rewrite m_Seq.
    apply star_class; [exact H2| |].
    { destruct name as [|n1 name']; [exact I|exact Hh]. }
    intros pos2.
    (* the name *)
    rewrite m_Grp. unfold Plus, anyChar. rewrite m_Seq, m_Cls.
    destruct name as [|n1 name']; [congruence|].
    unfold oneLine in Hl. cbn [forallb] in Hl.
    apply andb_true_iff in Hl as [Hn1 Hl]. rewrite Hn1.
    rewrite <- (app_nil_r name') at 1.
    apply star_class; [exact Hl|exact I|]. intros pos3.
    cbn [List.length]. rewrite !Nat.sub_0_r, !firstn_all.
    cbn [firstn]. rewrite firstn_all. reflexivity. }
  rewrite E. reflexivity.
Qed.

(** X17.  What [extractTextAfter] answers depends on the first keyword of
    the line.  Before it let there be no 'c' and no 'f', in either case.
    Without a keyword the answer is null.  When the first keyword is
    "copied" or "from", in any spelling of upper and lower case, the call
    throws a TypeError, whatever follows.  When it is "copy trade by",
    followed by white space, a colon, white space and a name on one line,
    the answer is the trimmed name. *)
Theorem X17_text_after_the_first_keyword :
  forall pre : str,
    noKeywordStart pre = true ->
    extractTextAfter pre = Ok None
    /\ (forall w rest : str,
          sameLetters w `"copied" = true \/ sameLetters w `"from" = true ->
          extractTextAfter (pre ++ w ++ rest) = Throw TypeError)
    /\ (forall w ws1 ws2 name : str,
          sameLetters w `"copy trade by" = true ->
          allSpace ws1 = true ->
          allSpace ws2 = true ->
          name <> [] ->
          headNot JS.isWhiteSpace name ->
          oneLine name = true ->
          extractTextAfter (pre ++ w ++ ws1 ++ `":" ++ ws2 ++ name)
          = Ok (Some (JS.trim name))).
Proof.
  intros pre Hp. split; [apply extractTextAfter_none, Hp|]. split.
  - intros w rest [H|H];
      [apply extractTextAfter_copied|apply extractTextAfter_From]; assumption.
  - intros. apply extractTextAfter_name; assumption.
Qed.

Lemma X17_text_after_the_first_keyword_witness :
  noKeywordStart `"Trader: " = true
  /\ extractTextAfter `"Trader: " = Ok None
  /\ extractTextAfter (`"Trader: " ++ `"COPIED" ++ `" from: trader_a")
     = Throw TypeError
  /\ extractTextAfter (`"Trader: " ++ `"From" ++ `": trader_a") = Throw TypeError
  /\ extractTextAfter (`"Trader: " ++ `"Copy Trade By" ++ `" " ++ `":" ++ `"  "
                       ++ `"trader_a  ")
     = Ok (Some `"trader_a").
Proof.
  destruct (X17_text_after_the_first_keyword `"Trader: " eq_refl) as (A & B & C).
  split; [reflexivity|]. split; [exact A|].
  split; [apply B; left; reflexivity|].
  split; [apply B; right; reflexivity|].
  apply (C `"Copy Trade By" `" " `"  " `"trader_a  ");
    try reflexivity; discriminate.
Defined.

(* ================================================================== *)
(** * Amounts that are read *)
(* ================================================================== *)

Lemma truthy_neg (v : number) : Number.truthy (Number.neg v) = Number.truthy v.
Proof.
  destruct v as [|q]; [reflexivity|]. unfold Number.neg, Number.truthy. f_equal.
  destruct (Qeq_bool q 0) eqn:E.
  - apply Qeq_bool_iff in E. apply Qeq_bool_iff.
    rewrite (Qred_correct (Qopp q)), E. reflexivity.
  - apply Qeq_bool_neq in E. destruct (Qeq_bool (Qred (- q)) 0) eqn:E2; [|reflexivity].
    apply Qeq_bool_iff in E2. rewrite (Qred_correct (Qopp q)) in E2.
    exfalso. apply E. rewrite <- (Qopp_opp q), E2. reflexivity.
Qed.

(** X20.  [extractNumber] on a line that ends with an amount, after a text
    without signs, digits and commas: the answer is the number that the
    amount is read as, its thousands separators dropped and its sign kept
    when a minus sign stands directly before it, and null when that number
    is zero.  The number is the double that [parseFloat] gives for the
    decimal, written as [Num] of that decimal ([amountValue]); it is zero
    also for a decimal that is not zero and too small for a double. *)
Theorem X20_extractNumber_reads_the_amount_that_ends_the_line :
  forall (prefix sg ip : str) (fp : option str),
    plainPrefix prefix = true ->
    isSignText sg ->
    isAmount ip fp = true ->
    extractNumber (prefix ++ sg ++ amountText ip fp)
    = Ok (if Number.truthy (amountValue ip fp)
          then Some (signedValue sg ip fp)
          else None).
Proof.
  intros prefix sg ip fp Hp Hsg Ha.
  rewrite (extractNumber_amount prefix sg ip fp Hp Ha)
    by (destruct Hsg as [->| ->]; tauto).
  destruct (parseFloat_amount ip fp Ha) as [E1 E2].
  destruct Hsg as [->| ->]; unfold signedValue; cbv zeta.
  - cbn [app]. rewrite E1. reflexivity.
  - rewrite E2, truthy_neg. reflexivity.
Qed.

Lemma X20_extractNumber_reads_the_amount_that_ends_the_line_witness :
  extractNumber `"Invested: $1,234,567.05" = Ok (Some (Number.dec 123456705 2))
  /\ extractNumber `"Value: $0.00" = Ok None
  /\ extractNumber `"Entry: -0.5" = Ok (Some (Number.dec (-5) 1))
  /\ extractNumber (`"Value: $0." ++ repeat (ch "0") 330 ++ `"1") = Ok None.
Proof.
  split; [|split; [|split]].
  - apply (X20_extractNumber_reads_the_amount_that_ends_the_line
             `"Invested: $" [] `"1,234,567" (Some `"05"));
      [reflexivity|left; reflexivity|reflexivity].
  - apply (X20_extractNumber_reads_the_amount_that_ends_the_line
             `"Value: $" [] `"0" (Some `"00"));
      [reflexivity|left; reflexivity|reflexivity].
  - apply (X20_extractNumber_reads_the_amount_that_ends_the_line
             `"Entry: " `"-" `"0" (Some `"5"));
      [reflexivity|right; reflexivity|reflexivity].
  - apply (X20_extractNumber_reads_the_amount_that_ends_the_line
             `"Value: $" [] `"0" (Some (repeat (ch "0") 330 ++ `"1")));
      [reflexivity|left; reflexivity|vm_compute; reflexivity].
Defined.

(** X19.  The total balance is read.  When the line "Total Balance: $X"
    is the one line of the message that mentions the total balance, no
    position line stands before it, and no line of the positions section
    mentions "copied", "from" or "copy trade by", the parser returns a
    snapshot whose total balance is the number that X is read as: the
    double that [parseFloat] gives for the decimal X without its
    separators, written as [Num] of that decimal ([amountValue]), and
    zero, the default, when that double is zero. *)
Theorem X19_total_balance_is_read :
  forall (now : Z) (text : str) (timestamp : option Date) (ts : isoString)
         (pre post : list str) (ip : str) (fp : option str),
    toISOString (stampDate now timestamp) = Ok ts ->
    linesOf text = pre ++ totalBalanceLine ip fp :: post ->
    isAmount ip fp = true ->
    forallb (fun l => negb (isFirstPositionLine l)) pre = true ->
    forallb (fun l => negb (mentionsTotalBalance l)) (pre ++ post) = true ->
    forallb (fun l => negb (mentionsCopy l)) (positionsSection (linesOf text)) = true ->
    exists r,
      parsePortfolioResponse now text timestamp = Ok r
      /\ Snap.total_balance (snapshot r) = amountValue ip fp.
Proof.
  intros now text timestamp ts pre post ip fp Hts Hl Ha Hpre Hno Hc.
  destruct (secondPassFrom_returns _ Hc initialPass) as (ps & Hps).
  rewrite <- secondPassFrom_section in Hps by reflexivity.
  destruct (parse_returns_when_positions_return now text timestamp ts ps Hts Hps)
    as (s & E).
  eexists. split; [exact E|].
  apply (parse_totalBalance now text timestamp pre post ip fp _ Hl Ha Hpre Hno E).
Qed.

Lemma X19_total_balance_is_read_witness :
  exists r,
    parsePortfolioResponse 0
      (JS.join [JS.LF] [`"From your wallet"; `"Total Balance: $1,234.50";
                        `"#1. Will X happen?"; `"Entry: 0.45"])
      (Some (ValidDate 5)) = Ok r
    /\ Snap.total_balance (snapshot r) = Number.dec 12345 1.
Proof.
  apply (X19_total_balance_is_read 0
           (JS.join [JS.LF] [`"From your wallet"; `"Total Balance: $1,234.50";
                             `"#1. Will X happen?"; `"Entry: 0.45"])
           (Some (ValidDate 5)) (ISO 5)
           [`"From your wallet"] [`"#1. Will X happen?"; `"Entry: 0.45"]
           `"1,234" (Some `"50"));
    reflexivity.
Defined.

(* ================================================================== *)
(** * The reported number of positions *)
(* ================================================================== *)

Lemma header_skip (c : JS.char) (s : str) (pos : nat) :
  (upperAscii c =? 80) = false ->
  matchAt true Patterns.positionsHeader pos (c :: s) = None.
Proof.
  intros H. unfold matchAt, Patterns.positionsHeader.
  cbn [JS.lit map list_ascii_of_string Patterns.seq]. rewrite m_Seq.
  apply Lit_mismatch. rewrite N.eqb_sym. exact H.
Qed.

Lemma exec_header_none (text : str) :
  noLetterP text = true -> exec true Patterns.positionsHeader text = None.
Proof.
  intros H. unfold exec. rewrite <- (app_nil_r text), searchFrom_skip; [reflexivity|].
  intros c t pos Hin. apply header_skip.
  unfold noLetterP in H. apply (proj1 (forallb_forall _ _) H) in Hin.
  now apply negb_true_iff.
Qed.

(** The header pattern on "Positions", white space, and a number in
    brackets: the group is the number. *)
Lemma exec_header (pre w ws ds post : str) :
  noLetterP pre = true ->
  sameLetters w `"Positions" = true ->
  allSpace ws = true ->
  ds <> [] ->
  forallb JS.isDigit ds = true ->
  exists r,
    exec true Patterns.positionsHeader (pre ++ w ++ ws ++ `"(" ++ ds ++ `")" ++ post)
    = Some r
    /\ groups r = [(1%nat, ds)].
Proof.
  intros Hp Hw Hs Hne Hd. apply sameLetters_spec in Hw.
  unfold exec. rewrite searchFrom_skip.
  2:{ intros c t pos Hin. apply header_skip.
      unfold noLetterP in Hp. apply (proj1 (forallb_forall _ _) Hp) in Hin.
      now apply negb_true_iff. }
  rewrite searchFrom_eq.
  set (s := w ++ ws ++ `"(" ++ ds ++ `")" ++ post).
  assert (E : matchAt true Patterns.positionsHeader (0 + List.length pre) s
              = Some {| index := (0 + List.length pre)%nat;
                        whole := firstn (List.length s - List.length post) s;
                        groups := [(1%nat, ds)]; after := post |}).
  { unfold matchAt, Patterns.positionsHeader. cbn [Patterns.seq].
    rewrite m_Seq. unfold s.
    rewrite Lit_folded by (discriminate || exact Hw).
    rewrite m_Seq. unfold space.
    apply star_class; [exact Hs|reflexivity|]. intros pos1.
    cbn [JS.lit map list_ascii_of_string app].
    rewrite m_Seq, m_Chr. unfold chrMatches. change (ch "(") with (N_of_ascii "(").
    rewrite N.eqb_refl.
    rewrite m_Seq, m_Grp. unfold Plus, digit. rewrite m_Seq, m_Cls.
    destruct ds as [|d1 ds']; [congruence|].
    cbn [forallb] in Hd. apply andb_true_iff in Hd as [Hd1 Hd].
    cbn [app]. rewrite Hd1.
    apply star_class; [exact Hd|reflexivity|]. intros pos2.
    rewrite m_Chr. unfold chrMatches. change (ch ")") with (N_of_ascii ")").
    rewrite N.eqb_refl.
    f_equal. f_equal.
    change (d1 :: ds' ++ N_of_ascii ")" :: post)
      with ((d1 :: ds') ++ N_of_ascii ")" :: post).
    rewrite firstn_app_exact. reflexivity. }
  rewrite E. eexists. split; reflexivity.
Qed.

Lemma parseInt_digits (ds : str) :
  ds <> [] -> forallb JS.isDigit ds = true ->
  Number.parseInt ds = Number.dec (Z.of_N (Number.digitsToN ds)) 0.
Proof.
  intros Hne Hd. unfold Number.parseInt.
  destruct ds as [|d1 ds']; [congruence|].
  pose proof Hd as Hd'. cbn [forallb] in Hd'. apply andb_true_iff in Hd' as [Hd1 _].
  destruct (digit_facts d1 Hd1) as (W & _).
  cbn [JS.trimStart]. rewrite W.
  rewrite <- (app_nil_r (d1 :: ds')) at 1.
  rewrite span_digits by (exact Hd || exact I). reflexivity.
Qed.

(** X21.  The reported number of positions is the number in brackets
    after the word "Positions", in any spelling of upper and lower case
    and with or without white space before the bracket, when no 'p' in
    either case stands before that word in the text, on whatever line the
    word stands; no line of the summary changes it.  In a text without the
    letter 'p' it stays 0. *)
Theorem X21_reported_position_count_is_read_from_the_header :
  forall (now : Z) (text : str) (timestamp : option Date) (r : ParsedPortfolio),
    parsePortfolioResponse now text timestamp = Ok r ->
    (noLetterP text = true -> Snap.total_positions (snapshot r) = Number.zero)
    /\ (forall pre w ws ds post : str,
          text = pre ++ w ++ ws ++ `"(" ++ ds ++ `")" ++ post ->
          noLetterP pre = true ->
          sameLetters w `"Positions" = true ->
          allSpace ws = true ->
          ds <> [] ->
          forallb JS.isDigit ds = true ->
          Snap.total_positions (snapshot r)
          = Number.dec (Z.of_N (Number.digitsToN ds)) 0).
Proof.
  intros now text timestamp r H. unfold parsePortfolioResponse in H.
  apply bind_Ok in H as (ts & _ & H).
  apply bind_Ok in H as (s1 & H1 & H).
  apply bind_Ok in H as (s2 & H2 & H).
  apply bind_Ok in H as (ps & _ & H). inversion H; subst; cbn [snapshot].
  destruct (firstPass_keeps _ _ _ H2) as (_ & _ & ->).
  split.
  - intros Hn. rewrite (exec_header_none text Hn) in H1. inversion H1; subst.
    reflexivity.
  - intros pre w ws ds post -> Hp Hw Hs Hne Hd.
    destruct (exec_header pre w ws ds post Hp Hw Hs Hne Hd) as (hm & E & G).
    rewrite E in H1. unfold getGroup in H1. rewrite G in H1. cbn in H1.
    inversion H1; subst. cbn [Snap.total_positions Snap.set_total_positions].
    apply parseInt_digits; assumption.
Qed.

Lemma X21_reported_position_count_is_read_from_the_header_witness :
  parsePortfolioResponse 0 headerText (Some (ValidDate 5)) = Ok (headerResult (ISO 5))
  /\ Snap.total_positions (snapshot (headerResult (ISO 5))) = Number.dec 11 0.
Proof.
  assert (E : parsePortfolioResponse 0 headerText (Some (ValidDate 5))
              = Ok (headerResult (ISO 5))) by (vm_compute; reflexivity).
  split; [exact E|].
  apply (proj2 (X21_reported_position_count_is_read_from_the_header
                  0%Z headerText (Some (ValidDate 5)) (headerResult (ISO 5)) E)
           `"Manage your " `"POSITIONS" `" " `"11" (JS.LF :: `"Total Balance: $5"));
    try reflexivity. discriminate.
Defined.

(* ================================================================== *)
(** * The market question *)
(* ================================================================== *)

Lemma trimmed_parts (q : str) :
  JS.trim q = q ->
  headNot JS.isWhiteSpace q /\ JS.trimStart q = q /\ JS.trimEnd q = q.
Proof.
  intros H. assert (Hh : headNot JS.isWhiteSpace q) by (rewrite <- H; apply trim_head).
  split; [exact Hh|]. pose proof (trimStart_clean _ Hh) as Hs. split; [exact Hs|].
  unfold JS.trim in H. rewrite Hs in H. exact H.
Qed.

Lemma trimEnd_app (a q : str) :
  JS.trimEnd q = q -> q <> [] -> JS.trimEnd (a ++ q) = a ++ q.
Proof.
  unfold JS.trimEnd. intros H Hne.
  assert (Hr : JS.trimStart (rev q) = rev q).
  { rewrite <- (rev_involutive (JS.trimStart (rev q))), H. reflexivity. }
  rewrite rev_app_distr.
  assert (E : JS.trimStart (rev q ++ rev a) = rev q ++ rev a).
  { destruct (rev q) as [|c t] eqn:Eq.
    - exfalso. apply Hne. rewrite <- (rev_involutive q), Eq. reflexivity.
    - pose proof (trimStart_head (c :: t)) as Hh. rewrite Hr in Hh.
      cbn [headNot] in Hh. cbn [app JS.trimStart]. now rewrite Hh. }
  rewrite E, rev_app_distr, !rev_involutive. reflexivity.
Qed.

Lemma digit_not_hash (d : JS.char) : JS.isDigit d = true -> (ch "#" =? d) = false.
Proof.
  unfold JS.isDigit. intros H. apply andb_true_iff in H as [H _].
  apply N.leb_le in H. apply N.eqb_neq. change (ch "#") with 35. lia.
Qed.

Lemma m_Bol0 (A : Type) (ci : bool) (s : str) (cs : caps) (k : cont A) :
  m ci Bol 0 s cs k = k 0%nat s cs.
Proof. reflexivity. Qed.

(** The first [replace] takes the number off a market line. *)
Lemma remove_number (hash : bool) (ds ws rest : str) :
  ds <> [] ->
  forallb JS.isDigit ds = true ->
  allSpace ws = true ->
  headNot JS.isWhiteSpace rest ->
  remove false Patterns.headerPrefixSpaces (numberedLine hash ds ws rest) = rest.
Proof.
  intros Hne Hd Hs Hr. unfold remove, numberedLine.
  destruct ds as [|d1 ds']; [congruence|].
  cbn [forallb] in Hd. apply andb_true_iff in Hd as [Hd1 Hd].
  set (tail := d1 :: ds' ++ `"." ++ ws ++ rest).
  change ((d1 :: ds') ++ `"." ++ ws ++ rest) with tail.
  assert (T : forall (pos : nat) (cs : caps),
             m false (Patterns.seq [Plus digit; Chr (ch "."); Star space]) pos tail cs
               (fun _ s' cs' =>
                  Some {| index := 0;
                          whole := firstn
                                     (List.length ((if hash then `"#" else []) ++ tail)
                                      - List.length s')
                                     ((if hash then `"#" else []) ++ tail);
                          groups := cs'; after := s' |})
             = Some {| index := 0;
                       whole := firstn
                                  (List.length ((if hash then `"#" else []) ++ tail)
                                   - List.length rest)
                                  ((if hash then `"#" else []) ++ tail);
                       groups := cs; after := rest |}).
  { intros pos cs. cbn [Patterns.seq]. unfold Plus, digit, tail.
    rewrite !m_Seq, m_Cls, Hd1.
    apply star_class; [exact Hd|reflexivity|]. intros pos1.
    cbn [JS.lit map list_ascii_of_string app].
    rewrite m_Seq, m_Chr. unfold chrMatches. change (ch ".") with (N_of_ascii ".").
    rewrite N.eqb_refl. unfold space.
    apply star_class; [exact Hs|exact Hr|]. reflexivity. }
  assert (E : exec false Patterns.headerPrefixSpaces ((if hash then `"#" else []) ++ tail)
              = Some {| index := 0;
                        whole := firstn
                                   (List.length ((if hash then `"#" else []) ++ tail)
                                    - List.length rest)
                                   ((if hash then `"#" else []) ++ tail);
                        groups := []; after := rest |}).
  { unfold Patterns.headerPrefixSpaces. cbn [Patterns.seq].
    destruct hash; cbn [JS.lit map list_ascii_of_string app].
    - rewrite exec_Bol. unfold matchAt. rewrite m_Seq, m_Bol0, m_Seq. unfold Opt.
      apply alt_first. rewrite m_Chr. unfold chrMatches.
      change (ch "#") with (N_of_ascii "#"). rewrite N.eqb_refl.
      apply (T 1%nat []).
    - unfold tail at 1. rewrite exec_Bol. fold tail.
      unfold matchAt. rewrite m_Seq, m_Bol0, m_Seq. unfold Opt.
      rewrite m_Alt, m_Chr. unfold chrMatches, tail at 1.
      rewrite (digit_not_hash _ Hd1). fold tail. rewrite m_Eps.
      apply (T 0%nat []). }
  rewrite E. reflexivity.
Qed.

Lemma checkmark_cases (c : JS.char) :
  isCheckmark c = true -> c = JS.checkMark \/ c = JS.heavyCheckMark \/ c = JS.whiteHeavyCheckMark.
Proof.
  unfold isCheckmark, oneOf. cbn [existsb]. intros H.
  apply orb_true_iff in H as [H|H]; [left; now apply N.eqb_eq|].
  apply orb_true_iff in H as [H|H]; [right; left; now apply N.eqb_eq|].
  apply orb_true_iff in H as [H|H]; [right; right; now apply N.eqb_eq|discriminate].
Qed.

Lemma checkmark_not_space (c : JS.char) :
  isCheckmark c = true -> JS.isWhiteSpace c = false.
Proof. intros H. destruct (checkmark_cases c H) as [->|[->| ->]]; reflexivity. Qed.

(** The second [replace] takes a check mark off the front, with the white
    space after it, and leaves every other text as it is. *)
Lemma remove_checkmark_none (q : str) :
  headNot isCheckmark q -> remove false Patterns.checkmarks q = q.
Proof.
  intros H. unfold remove. destruct q as [|c q]; [reflexivity|].
  cbn [headNot] in H. unfold Patterns.checkmarks. cbn [Patterns.seq].
  rewrite exec_Bol. unfold matchAt. rewrite m_Seq, m_Bol0, m_Seq, m_Cls.
  fold (isCheckmark c). rewrite H. reflexivity.
Qed.

Lemma remove_checkmark (c : JS.char) (ws q : str) :
  isCheckmark c = true ->
  allSpace ws = true ->
  headNot JS.isWhiteSpace q ->
  remove false Patterns.checkmarks (c :: ws ++ q) = q.
Proof.
  intros Hc Hs Hq. unfold remove, Patterns.checkmarks. cbn [Patterns.seq].
  rewrite exec_Bol. unfold matchAt. rewrite m_Seq, m_Bol0, m_Seq, m_Cls.
  fold (isCheckmark c). rewrite Hc. unfold space.
  erewrite star_class; [|exact Hs|exact Hq|intros; reflexivity].
  reflexivity.
Qed.

(** X22.  The market question of a position is the text of its market
    line after the number: for a line made of an optional '#', digits, a
    point, white space and a trimmed text, the question is that text; a
    check mark before the text, with the white space after it, is taken
    off as well. *)
Theorem X22_market_question_is_the_line_without_its_number :
  forall (hash : bool) (ds ws q : str),
    ds <> [] ->
    forallb JS.isDigit ds = true ->
    allSpace ws = true ->
    JS.trim q = q ->
    (headNot isCheckmark q ->
     Position.market_question (newPosition (numberedLine hash ds ws q)) = q)
    /\ (forall (c : JS.char) (ws2 : str),
          isCheckmark c = true ->
          allSpace ws2 = true ->
          q <> [] ->
          Position.market_question
            (newPosition (numberedLine hash ds ws (c :: ws2 ++ q))) = q).
Proof.
  intros hash ds ws q Hne Hd Hs Ht.
  destruct (trimmed_parts q Ht) as (Hh & Hts & Hte).
  split.
  - intros Hc. unfold newPosition. cbn [Position.market_question].
    rewrite (remove_number hash ds ws q Hne Hd Hs Hh), Ht.
    rewrite (remove_checkmark_none q Hc). exact Ht.
  - intros c ws2 Hc Hs2 Hq. unfold newPosition. cbn [Position.market_question].
    pose proof (checkmark_not_space c Hc) as Hw.
    rewrite (remove_number hash ds ws (c :: ws2 ++ q) Hne Hd Hs Hw).
    assert (E : JS.trim (c :: ws2 ++ q) = c :: ws2 ++ q).
    { unfold JS.trim. cbn [JS.trimStart]. rewrite Hw.
      change (c :: ws2 ++ q) with ((c :: ws2) ++ q).
      apply trimEnd_app; assumption. }
    rewrite E, (remove_checkmark c ws2 q Hc Hs2 Hh). exact Ht.
Qed.

Lemma X22_market_question_is_the_line_without_its_number_witness :
  Position.market_question (newPosition `"#12.  Will X happen?") = `"Will X happen?"
  /\ Position.market_question
       (newPosition (`"7." ++ [JS.heavyCheckMark] ++ `" " ++ `"Will Y happen?"))
     = `"Will Y happen?".
Proof.
  split.
  - apply (proj1 (X22_market_question_is_the_line_without_its_number
                    true `"12" `"  " `"Will X happen?"
                    ltac:(discriminate) eq_refl eq_refl eq_refl)).
    reflexivity.
  - apply (proj2 (X22_market_question_is_the_line_without_its_number
                    false `"7" [] `"Will Y happen?"
                    ltac:(discriminate) eq_refl eq_refl eq_refl)
             JS.heavyCheckMark `" ");
      try reflexivity. discriminate.
Defined.

(* ================================================================== *)
(** * Rejected reads *)
(* ================================================================== *)

(** X23.  A rejected read of the table during a backfill.  In the Express
    server the duplicate check answers "no snapshot near" when its read is
    rejected, so a candidate with data is saved even if a stored snapshot
    is near; in the Next.js route the rejection ends the round for this
    message, which is neither saved nor counted. *)
Theorem X23_rejected_duplicate_check :
  forall (env : Env) (msg : Express.Message) (ms : Z) (parsed : ParsedPortfolio)
         (w : World) (c : Express.Counters) (c' : NextHistorical.Tally),
    readFails env = true ->
    Express.date msg = ValidDate ms ->
    parsePortfolioResponse 0 (Express.message msg) (Some (ValidDate ms)) = Ok parsed ->
    hasData parsed = true ->
    savePortfolioFails env (snapshot parsed) (positions parsed) = false ->
    (exists w1,
       Express.processMessage env msg c w = (w1, Ok (saveOne c))
       /\ db w1 = snd (insertSnapshot (snapshot parsed) (positions parsed) (db w)))
    /\ (exists w2,
          NextHistorical.processMessage env msg c' w = (w2, Ok c')
          /\ db w2 = db w).
Proof.
  intros env msg ms parsed w c c' Hr Hd Hp Hh Hs. split.
  - destruct (Express.processMessage env msg c w) as [w1 r] eqn:E. revert E.
    unfold Express.processMessage, tryCatch, bindM, liftResult,
      Sqlite.snapshotExistsNearTimestamp, tryCatch, logEntry, ret.
    rewrite Hd. simpl toISOString. cbv iota beta. rewrite Hr. cbv iota beta.
    rewrite Hp. cbv iota beta. fold (hasData parsed). rewrite Hh.
    unfold bindM. cbv beta iota.
    rewrite (savePortfolio_accepted env _ _ _ Hs). cbv iota beta.
    destruct (Nat.modulo (S (Express.saved c)) 10 =? 0)%nat;
      intros E; inversion E; subst; eexists; split; reflexivity.
  - unfold NextHistorical.processMessage, tryCatch, bindM, liftResult,
      Prisma.snapshotExistsNearTimestamp, logEntry, ret.
    rewrite Hd. simpl toISOString. cbv iota beta. rewrite Hr.
    eexists. split; reflexivity.
Qed.

Lemma X23_rejected_duplicate_check_witness :
  nearOne (timesOf (db oneSnapshotWorld)) 180000 = true
  /\ (exists w1,
        Express.processMessage readsFail (candidateAt 180000) noCounts oneSnapshotWorld
        = (w1, Ok (saveOne noCounts))
        /\ timesOf (db w1) = [0; 180000]%Z)
  /\ (exists w2,
        NextHistorical.processMessage readsFail (candidateAt 180000)
          {| NextHistorical.savedCount := 0; NextHistorical.skippedCount := 0 |}
          oneSnapshotWorld
        = (w2, Ok {| NextHistorical.savedCount := 0; NextHistorical.skippedCount := 0 |})
        /\ timesOf (db w2) = [0]%Z).
Proof.
  destruct (X23_rejected_duplicate_check readsFail (candidateAt 180000) 180000
              {| snapshot := Snap.set_total_balance (Number.dec 9020 2)
                               (emptySnapshot (ISO 180000));
                 positions := [] |}
              oneSnapshotWorld noCounts
              {| NextHistorical.savedCount := 0; NextHistorical.skippedCount := 0 |}
              eq_refl eq_refl eq_refl eq_refl eq_refl)
    as ((w1 & E1 & D1) & (w2 & E2 & D2)).
  split; [reflexivity|]. split.
  - exists w1. split; [exact E1|]. rewrite D1. reflexivity.
  - exists w2. split; [exact E2|]. rewrite D2. reflexivity.
Defined.

(** X24.  A rejected read of the table during a pass of the Express
    server, with traders known.  The rejection is answered with "no
    snapshot": the pass saves the snapshot and resolves, saves no event,
    and still replaces the known traders by the current ones, so that the
    change is not reported by any later pass either. *)
Theorem X24_rejected_read_loses_the_change :
  forall (env : Env) (parsed : ParsedPortfolio) (w : World),
    readFails env = true ->
    savePortfolioFails env (snapshot parsed) (positions parsed) = false ->
    lastKnownTraders w <> [] ->
    exists w',
      Express.reconcile env parsed w
      = (w', Ok (N.of_nat (S (List.length (snapshots (db w))))))
      /\ db w' = snd (insertSnapshot (snapshot parsed) (positions parsed) (db w))
      /\ lastKnownTraders w' = Express.currentTradersOf (positions parsed)
      /\ console w' = console w ++ [LogError "Error getting latest snapshot:"
                                      (StorageError "getLatestSnapshot")].
Proof.
  intros env parsed w Hr Hs Hne.
  rewrite (Express_reconcile_unfold env parsed w Hs).
  unfold Express.detectCopyTradingChanges, tryCatch at 1, bindM at 1, bindM at 1,
    getWorld at 1.
  cbn [afterSave setDb lastKnownTraders].
  destruct (lastKnownTraders w) as [|t0 l0] eqn:EL; [congruence|].
  cbn [List.length Nat.ltb Nat.leb].
  unfold bindM at 1, Sqlite.getLatestSnapshot, tryCatch at 1. rewrite Hr.
  simpl. eexists. repeat split.
Qed.

Lemma X24_rejected_read_loses_the_change_witness :
  exists w',
    Express.reconcile readsFail (parsedWith 2000 [bob; carol]) knownWorld = (w', Ok 2)
    /\ newEvents knownWorld w' = []
    /\ lastKnownTraders knownWorld = [alice; bob]
    /\ lastKnownTraders w' = [bob; carol].
Proof.
  destruct (X24_rejected_read_loses_the_change readsFail (parsedWith 2000 [bob; carol])
              knownWorld eq_refl eq_refl ltac:(discriminate)) as (w' & E & D & L & _).
  exists w'. split; [exact E|]. split; [|split; [reflexivity|exact L]].
  unfold newEvents. rewrite D. reflexivity.
Defined.
(* ================================================================== *)
(** * Which lines become positions *)
(* ================================================================== *)

Lemma positionsSection_head (lines : list str) :
  match positionsSection lines with
  | [] => True
  | first :: _ => isFirstPositionLine first = true
  end.
Proof.
  induction lines as [|l lines IH]; simpl; [exact I|].
  destruct (isFirstPositionLine l) eqn:E; [exact E|exact IH].
Qed.

Lemma questions_pushOpen (c : list Position.t) (p : Position.t) (i : bool) :
  map Position.market_question
      (pushOpen {| collected := c; currentPosition := Some p; inPositionsSection := i |})
  = map Position.market_question c
    ++ filter (fun q => (0 <? List.length q)%nat) [Position.market_question p].
Proof.
  unfold pushOpen. cbn [currentPosition collected filter].
  destruct (Position.market_question p) as [|a q] eqn:E; cbn [List.length Nat.ltb Nat.leb].
  - now rewrite app_nil_r.
  - rewrite map_app. cbn [map]. rewrite E. reflexivity.
Qed.

(** Inside the section: the questions of the result are those collected
    so far, that of the open position, and those of the market lines up to
    the first control line. *)
Lemma secondPassFrom_questions (lines : list str) :
  forall st ps,
    inPositionsSection st = true ->
    secondPassFrom lines st = Ok ps ->
    map Position.market_question ps
    = map Position.market_question (pushOpen st)
      ++ filter (fun q => (0 <? List.length q)%nat)
           (map questionOf
                (filter isMarketLine
                        (takeWhile (fun l => negb (isControlLine l)) lines))).
Proof.
  induction lines as [|line lines IH]; intros st ps Hs H; cbn [secondPassFrom] in H.
  - inversion H; subst. cbn. now rewrite app_nil_r.
  - unfold positionLine in H. rewrite Hs in H. cbn [andb orb negb] in H.
    cbn [takeWhile].
    destruct (isControlLine line) eqn:Ec; cbn [negb bind] in *.
    + inversion H; subst. cbn. now rewrite app_nil_r.
    + cbn [filter]. unfold isMarketLine at 1.
      destruct (isSkippedLine line) eqn:Ek; cbn [negb andb bind] in *.
      * apply IH in H; [|reflexivity]. rewrite H. destruct st as [c p i]. reflexivity.
      * destruct (startsPosition line) eqn:Ep; cbn [bind] in *.
        -- apply IH in H; [|reflexivity]. rewrite H. rewrite questions_pushOpen.
           cbn [map filter]. fold (questionOf line).
           assert (E : pushOpen {| collected := collected st;
                                   currentPosition := currentPosition st;
                                   inPositionsSection := true |} = pushOpen st)
             by (destruct st; reflexivity).
           rewrite E, <- app_assoc. f_equal.
           destruct (0 <? List.length (questionOf line))%nat; reflexivity.
        -- cbn [currentPosition collected] in H.
           destruct (currentPosition st) as [p|] eqn:Ecur.
           ++ destruct (detailLine line p) as [p'|e] eqn:Ed; cbn [bind] in H;
                [|discriminate].
              apply IH in H; [|reflexivity]. rewrite H. f_equal.
              destruct (detailLine_filled _ _ _ Ed) as [Q _].
              rewrite questions_pushOpen, Q.
              destruct st as [c cp i]. cbn [currentPosition collected] in *. subst cp.
              symmetry. apply questions_pushOpen.
           ++ apply IH in H; [|reflexivity]. rewrite H. destruct st as [c cp i].
              cbn [currentPosition] in Ecur. subst cp. reflexivity.
Qed.

Lemma secondPass_questions (section : list str) (ps : list Position.t) :
  match section with
  | [] => True
  | first :: _ => isFirstPositionLine first = true
  end ->
  secondPassFrom section initialPass = Ok ps ->
  map Position.market_question ps = questionsOf section.
Proof.
  destruct section as [|first rest]; intros Hf H.
  - inversion H; subst. reflexivity.
  - cbn [secondPassFrom] in H. unfold positionLine in H.
    cbn [initialPass inPositionsSection currentPosition collected andb orb] in H.
    rewrite Hf in H. cbn [negb] in H.
    unfold questionsOf, readLines. cbn [filter]. unfold isMarketLine at 1.
    destruct (isSkippedLine first) eqn:Ek; cbn [negb andb bind] in *.
    + apply secondPassFrom_questions in H; [|reflexivity]. rewrite H. reflexivity.
    + destruct (startsPosition first) eqn:Ep; cbn [bind] in *.
      * apply secondPassFrom_questions in H; [|reflexivity]. rewrite H.
        rewrite questions_pushOpen. cbn [map filter app]. fold (questionOf first).
        destruct (0 <? List.length (questionOf first))%nat; reflexivity.
      * apply secondPassFrom_questions in H; [|reflexivity]. rewrite H. reflexivity.
Qed.

(** X25.  Which lines become positions.  When the parser returns, the
    market questions of its positions, in order, are those of the market
    lines of the positions section: the lines from the first position line
    on, up to the first control line after it, that are not skipped rows
    and that start a position; a market line whose question is empty gives
    no position.  So the positions are in the order of the message, and
    nothing after the first control line is among them. *)
Theorem X25_one_position_per_market_line :
  forall (now : Z) (text : str) (timestamp : option Date) (r : ParsedPortfolio),
    parsePortfolioResponse now text timestamp = Ok r ->
    map Position.market_question (positions r)
    = questionsOf (positionsSection (linesOf text)).
Proof.
  intros now text timestamp r H. unfold parsePortfolioResponse in H.
  apply bind_Ok in H as (ts & _ & H).
  apply bind_Ok in H as (s1 & _ & H).
  apply bind_Ok in H as (s2 & _ & H).
  apply bind_Ok in H as (ps & Hps & H). inversion H; subst; cbn [positions].
  unfold secondPass in Hps. rewrite secondPassFrom_section in Hps by reflexivity.
  apply secondPass_questions; [apply positionsSection_head|exact Hps].
Qed.

Lemma X25_one_position_per_market_line_witness :
  exists r,
    parsePortfolioResponse 0 marketsText (Some (ValidDate 5)) = Ok r
    /\ map Position.market_question (positions r)
       = [`"Will X happen?"; `"Will Y happen?"].
Proof.
  pose proof (X25_one_position_per_market_line 0 marketsText (Some (ValidDate 5))) as H.
  destruct (parsePortfolioResponse 0 marketsText (Some (ValidDate 5))) as [r|e] eqn:E;
    [|vm_compute in E; discriminate].
  exists r. split; [reflexivity|]. rewrite (H r eq_refl). vm_compute. reflexivity.
Defined.
(* ================================================================== *)
(** * The two servers on the same pass *)
(* ================================================================== *)

Lemma unstamped_added (clock : nat -> Z) (ts : isoString) (l : list str) :
  forall t,
    map unstamped (stamped clock t (map (fun x ts' => addedEvent ts' x) l))
    = map unstamped (map (addedEvent ts) l).
Proof.
  induction l as [|x l IH]; intros t; [reflexivity|].
  cbn [map stamped]. rewrite IH. reflexivity.
Qed.

Lemma unstamped_removed (clock : nat -> Z) (ts : isoString) (l : list str) :
  forall t,
    map unstamped (stamped clock t (map (fun x ts' => removedEvent ts' x) l))
    = map unstamped (map (removedEvent ts) l).
Proof.
  induction l as [|x l IH]; intros t; [reflexivity|].
  cbn [map stamped]. rewrite IH. reflexivity.
Qed.

(** X26.  The two servers record the same changes.  From the same state
    with some trader known, on a table with ids in insertion order whose
    snapshots are all earlier than the new one, for positions whose
    [copied_from] texts are trimmed and with nothing rejected, a pass of
    the Express server and a pass of the Next.js route return the same
    snapshot id, leave the same known traders, and save the same events in
    the same order; only the timestamps of the events can differ. *)
Theorem X26_both_servers_record_the_same_changes :
  forall (env : Env) (parsed : ParsedPortfolio) (w : World),
    readFails env = false ->
    (forall e, saveEventFails env e = false) ->
    savePortfolioFails env (snapshot parsed) (positions parsed) = false ->
    lastKnownTraders w <> [] ->
    rowIds (db w) = true ->
    allEarlier (db w) (Snap.timestamp (snapshot parsed)) = true ->
    tradersTrimmed (positions parsed) = true ->
    let express := Express.reconcile env parsed w in
    let next := NextApp.reconcile env parsed w in
    snd express = snd next
    /\ lastKnownTraders (fst express) = lastKnownTraders (fst next)
    /\ map unstamped (newEvents w (fst express))
       = map unstamped (newEvents w (fst next)).
Proof.
  intros env parsed w Hr He Hs Hne Hids Hl Ht express next.
  assert (Hts : forall r, In r (snapshots (db w)) ->
                  (isoMs (Snap.timestamp (row_snapshot r))
                   <= isoMs (Snap.timestamp (snapshot parsed)))%Z).
  { intros r Hin. unfold allEarlier in Hl.
    apply (proj1 (forallb_forall _ _) Hl) in Hin. apply Z.ltb_lt in Hin. lia. }
  destruct (Express_reconcile_events env parsed w Hs Hr He Hne Hts)
    as (we & Ee & Ve & Le).
  destruct (Next_reconcile_events env parsed w Hr He Hs Hids)
    as (wn & En & Vn & _ & Ln).
  unfold express, next. rewrite Ee, En. cbn [fst snd].
  rewrite Le, Ln, Ve, Vn, (currentTraders_distinct _ Ht).
  split; [reflexivity|]. split; [reflexivity|].
  unfold changeEvents, changeMakers.
  rewrite stamped_app, !map_app.
  rewrite (unstamped_added _ (Snap.timestamp (snapshot parsed))),
          (unstamped_removed _ (Snap.timestamp (snapshot parsed))).
  reflexivity.
Qed.

Lemma X26_both_servers_record_the_same_changes_witness :
  let env := quietEnv (tickingClock 5000) in
  let express := Express.reconcile env (parsedWith 2000 [bob; carol]) knownWorld in
  let next := NextApp.reconcile env (parsedWith 2000 [bob; carol]) knownWorld in
  newEvents knownWorld (fst express)
  = [addedEvent (ISO 2000) carol; removedEvent (ISO 2000) alice]
  /\ newEvents knownWorld (fst next)
     = [addedEvent (ISO 5000) carol; removedEvent (ISO 5001) alice]
  /\ snd express = snd next
  /\ lastKnownTraders (fst express) = lastKnownTraders (fst next)
  /\ map unstamped (newEvents knownWorld (fst express))
     = map unstamped (newEvents knownWorld (fst next)).
Proof.
  intros env express next.
  split; [reflexivity|]. split; [reflexivity|].
  apply (X26_both_servers_record_the_same_changes
           env (parsedWith 2000 [bob; carol]) knownWorld);
    try reflexivity; discriminate.
Defined.

(* ================================================================== *)
(** * A text without lines *)
(* ================================================================== *)

Lemma trimStart_allSpace (s : str) : allSpace s = true -> JS.trimStart s = [].
Proof.
  unfold allSpace. induction s as [|c s IH]; simpl; [reflexivity|].
  destruct (JS.isWhiteSpace c); [exact IH|discriminate].
Qed.

Lemma trim_allSpace (s : str) : allSpace s = true -> JS.trim s = [].
Proof. intros H. unfold JS.trim. now rewrite (trimStart_allSpace s H). Qed.

Lemma split_go_allSpace (sep : JS.char) (s : str) :
  forall cur piece,
    allSpace cur = true -> allSpace s = true ->
    In piece (JS.split_go sep cur s) -> allSpace piece = true.
Proof.
  unfold allSpace.
  induction s as [|c s IH]; intros cur piece Hc Hs; simpl.
  - intros [<-|[]]. apply forallb_forall. intros x Hx. apply in_rev in Hx.
    exact (proj1 (forallb_forall _ _) Hc x Hx).
  - simpl in Hs. apply andb_true_iff in Hs as [Hw Hs].
    destruct (c =? sep).
    + intros [<-|Hin].
      * apply forallb_forall. intros x Hx. apply in_rev in Hx.
        exact (proj1 (forallb_forall _ _) Hc x Hx).
      * exact (IH [] piece eq_refl Hs Hin).
    + apply IH; [|exact Hs]. simpl. now rewrite Hw, Hc.
Qed.

Lemma linesOf_allSpace (text : str) : allSpace text = true -> linesOf text = [].
Proof.
  intros H. unfold linesOf, JS.split.
  assert (A : forall piece, In piece (JS.split_go JS.LF [] text) -> JS.trim piece = [])
    by (intros piece Hin; apply trim_allSpace;
        exact (split_go_allSpace JS.LF text [] piece eq_refl H Hin)).
  induction (JS.split_go JS.LF [] text) as [|p l IH]; [reflexivity|].
  cbn [map filter]. rewrite (A p (or_introl eq_refl)). cbn [List.length Nat.ltb Nat.leb].
  apply IH. intros piece Hin. apply A. now right.
Qed.

Lemma whiteSpace_noLetterP (text : str) : allSpace text = true -> noLetterP text = true.
Proof.
  unfold allSpace, noLetterP. intros H. apply forallb_forall. intros c Hc.
  apply (proj1 (forallb_forall _ _) H) in Hc.
  apply negb_true_iff, N.eqb_neq. intros E.
  unfold JS.isWhiteSpace in Hc. cbn [existsb] in Hc. unfold upperAscii in E.
  destruct ((97 <=? c) && (c <=? 122)) eqn:B.
  - apply andb_true_iff in B as [B1 B2]. apply N.leb_le in B1, B2.
    assert (c = 112) by lia. subst c. vm_compute in Hc. discriminate.
  - subst c. vm_compute in Hc. discriminate.
Qed.

(** X27.  A text without anything but white space and line breaks, the
    empty text among them, is parsed without an error: the snapshot has
    the given date and zero in every field, and there is no position. *)
Theorem X27_blank_text_gives_the_empty_snapshot :
  forall (now : Z) (text : str) (timestamp : option Date) (ts : isoString),
    allSpace text = true ->
    toISOString (stampDate now timestamp) = Ok ts ->
    parsePortfolioResponse now text timestamp
    = Ok {| snapshot := emptySnapshot ts; positions := [] |}.
Proof.
  intros now text timestamp ts Hw Hts. unfold parsePortfolioResponse.
  replace (match timestamp with
           | Some d => toISOString d
           | None => toISOString (ValidDate now)
           end) with (Ok ts)
    by (rewrite <- Hts; destruct timestamp; reflexivity).
  cbn [bind].
  rewrite (exec_header_none text (whiteSpace_noLetterP text Hw)).
  rewrite (linesOf_allSpace text Hw). reflexivity.
Qed.

Lemma X27_blank_text_gives_the_empty_snapshot_witness :
  parsePortfolioResponse 0 [32; 9; JS.LF; 13; JS.LF; 160] None
  = Ok {| snapshot := emptySnapshot (ISO 0); positions := [] |}.
Proof.
  apply (X27_blank_text_gives_the_empty_snapshot 0 [32; 9; JS.LF; 13; JS.LF; 160] None (ISO 0));
    reflexivity.
Defined.
(* ================================================================== *)
(** * A refresh on a reply without positions *)
(* ================================================================== *)

Section RefreshWithoutPositions.
Variable env : Env.
Hypothesis reads : readFails env = false.
Hypothesis eventWrites : forall e, saveEventFails env e = false.

(** The pass of [autoRefresh] on a reply whose parse has no positions. *)
Lemma refreshPass_without_positions (responseText : str) (w : World)
      (parsed : ParsedPortfolio) :
  parsePortfolioResponse (wallClock env (ticks w)) responseText None = Ok parsed ->
  positions parsed = [] ->
  savePortfolioFails env (snapshot parsed) (positions parsed) = false ->
  allEarlier (db w) (ISO (wallClock env (ticks w))) = true ->
  lastKnownTraders w <> [] ->
  exists w',
    Express.refreshPass env responseText w
    = (w', Ok (N.of_nat (S (List.length (snapshots (db w))))))
    /\ newEvents w w'
       = map (removedEvent (ISO (wallClock env (ticks w)))) (lastKnownTraders w)
    /\ lastKnownTraders w' = [].
Proof.
  intros Hp Hps Hs Hl Hne.
  set (now := wallClock env (ticks w)) in *.
  assert (Hts : Snap.timestamp (snapshot parsed) = ISO now).
  { destruct (parse_timestamp _ _ _ _ Hp) as [T _]. cbn in T. now inversion T. }
  unfold Express.refreshPass, bindM at 1, newDateISO.
  unfold bindM at 1, liftResult. fold now. cbn [isoMs]. rewrite Hp.
  match goal with |- context [Express.reconcile env parsed ?w1] =>
    destruct (Express_reconcile_events env parsed w1) as (w' & E & V & L) end;
    cbn [db lastKnownTraders]; try assumption.
  - intros r Hin. rewrite Hts. unfold allEarlier in Hl.
    apply (proj1 (forallb_forall _ _) Hl) in Hin. apply Z.ltb_lt in Hin.
    lia.
  - exists w'. cbn [db lastKnownTraders] in E, V, L. rewrite Hps in V, L.
    split; [exact E|]. split; [|exact L].
    unfold newEvents in *. cbn [db] in V. rewrite V, Hts.
    unfold changeEvents, Express.currentTradersOf. cbn [fold_left filter map app].
    f_equal. clear. induction (lastKnownTraders w) as [|t l IH]; [reflexivity|].
    cbn [filter map]. unfold StrSet.has at 1. cbn [existsb negb map]. now rewrite IH.
Qed.

End RefreshWithoutPositions.

(** X28.  A reply without a position line reports every trader removed.
    Let the reply of the bot have no first position line (a notice, an
    error text, an account without positions), let nothing be rejected,
    and let the stored snapshots be earlier than the reading of the clock.
    Then [autoRefresh], with some trader known, saves a snapshot and one
    "Stopped copying" event per known trader, stamped with that reading,
    and knows no trader afterwards.  [/api/refresh] loads the known
    traders from the latest stored snapshot first: on a table whose last
    row is the latest and has copied positions, it saves one "Stopped
    copying" event per trader of that row, whatever was known before. *)
Theorem X28_reply_without_positions_reports_every_trader_removed :
  forall (env : Env) (responseText : str) (w : World) (parsed : ParsedPortfolio),
    readFails env = false ->
    (forall e, saveEventFails env e = false) ->
    positionsSection (linesOf responseText) = [] ->
    parsePortfolioResponse (wallClock env (ticks w)) responseText None = Ok parsed ->
    savePortfolioFails env (snapshot parsed) (positions parsed) = false ->
    allEarlier (db w) (ISO (wallClock env (ticks w))) = true ->
    let now := ISO (wallClock env (ticks w)) in
    let newId := N.of_nat (S (List.length (snapshots (db w)))) in
    (lastKnownTraders w <> [] ->
     exists w',
       Express.refreshPass env responseText w = (w', Ok newId)
       /\ newEvents w w' = map (removedEvent now) (lastKnownTraders w)
       /\ lastKnownTraders w' = [])
    /\ (forall (rows : list Row) (s : Snap.t) (ps : list Position.t),
          snapshots (db w)
          = rows ++ [{| row_snapshot :=
                          Snap.set_id (Some (N.of_nat (S (List.length rows)))) s;
                        row_positions := ps |}] ->
          idsFrom 1 rows = true ->
          (forall r, In r rows ->
                     (isoMs (Snap.timestamp (row_snapshot r))
                      <= isoMs (Snap.timestamp s))%Z) ->
          distinctCopiedFrom ps <> [] ->
          exists w',
            Express.apiRefresh env responseText w = (w', Ok newId)
            /\ newEvents w w' = map (removedEvent now) (distinctCopiedFrom ps)
            /\ lastKnownTraders w' = []).
Proof.
  intros env responseText w parsed Hr He Hsec Hp Hs Hl now newId.
  assert (Hps : positions parsed = []).
  { revert Hp. unfold parsePortfolioResponse. intros H.
    apply bind_Ok in H as (ts & _ & H).
    apply bind_Ok in H as (s1 & _ & H).
    apply bind_Ok in H as (s2 & _ & H).
    apply bind_Ok in H as (ps & Hps & H). inversion H; subst; cbn [positions].
    unfold secondPass in Hps.
    rewrite secondPassFrom_section, Hsec in Hps by reflexivity.
    simpl in Hps. now inversion Hps. }
  split.
  - intros Hne.
    apply (refreshPass_without_positions env Hr He responseText w parsed);
      assumption.
  - intros rows s ps Hw Hids Hts Hne.
    destruct (Express_initialize_world env Hr rows s ps w Hw Hids Hts)
      as (w0 & E0 & D0 & T0 & L0).
    unfold Express.apiRefresh, bindM at 1. rewrite E0.
    destruct (refreshPass_without_positions env Hr He responseText w0 parsed)
      as (w' & E & V & L); rewrite ?T0, ?D0, ?L0; try assumption.
    exists w'. rewrite T0, D0, L0 in *. split; [exact E|]. split; [|exact L].
    unfold newEvents in *. rewrite D0 in V. exact V.
Qed.

Lemma X28_reply_without_positions_reports_every_trader_removed_witness :
  let env := quietEnv (tickingClock 5000) in
  let notice := `"Too many requests, try again later" in
  let memory :=
    {| db := db knownWorld; lastKnownTraders := [carol];
       tradersInitialized := false; console := []; ticks := 0 |} in
  (exists w',
     Express.refreshPass env notice memory = (w', Ok 2)
     /\ newEvents memory w' = [removedEvent (ISO 5000) carol]
     /\ lastKnownTraders w' = [])
  /\ (exists w',
        Express.apiRefresh env notice memory = (w', Ok 2)
        /\ newEvents memory w'
           = [removedEvent (ISO 5000) alice; removedEvent (ISO 5000) bob]
        /\ lastKnownTraders w' = []).
Proof.
  intros env notice memory.
  destruct (X28_reply_without_positions_reports_every_trader_removed
              env notice memory
              {| snapshot := emptySnapshot (ISO 5000); positions := [] |}
              eq_refl (fun _ => eq_refl) eq_refl eq_refl eq_refl eq_refl) as [A B].
  split.
  - apply A. discriminate.
  - apply (B [] (snapshot (parsedWith 1000 [alice; bob]))
             (positions (parsedWith 1000 [alice; bob])));
      try reflexivity; [intros r []|discriminate].
Defined.
